(** * FASTQ statistics: the aggregation loops of the three entry points

    A shallow embedding of the statistical code of
    [run_fastq_click.py], [run_fastq_argparse.py] and [fastqc_gui.py].

    Conventions.
    - Python [int] is [Z]; [len] returns a [Z].  A [str] is a string of
      one-byte characters: the nucleotide alphabet is ASCII.
    - Python's true division [/] is exact rational division in [Q] and
      raises [ZeroDivisionError] on a zero denominator.  The rounding of
      binary64 floats is not modelled: every quotient below is the exact
      rational the float approximates.  Neither is the [OverflowError]
      that [int / int] raises when the quotient is beyond the range of a
      float; it cannot occur when the quality scores are within that
      range ([within_float_range]).
    - A [dict] is an association list in insertion order, which is the
      iteration order of a Python dict.
    - [click.echo] / [print] append structured lines to a console.
    - The record source ([FastqReader]) is external: a command receives
      the finite list of records that [reader.read()] yields.  The GUI
      file carries a stand-in [FastqReader] that draws its records at
      random; it is modelled by the set of the streams it can yield. *)

From Stdlib Require Import ZArith QArith List String Ascii Bool Lia.
From Stdlib Require Import Permutation Sorted.
Import ListNotations.

Local Open Scope Z_scope.

(** ** Records of the stream *)

Record FastqRecord := mkRecord {
  sequence : string;
  quality : list Z
}.

(** ** Python primitives *)

Module Py.

Inductive exn := ZeroDivisionError | ValueError | KeyError.

Inductive result (A : Type) :=
| Ok (a : A)
| Raise (e : exn).
Arguments Ok {A} a.
Arguments Raise {A} e.

Definition rbind {A B} (r : result A) (k : A -> result B) : result B :=
  match r with
  | Ok a => k a
  | Raise e => Raise e
  end.

(** [len(x)] for a list and for a str. *)
Definition len {A} (l : list A) : Z := Z.of_nat (List.length l).
Definition slen (s : string) : Z := Z.of_nat (String.length s).

(** [sum(xs)] over ints and over floats. *)
Definition sum (l : list Z) : Z := fold_left Z.add l 0.
Definition sumQ (l : list Q) : Q := fold_left Qplus l (0 # 1).

(** [a / b] with [a], [b] ints.  No [OverflowError]: see the conventions
    and [float_max]. *)
Definition truediv (a b : Z) : result Q :=
  if b =? 0 then Raise ZeroDivisionError
  else Ok (inject_Z a / inject_Z b)%Q.

(** [x / b] with [x] a float and [b] an int. *)
Definition truedivQ (x : Q) (b : Z) : result Q :=
  if b =? 0 then Raise ZeroDivisionError
  else Ok (x / inject_Z b)%Q.

(** [min(xs)] and [max(xs)]: [ValueError] on an empty argument. *)
Definition min (l : list Z) : result Z :=
  match l with
  | [] => Raise ValueError
  | x :: l' => Ok (fold_left Z.min l' x)
  end.

Definition max (l : list Z) : result Z :=
  match l with
  | [] => Raise ValueError
  | x :: l' => Ok (fold_left Z.max l' x)
  end.

(** [s.upper()] on ASCII letters. *)
Definition upper_char (c : ascii) : ascii :=
  let n := nat_of_ascii c in
  if andb (Nat.leb 97 n) (Nat.leb n 122) then ascii_of_nat (n - 32) else c.

Fixpoint upper (s : string) : string :=
  match s with
  | EmptyString => EmptyString
  | String c s' => String (upper_char c) (upper s')
  end.

(** [s.count(c)] for a one-character [c]. *)
Fixpoint count (c : ascii) (s : string) : Z :=
  match s with
  | EmptyString => 0
  | String d s' => (if Ascii.eqb d c then 1 else 0) + count c s'
  end.

(** [sum(1 for q in xs if p(q))]. *)
Definition count_if (p : Z -> bool) (l : list Z) : Z :=
  sum (map (fun _ => 1) (filter p l)).

(** *** dict: association list in insertion order *)

Section Dict.
Context {K V : Type} (eqb : K -> K -> bool).

Definition dict := list (K * V).

(** [d.get(k)] *)
Fixpoint get (k : K) (d : dict) : option V :=
  match d with
  | [] => None
  | (k', v) :: d' => if eqb k' k then Some v else get k d'
  end.

(** [k in d] *)
Definition mem (k : K) (d : dict) : bool :=
  match get k d with Some _ => true | None => false end.

(** [d[k]] *)
Definition getitem (k : K) (d : dict) : result V :=
  match get k d with Some v => Ok v | None => Raise KeyError end.

(** [d[k] = v]: an existing key keeps its place, a new key goes last. *)
Fixpoint set (k : K) (v : V) (d : dict) : dict :=
  match d with
  | [] => [(k, v)]
  | (k', v') :: d' =>
      if eqb k' k then (k', v) :: d' else (k', v') :: set k v d'
  end.

Definition keys (d : dict) : list K := map fst d.
Definition values (d : dict) : list V := map snd d.
End Dict.

(** *** sorted: a stable sort

    [sorted] is stable, also with [reverse=True]: elements whose keys
    compare equal keep their input order.  A stable sort has one
    possible output, so insertion from the right stands for it.
    [before x y] says that [x] may stay in front of [y]. *)

Section Sorted.
Context {A : Type} (before : A -> A -> bool).

Fixpoint insert (x : A) (l : list A) : list A :=
  match l with
  | [] => [x]
  | y :: l' => if before x y then x :: l else y :: insert x l'
  end.

Definition sorted (l : list A) : list A := fold_right insert [] l.
End Sorted.

(** [l[:k]] for [k >= 0]. *)
Definition slice_to {A} (k : nat) (l : list A) : list A := firstn k l.

End Py.

Import Py.

Notation "x <- r ;; k" := (rbind r (fun x => k))
  (at level 61, r at next level, right associativity).

(** ** Console and commands *)

Inductive Grade := Excellent | Good | Acceptable | Poor.

Inductive Echo :=
| EchoHeader
| EchoProgress (n : Z)
| EchoNoValid
| EchoBasic (total_sequences total_length : Z) (mean_length : Q)
            (min_length max_length : Z) (gc_content : Q)
| EchoLengthHeader
| EchoLength (length count : Z) (percentage : Q)
| EchoQuality (total_sequences total_bases : Z) (mean_quality_all : Q)
              (min_quality_all max_quality_all : Z)
              (q20_percentage q30_percentage : Q)
| EchoGrade (g : Grade) (color : string)
| EchoThresholds.

Definition Console := list Echo.

(** A command runs on a console and either returns or raises; what it
    echoed before raising stays on the console. *)
Definition Cmd (A : Type) := Console -> result A * Console.

Definition ret {A} (a : A) : Cmd A := fun out => (Ok a, out).

Definition bind {A B} (m : Cmd A) (k : A -> Cmd B) : Cmd B :=
  fun out =>
    match m out with
    | (Ok a, out') => k a out'
    | (Raise e, out') => (Raise e, out')
    end.

Definition echo (e : Echo) : Cmd unit := fun out => (Ok tt, out ++ [e]).

Definition lift {A} (r : result A) : Cmd A := fun out => (r, out).

Notation "x <~ m ;; k" := (bind m (fun x => k))
  (at level 61, m at next level, right associativity).
Notation "m ;;; k" := (bind m (fun _ => k))
  (at level 61, right associativity).

(** [for r in rs: s = body(s, r)] *)
Fixpoint for_each {S R} (body : S -> R -> Cmd S) (rs : list R) (s : S)
  : Cmd S :=
  match rs with
  | [] => ret s
  | r :: rs' => s' <~ body s r ;; for_each body rs' s'
  end.

(** ** run_fastq_click.py *)

Module Click.

(** The dict returned by [calculate_basic_stats]; during the loop it
    holds the five local accumulators. *)
Record BasicStats := mkBasicStats {
  total_sequences : Z;
  total_length : Z;
  sequence_lengths : list Z;
  gc_count : Z;
  total_bases : Z
}.

Definition basic_init : BasicStats := mkBasicStats 0 0 [] 0 0.

(** Body of the loop of [calculate_basic_stats] (lines 23-36). *)
Definition basic_body (st : BasicStats) (record : FastqRecord)
  : Cmd BasicStats :=
  let total_sequences := total_sequences st + 1 in
  let seq_len := slen (sequence record) in
  let total_length := total_length st + seq_len in
  let sequence_lengths := sequence_lengths st ++ [seq_len] in
  let seq_upper := upper (sequence record) in
  let gc_count :=
    gc_count st + (count "G"%char seq_upper + count "C"%char seq_upper) in
  let total_bases := total_bases st + seq_len in
  (if total_sequences mod 10000 =? 0
   then echo (EchoProgress total_sequences) else ret tt) ;;;
  ret (mkBasicStats total_sequences total_length sequence_lengths
         gc_count total_bases).

Definition calculate_basic_stats (rs : list FastqRecord) : Cmd BasicStats :=
  for_each basic_body rs basic_init.

(** [length_counts] of [stats] (lines 98-100). *)
Definition count_length (length_counts : dict (K:=Z) (V:=Z)) (length : Z) :=
  set Z.eqb length
    (match get Z.eqb length length_counts with
     | Some c => c
     | None => 0
     end + 1) length_counts.

Definition length_counts (sequence_lengths : list Z) : dict :=
  fold_left count_length sequence_lengths [].

(** [sorted(length_counts.items(), key=lambda x: x[1], reverse=True)[:10]] *)
Definition by_count_desc (x y : Z * Z) : bool := snd y <=? snd x.

Definition sorted_lengths (sequence_lengths : list Z) : list (Z * Z) :=
  slice_to 10 (sorted by_count_desc (length_counts sequence_lengths)).

(** One line of the distribution: [(length, count, percentage)]. *)
Definition length_line (total_sequences : Z) (acc : list (Z * Z * Q))
  (item : Z * Z) : Cmd (list (Z * Z * Q)) :=
  let '(length, count) := item in
  q <~ lift (truediv count total_sequences) ;;
  let percentage := (q * 100)%Q in
  echo (EchoLength length count percentage) ;;;
  ret (acc ++ [(length, count, percentage)]).

(** The locals that [stats] prints. *)
Record StatsReport := mkStatsReport {
  rep_total_sequences : Z;
  rep_total_length : Z;
  mean_length : Q;
  min_length : Z;
  max_length : Z;
  gc_content : Q;
  distribution : list (Z * Z * Q)
}.

(** The [try] block of [stats] (lines 68-106), with the header echoed
    before it.  [None] is the early return on an empty file.  A raised
    exception stands for the [ClickException] that wraps it. *)
Definition stats (detailed : bool) (rs : list FastqRecord)
  : Cmd (option StatsReport) :=
  echo EchoHeader ;;;
  stats_data <~ calculate_basic_stats rs ;;
  if total_sequences stats_data =? 0 then
    echo EchoNoValid ;;; ret None
  else
    let total_sequences := total_sequences stats_data in
    let total_length := total_length stats_data in
    let sequence_lengths := sequence_lengths stats_data in
    let gc_count := gc_count stats_data in
    let total_bases := total_bases stats_data in
    mean_length <~ lift (truediv total_length total_sequences) ;;
    min_length <~ lift (min sequence_lengths) ;;
    max_length <~ lift (max sequence_lengths) ;;
    gc_content <~
      (if total_bases >? 0
       then q <~ lift (truediv gc_count total_bases) ;; ret (q * 100)%Q
       else ret 0%Q) ;;
    echo (EchoBasic total_sequences total_length mean_length
            min_length max_length gc_content) ;;;
    distribution <~
      (if detailed
       then echo EchoLengthHeader ;;;
            for_each (length_line total_sequences)
              (sorted_lengths sequence_lengths) []
       else ret []) ;;
    ret (Some (mkStatsReport total_sequences total_length mean_length
                 min_length max_length gc_content distribution)).

(** The per-read dict [seq_quality] of [quality] (lines 179-186); the
    values are evaluated in the order they are written. *)
Record SeqQuality := mkSeqQuality {
  mean_quality : Q;
  min_quality : Z;
  max_quality : Z;
  q20_count : Z;
  q30_count : Z;
  length_ : Z
}.

Definition seq_quality (qual_scores : list Z) : result SeqQuality :=
  mean_quality <- truediv (sum qual_scores) (len qual_scores) ;;
  min_quality <- min qual_scores ;;
  max_quality <- max qual_scores ;;
  Ok (mkSeqQuality mean_quality min_quality max_quality
        (count_if (fun q => 20 <=? q) qual_scores)
        (count_if (fun q => 30 <=? q) qual_scores)
        (len qual_scores)).

(** Body of the loop of [quality] (lines 175-191); the state is
    [(total_sequences, quality_stats)]. *)
Definition quality_body (st : Z * list SeqQuality) (record : FastqRecord)
  : Cmd (Z * list SeqQuality) :=
  let total_sequences := fst st + 1 in
  let qual_scores := quality record in
  sq <~ lift (seq_quality qual_scores) ;;
  let quality_stats := snd st ++ [sq] in
  (if total_sequences mod 10000 =? 0
   then echo (EchoProgress total_sequences) else ret tt) ;;;
  ret (total_sequences, quality_stats).

(** Lines 219-230.  The labels of the source are
    Excellent = "Отличное", Good = "Хорошее",
    Acceptable = "Удовлетворительное", Poor = "Плохое". *)
Definition quality_grade (q20_percentage q30_percentage : Q) : Grade :=
  if Qle_bool 80 q30_percentage then Excellent
  else if Qle_bool 60 q30_percentage then Good
  else if Qle_bool 80 q20_percentage then Acceptable
  else Poor.

Definition grade_color (g : Grade) : string :=
  match g with
  | Excellent => "green"
  | Good => "blue"
  | Acceptable => "yellow"
  | Poor => "red"
  end.

(** The locals that [quality] prints. *)
Record QualityReport := mkQualityReport {
  q_total_sequences : Z;
  q_total_bases : Z;
  mean_quality_all : Q;
  min_quality_all : Z;
  max_quality_all : Z;
  q20_percentage : Q;
  q30_percentage : Q;
  grade : Grade
}.

(** The [try] block of [quality] (lines 172-240), with the header. *)
Definition quality (thresholds : bool) (rs : list FastqRecord)
  : Cmd (option QualityReport) :=
  echo EchoHeader ;;;
  st <~ for_each quality_body rs (0, []) ;;
  let '(total_sequences, quality_stats) := st in
  if total_sequences =? 0 then
    echo EchoNoValid ;;; ret None
  else
    let total_bases := sum (map length_ quality_stats) in
    let total_q20 := sum (map q20_count quality_stats) in
    let total_q30 := sum (map q30_count quality_stats) in
    mean_quality_all <~
      lift (truedivQ (sumQ (map mean_quality quality_stats))
              total_sequences) ;;
    min_quality_all <~ lift (min (map min_quality quality_stats)) ;;
    max_quality_all <~ lift (max (map max_quality quality_stats)) ;;
    q20 <~ lift (truediv total_q20 total_bases) ;;
    let q20_percentage := (q20 * 100)%Q in
    q30 <~ lift (truediv total_q30 total_bases) ;;
    let q30_percentage := (q30 * 100)%Q in
    echo (EchoQuality total_sequences total_bases mean_quality_all
            min_quality_all max_quality_all
            q20_percentage q30_percentage) ;;;
    let grade := quality_grade q20_percentage q30_percentage in
    echo (EchoGrade grade (grade_color grade)) ;;;
    (if thresholds then echo EchoThresholds else ret tt) ;;;
    ret (Some (mkQualityReport total_sequences total_bases
                 mean_quality_all min_quality_all max_quality_all
                 q20_percentage q30_percentage grade)).

End Click.

(** ** run_fastq_argparse.py *)

Module Argparse.

Import Click.

(** The [try] block of [stats_command] (lines 30-75), with the header.
    The loop (lines 32-45) has the statements of
    [Click.calculate_basic_stats], with [print] for [click.echo]; the
    length distribution is always printed.  A raised exception stands
    for the error message followed by [sys.exit(1)]. *)
Definition stats_command (rs : list FastqRecord)
  : Cmd (option StatsReport) :=
  echo EchoHeader ;;;
  st <~ for_each basic_body rs basic_init ;;
  let total_sequences := total_sequences st in
  let total_length := total_length st in
  let sequence_lengths := sequence_lengths st in
  let gc_count := gc_count st in
  let total_bases := total_bases st in
  if total_sequences =? 0 then
    echo EchoNoValid ;;; ret None
  else
    mean_length <~ lift (truediv total_length total_sequences) ;;
    min_length <~ lift (min sequence_lengths) ;;
    max_length <~ lift (max sequence_lengths) ;;
    gc_content <~
      (if total_bases >? 0
       then q <~ lift (truediv gc_count total_bases) ;; ret (q * 100)%Q
       else ret 0%Q) ;;
    echo (EchoBasic total_sequences total_length mean_length
            min_length max_length gc_content) ;;;
    echo EchoLengthHeader ;;;
    distribution <~
      for_each (length_line total_sequences)
        (sorted_lengths sequence_lengths) [] ;;
    ret (Some (mkStatsReport total_sequences total_length mean_length
                 min_length max_length gc_content distribution)).

(** The locals that [quality_command] prints (it assigns no grade). *)
Record QualityReport := mkQualityReport {
  q_total_sequences : Z;
  q_total_bases : Z;
  mean_quality_all : Q;
  min_quality_all : Z;
  max_quality_all : Z;
  q20_percentage : Q;
  q30_percentage : Q
}.

(** The [try] block of [quality_command] (lines 126-168), with the
    header; the loop body (lines 129-144) has the statements of
    [Click.quality_body]. *)
Definition quality_command (rs : list FastqRecord)
  : Cmd (option QualityReport) :=
  echo EchoHeader ;;;
  st <~ for_each quality_body rs (0, []) ;;
  let '(total_sequences, quality_stats) := st in
  if total_sequences =? 0 then
    echo EchoNoValid ;;; ret None
  else
    let total_bases := sum (map length_ quality_stats) in
    let total_q20 := sum (map q20_count quality_stats) in
    let total_q30 := sum (map q30_count quality_stats) in
    mean_quality_all <~
      lift (truedivQ (sumQ (map mean_quality quality_stats))
              total_sequences) ;;
    min_quality_all <~ lift (min (map min_quality quality_stats)) ;;
    max_quality_all <~ lift (max (map max_quality quality_stats)) ;;
    q20 <~ lift (truediv total_q20 total_bases) ;;
    let q20_percentage := (q20 * 100)%Q in
    q30 <~ lift (truediv total_q30 total_bases) ;;
    let q30_percentage := (q30 * 100)%Q in
    echo (EchoQuality total_sequences total_bases mean_quality_all
            min_quality_all max_quality_all
            q20_percentage q30_percentage) ;;;
    ret (Some (mkQualityReport total_sequences total_bases
                 mean_quality_all min_quality_all max_quality_all
                 q20_percentage q30_percentage)).

End Argparse.

(** ** fastqc_gui.py

    The [FastqReader] of this file fabricates its records; [run_analysis]
    is modelled on the records that [reader.read()] yields.  Widgets and
    figures are not modelled: a plot is the data handed to it. *)

Module Gui.

(** [for x in xs: s = body(s, x)] where the body may raise. *)
Fixpoint rfor_each {S X} (body : S -> X -> result S) (xs : list X) (s : S)
  : result S :=
  match xs with
  | [] => Ok s
  | x :: xs' => s' <- body s x ;; rfor_each body xs' s'
  end.

(** [[f(x) for x in xs]] where [f] may raise. *)
Fixpoint rmap {X Y} (f : X -> result Y) (xs : list X) : result (list Y) :=
  match xs with
  | [] => Ok []
  | x :: xs' => y <- f x ;; ys <- rmap f xs' ;; Ok (y :: ys)
  end.

(** [enumerate(xs)] *)
Definition enumerate {X} (xs : list X) : list (nat * X) :=
  combine (seq 0 (List.length xs)) xs.

(** [c in s] for a one-character [c]. *)
Fixpoint in_str (c : ascii) (s : string) : bool :=
  match s with
  | EmptyString => false
  | String d s' => orb (Ascii.eqb d c) (in_str c s')
  end.

Definition QualityData := dict (K:=nat) (V:=list Z).
Definition BaseCounts := dict (K:=ascii) (V:=Z).
Definition ContentData := dict (K:=nat) (V:=BaseCounts).

(** The local accumulators of [run_analysis] (lines 115-119). *)
Record Acc := mkAcc {
  sequence_lengths : list Z;
  quality_per_position : QualityData;
  base_content_per_position : ContentData;
  total_sequences : Z;
  total_length : Z
}.

Definition acc_init : Acc := mkAcc [] [] [] 0 0.

(** Lines 134-135. *)
Definition add_quality (quality_per_position : QualityData)
  (iq : nat * Z) : result QualityData :=
  let '(i, q) := iq in
  let quality_per_position :=
    if negb (mem Nat.eqb i quality_per_position)
    then set Nat.eqb i [] quality_per_position
    else quality_per_position in
  l <- getitem Nat.eqb i quality_per_position ;;
  Ok (set Nat.eqb i (l ++ [q]) quality_per_position).

Definition zero_counts : BaseCounts :=
  [("A"%char, 0); ("T"%char, 0); ("G"%char, 0); ("C"%char, 0)].

(** Lines 138-139. *)
Definition add_base (base_content_per_position : ContentData)
  (ib : nat * ascii) : result ContentData :=
  let '(i, base) := ib in
  let base_content_per_position :=
    if negb (mem Nat.eqb i base_content_per_position)
    then set Nat.eqb i zero_counts base_content_per_position
    else base_content_per_position in
  if in_str base "ATGC" then
    d <- getitem Nat.eqb i base_content_per_position ;;
    c <- getitem Ascii.eqb base d ;;
    Ok (set Nat.eqb i (set Ascii.eqb base (c + 1) d)
          base_content_per_position)
  else Ok base_content_per_position.

(** Body of the loop of [run_analysis] (lines 126-139). *)
Definition analysis_body (a : Acc) (record : FastqRecord) : result Acc :=
  let seq := sequence record in
  let qual := quality record in
  let seq_len := slen seq in
  let total_sequences := total_sequences a + 1 in
  let total_length := total_length a + seq_len in
  let sequence_lengths := sequence_lengths a ++ [seq_len] in
  quality_per_position <-
    rfor_each add_quality (enumerate qual) (quality_per_position a) ;;
  base_content_per_position <-
    rfor_each add_base (enumerate (list_ascii_of_string seq))
      (base_content_per_position a) ;;
  Ok (mkAcc sequence_lengths quality_per_position
        base_content_per_position total_sequences total_length).

Definition ingest (rs : list FastqRecord) : result Acc :=
  rfor_each analysis_body rs acc_init.

(** [draw_quality_plot]: the plotted series, [None] when nothing is
    plotted. *)
Definition mean_at (quality_data : QualityData) (p : nat) : result Q :=
  l <- getitem Nat.eqb p quality_data ;;
  truediv (sum l) (len l).

Definition draw_quality_plot (quality_data : QualityData)
  : result (option (list nat * list Q)) :=
  match quality_data with
  | [] => Ok None
  | _ =>
      let positions := sorted Nat.leb (keys quality_data) in
      mean_qualities <- rmap (mean_at quality_data) positions ;;
      Ok (Some (positions, mean_qualities))
  end.

(** [draw_content_plot]: one series per base, in the order of
    [colors]. *)
Definition colors : list ascii := ["A"; "T"; "G"; "C"]%char.

(** Lines 238-239. *)
Definition share (content_data : ContentData) (base : ascii) (p : nat)
  : result Q :=
  d <- getitem Nat.eqb p content_data ;;
  let total := sum (values d) in
  if negb (total =? 0) then
    c <- getitem Ascii.eqb base d ;;
    q <- truediv c total ;;
    Ok (q * 100)%Q
  else Ok 0%Q.

Definition draw_content_plot (content_data : ContentData)
  : result (option (list nat * list (ascii * list Q))) :=
  match content_data with
  | [] => Ok None
  | _ =>
      let positions := sorted Nat.leb (keys content_data) in
      series <-
        rmap (fun base =>
                vals <- rmap (share content_data base) positions ;;
                Ok (base, vals)) colors ;;
      Ok (Some (positions, series))
  end.

(** What [run_analysis] shows: the summary text fields and the data of
    the three plots. *)
Record Analysis := mkAnalysis {
  a_total_sequences : Z;
  a_total_length : Z;
  mean_length : Q;
  min_length : Z;
  max_length : Z;
  length_hist : list Z * Z;
  quality_plot : option (list nat * list Q);
  content_plot : option (list nat * list (ascii * list Q))
}.

(** [draw_length_dist]: the data and the number of bins handed to
    [hist]. *)
Definition draw_length_dist (lengths : list Z) : list Z * Z :=
  (lengths, Z.min 50 (len (nodup Z.eq_dec lengths))).

(** The [try] block of [run_analysis] (lines 107-161); [None] is the
    return on an empty file.  A raised exception stands for the error
    box of the [except] clause. *)
Definition run_analysis (rs : list FastqRecord) : result (option Analysis) :=
  a <- ingest rs ;;
  if total_sequences a =? 0 then Ok None
  else
    mean_length <- truediv (total_length a) (total_sequences a) ;;
    min_length <- min (sequence_lengths a) ;;
    max_length <- max (sequence_lengths a) ;;
    let length_hist := draw_length_dist (sequence_lengths a) in
    quality_plot <- draw_quality_plot (quality_per_position a) ;;
    content_plot <- draw_content_plot (base_content_per_position a) ;;
    Ok (Some (mkAnalysis (total_sequences a) (total_length a) mean_length
                min_length max_length length_hist
                quality_plot content_plot)).

End Gui.

(** ** The plots commands

    [analyze_fastq] is imported from a module that is not part of these
    files: it is a parameter, a command that is handed the file (here the
    records) and may echo or raise.  The three lines that only the plots
    commands echo (the processed count, the start and the success
    message) are parameters as well. *)

Module Plots.

Section WithAnalyzer.
Variable analyze_fastq : list FastqRecord -> Cmd unit.
Variable processed : Z -> Echo.
Variables building built : Echo.

(** [plots] of run_fastq_click.py: the header and the [try] block (lines
    128-143). *)
Definition plots (rs : list FastqRecord) : Cmd unit :=
  echo EchoHeader ;;;
  stats_data <~ Click.calculate_basic_stats rs ;;
  if Click.total_sequences stats_data =? 0 then
    echo EchoNoValid ;;; ret tt
  else
    echo (processed (Click.total_sequences stats_data)) ;;;
    echo building ;;;
    analyze_fastq rs ;;;
    echo built.

(** [plots_command] of run_fastq_argparse.py: the header and the [try]
    block (lines 95-100). *)
Definition plots_command (rs : list FastqRecord) : Cmd unit :=
  echo EchoHeader ;;;
  analyze_fastq rs ;;;
  echo built.
End WithAnalyzer.

End Plots.

(** ** fastqc_gui.py: the stand-in reader *)

Module FastqReader.

(** [read] (lines 26-31) draws its records with [random]: one run yields
    100 records; a sequence has 100 to 150 symbols ([random.randint]
    includes both bounds), each drawn from "ATGC" ([random.choices]), and
    there is one quality score from 20 to 40 for every symbol.  The draws
    are modelled by the set of the streams that a run can yield. *)
Definition may_draw_sequence (seq : string) : bool :=
  (100 <=? slen seq) && (slen seq <=? 150)
  && forallb (fun c => Gui.in_str c "ATGC") (list_ascii_of_string seq).

Definition may_draw_quality (seq : string) (qual : list Z) : bool :=
  (len qual =? slen seq)
  && forallb (fun q => (20 <=? q) && (q <=? 40)) qual.

Definition may_yield (record : FastqRecord) : bool :=
  may_draw_sequence (sequence record)
  && may_draw_quality (sequence record) (quality record).

Definition read (rs : list FastqRecord) : bool :=
  (len rs =? 100) && forallb may_yield rs.

End FastqReader.

(** ** Vocabulary of the statements *)

(** The read lengths of a stream, in arrival order. *)
Definition lengths (rs : list FastqRecord) : list Z :=
  map (fun r => slen (sequence r)) rs.

(** The G and C symbols of one sequence, counted as the loops count them. *)
Definition gc_of (s : string) : Z :=
  count "G"%char (upper s) + count "C"%char (upper s).

Definition gc_total (rs : list FastqRecord) : Z :=
  sum (map (fun r => gc_of (sequence r)) rs).

(** [writes m r w]: on every console, [m] ends with [r] after appending
    exactly [w]; it never reads what was there before. *)
Definition writes {A} (m : Cmd A) (r : result A) (w : Console) : Prop :=
  forall out, m out = (r, out ++ w).

(** [count / total * 100] as the commands compute it. *)
Definition percent (count total : Z) : Q :=
  (inject_Z count / inject_Z total * 100)%Q.

(** The GC percentage that [stats] reports for a stream. *)
Definition gc_content_of (rs : list FastqRecord) : Q :=
  if sum (lengths rs) >? 0
  then percent (gc_total rs) (sum (lengths rs)) else 0%Q.

(** The lines of the length distribution of a stream. *)
Definition distribution_of (rs : list FastqRecord) : list (Z * Z * Q) :=
  map (fun item => (fst item, snd item, percent (snd item) (len rs)))
    (Click.sorted_lengths (lengths rs)).

(** Totals over the quality strings of a stream. *)
Definition bases (rs : list FastqRecord) : Z :=
  sum (map (fun r => len (quality r)) rs).

Definition q20_total (rs : list FastqRecord) : Z :=
  sum (map (fun r => count_if (fun q => 20 <=? q) (quality r)) rs).

Definition q30_total (rs : list FastqRecord) : Z :=
  sum (map (fun r => count_if (fun q => 30 <=? q) (quality r)) rs).


(** How often [x] occurs in [l], and the distinct elements of [l] in the
    order of their first occurrence. *)
Definition occurrences (x : Z) (l : list Z) : Z := count_if (Z.eqb x) l.

Fixpoint first_occurrences (l : list Z) : list Z :=
  match l with
  | [] => []
  | x :: l' => x :: filter (fun y => negb (y =? x)) (first_occurrences l')
  end.

(** Each distinct length with its number of occurrences, in the order of
    first occurrence. *)
Definition counted (l : list Z) : list (Z * Z) :=
  map (fun x => (x, occurrences x l)) (first_occurrences l).

(** The quality scores, and the bases, that a stream shows at position
    [p], in arrival order; a read shorter than [p + 1] shows nothing. *)
Definition cell {X} (l : list X) (p : nat) : list X :=
  match nth_error l p with
  | Some x => [x]
  | None => []
  end.

Definition qcolumn (p : nat) (rs : list FastqRecord) : list Z :=
  flat_map (fun r => cell (quality r) p) rs.

Definition bcolumn (p : nat) (rs : list FastqRecord) : list ascii :=
  flat_map (fun r => cell (list_ascii_of_string (sequence r)) p) rs.

(** A position is a key of the position dicts once something was seen
    there. *)
Definition seen {X V} (value : list X -> V) (col : list X) : option V :=
  match col with
  | [] => None
  | _ => Some (value col)
  end.

(** The four counters of a column of bases. *)
Definition occ (b : ascii) (col : list ascii) : Z :=
  len (filter (Ascii.eqb b) col).

Definition counts_of (col : list ascii) : Gui.BaseCounts :=
  [("A"%char, occ "A" col); ("T"%char, occ "T" col);
   ("G"%char, occ "G" col); ("C"%char, occ "C" col)].

(** The number of A, T, G and C in a column: the denominator of the
    shares. *)
Definition atgc (col : list ascii) : Z :=
  occ "A" col + occ "T" col + occ "G" col + occ "C" col.

Definition is_atgc (b : ascii) : bool := Gui.in_str b "ATGC".

(** The raw values held by a position dict of lists. *)
Definition stored_values (d : Gui.QualityData) : Z :=
  sum (map (fun kv => len (snd kv)) d).

(** The number of distinct read lengths and the greatest read length. *)
Definition distinct_lengths (rs : list FastqRecord) : Z :=
  len (nodup Z.eq_dec (lengths rs)).

Definition greatest_length (rs : list FastqRecord) : Z :=
  fold_left Z.max (lengths rs) 0.

(** [d.get(k, default)] on an already looked-up entry. *)
Definition or_default {V} (o : option V) (default : V) : V :=
  match o with
  | Some v => v
  | None => default
  end.

(** The element that [enumerate], started at [n], pairs with index [j]. *)
Definition at_offset {X} (l : list X) (n j : nat) : option X :=
  if Nat.leb n j then nth_error l (j - n) else None.

(** Every value of a position dict satisfies [P]. *)
Definition values_ok {V} (P : V -> Prop) (d : dict (K:=nat) (V:=V)) : Prop :=
  forall j v, get Nat.eqb j d = Some v -> P v.

(** A dict of base counters has exactly the keys A, T, G, C, in this
    order. *)
Definition four_keys (v : Gui.BaseCounts) : Prop :=
  exists a t g c,
    v = [("A"%char, a); ("T"%char, t); ("G"%char, g); ("C"%char, c)].

(** The effect of lines 138-139 on the counters of one position. *)
Definition bump (b : ascii) (v : Gui.BaseCounts) : Gui.BaseCounts :=
  if is_atgc b
  then set Ascii.eqb b (or_default (get Ascii.eqb b v) 0 + 1) v
  else v.

(** ** Vocabulary of the further properties *)

(** All base scores of a stream, and the mean score of one read. *)
Definition scores (rs : list FastqRecord) : list Z := flat_map quality rs.


(** The grades from worst to best. *)
Definition grade_rank (g : Grade) : Z :=
  match g with
  | Poor => 0
  | Acceptable => 1
  | Good => 2
  | Excellent => 3
  end.

(** The lines echoed while the records [done + 1], ..., [done + n] are
    counted, and one progress line per full batch of 10000 records. *)
Fixpoint progress_lines (done : Z) (n : nat) : Console :=
  match n with
  | O => []
  | S n' =>
      (if (done + 1) mod 10000 =? 0 then [EchoProgress (done + 1)] else [])
      ++ progress_lines (done + 1) n'
  end.

Definition progress_marks (n : Z) : Console :=
  map (fun k => EchoProgress (10000 * Z.of_nat k))
    (seq 1 (Z.to_nat (n / 10000))).

(** The six basic values of a stats report. *)
Definition basic_values (rep : Click.StatsReport) : Z * Z * Q * Z * Z * Q :=
  (Click.rep_total_sequences rep, Click.rep_total_length rep,
   Click.mean_length rep, Click.min_length rep, Click.max_length rep,
   Click.gc_content rep).

(** All symbols of a stream, and the symbols that count as G or C. *)
Definition symbols (rs : list FastqRecord) : list ascii :=
  flat_map (fun r => list_ascii_of_string (sequence r)) rs.

Definition is_gc (c : ascii) : bool :=
  orb (orb (Ascii.eqb c "G") (Ascii.eqb c "g"))
      (orb (Ascii.eqb c "C") (Ascii.eqb c "c")).

(** A stream with eleven distinct read lengths, the first of them
    occurring twice. *)
Definition long_stream : list FastqRecord :=
  map (fun s => mkRecord s [])
    ["A"; "AA"; "AAA"; "AAAA"; "AAAAA"; "AAAAAA"; "AAAAAAA";
     "AAAAAAAA"; "AAAAAAAAA"; "AAAAAAAAAA"; "AAAAAAAAAAA"; "A"]%string.

(** The greatest number of quality scores, and of symbols, of a read. *)
Definition longest_quality (rs : list FastqRecord) : nat :=
  fold_right Nat.max 0%nat (map (fun r => List.length (quality r)) rs).

Definition longest_sequence (rs : list FastqRecord) : nat :=
  fold_right Nat.max 0%nat
    (map (fun r => List.length (list_ascii_of_string (sequence r))) rs).

(** The mean of the scores that a stream shows at position [p], and the
    share of base [b] among the A, T, G, C of a column. *)
Definition column_mean (rs : list FastqRecord) (p : nat) : Q :=
  (inject_Z (sum (qcolumn p rs)) / inject_Z (len (qcolumn p rs)))%Q.

Definition share_of (b : ascii) (col : list ascii) : Q :=
  if atgc col =? 0 then 0%Q else percent (occ b col) (atgc col).

(** The greatest finite binary64 value, [sys.float_info.max]; it is an
    integer.  [int / int] raises [OverflowError] only when the magnitude
    of the quotient exceeds it, which cannot happen for a mean of integers
    that are themselves within this range. *)
Definition float_max : Z := 2 ^ 1024 - 2 ^ 971.

Definition within_float_range (q : Z) : bool := Z.abs q <=? float_max.

(** A stream that the stand-in reader of the GUI can yield: 100 reads of
    100 times the same symbol, with the same score everywhere. *)
Definition uniform_stream (c : ascii) (q : Z) : list FastqRecord :=
  repeat (mkRecord (string_of_list_ascii (repeat c 100)) (repeat q 100)) 100.

(** ** Python primitives: basic facts *)

Lemma fold_add_acc (l : list Z) (a : Z) : fold_left Z.add l a = a + sum l.
Proof.
  unfold sum. revert a.
  induction l as [|x l IH]; intros a; simpl; [lia|].
  rewrite (IH (a + x)), (IH x). lia.
Qed.

Lemma sum_cons (x : Z) (l : list Z) : sum (x :: l) = x + sum l.
Proof. unfold sum at 1. simpl. apply fold_add_acc. Qed.

Lemma sum_app (l1 l2 : list Z) : sum (l1 ++ l2) = sum l1 + sum l2.
Proof.
  induction l1 as [|x l1 IH]; simpl; [reflexivity|].
  rewrite !sum_cons, IH. lia.
Qed.

Lemma len_cons {A} (x : A) (l : list A) : len (x :: l) = 1 + len l.
Proof. unfold len. simpl List.length. lia. Qed.

Lemma len_nonneg {A} (l : list A) : 0 <= len l.
Proof. unfold len. lia. Qed.

Lemma len_pos {A} (l : list A) : l <> [] -> 0 < len l.
Proof. destruct l; [congruence|]. intros _. rewrite len_cons. pose proof (len_nonneg l). lia. Qed.

Lemma sum_nonneg (l : list Z) : Forall (fun x => 0 <= x) l -> 0 <= sum l.
Proof.
  induction 1 as [|x l Hx _ IH]; [reflexivity|].
  rewrite sum_cons. lia.
Qed.

Lemma fold_min_spec (l : list Z) (a : Z) :
  let m := fold_left Z.min l a in
  In m (a :: l) /\ Forall (fun x => m <= x) (a :: l).
Proof.
  revert a. induction l as [|x l IH]; intros a; simpl.
  - split; [auto|]. repeat constructor. lia.
  - destruct (IH (Z.min a x)) as [Hin Hall]. simpl in Hin.
    inversion Hall as [|? ? Hm Hl]; subst.
    split.
    + destruct Hin as [Hin|Hin]; [|auto].
      destruct (Z.min_spec a x) as [[_ E]|[_ E]];
        [left|right; left]; congruence.
    + constructor; [lia|]. constructor; [lia|assumption].
Qed.

Lemma fold_max_spec (l : list Z) (a : Z) :
  let m := fold_left Z.max l a in
  In m (a :: l) /\ Forall (fun x => x <= m) (a :: l).
Proof.
  revert a. induction l as [|x l IH]; intros a; simpl.
  - split; [auto|]. repeat constructor. lia.
  - destruct (IH (Z.max a x)) as [Hin Hall]. simpl in Hin.
    inversion Hall as [|? ? Hm Hl]; subst.
    split.
    + destruct Hin as [Hin|Hin]; [|auto].
      destruct (Z.max_spec a x) as [[_ E]|[_ E]];
        [right; left|left]; congruence.
    + constructor; [lia|]. constructor; [lia|assumption].
Qed.

Lemma min_spec (l : list Z) :
  l <> [] ->
  exists m, min l = Ok m /\ In m l /\ Forall (fun x => m <= x) l.
Proof.
  destruct l as [|a l]; [congruence|]. intros _.
  exists (fold_left Z.min l a). split; [reflexivity|]. apply fold_min_spec.
Qed.

Lemma max_spec (l : list Z) :
  l <> [] ->
  exists m, max l = Ok m /\ In m l /\ Forall (fun x => x <= m) l.
Proof.
  destruct l as [|a l]; [congruence|]. intros _.
  exists (fold_left Z.max l a). split; [reflexivity|]. apply fold_max_spec.
Qed.

Lemma truediv_ok (a b : Z) :
  b <> 0 -> truediv a b = Ok (inject_Z a / inject_Z b)%Q.
Proof. intros H. unfold truediv. destruct (Z.eqb_spec b 0); congruence. Qed.

Lemma count_two_bounds (c d : ascii) (s : string) :
  c <> d -> 0 <= count c s + count d s <= slen s.
Proof.
  intros Hcd. unfold slen.
  induction s as [|e s IH]; simpl String.length; simpl count; [lia|].
  destruct (Ascii.eqb_spec e c), (Ascii.eqb_spec e d); subst; try congruence; lia.
Qed.

Lemma upper_length (s : string) : String.length (upper s) = String.length s.
Proof. induction s; simpl; congruence. Qed.

Lemma gc_of_bounds (s : string) : 0 <= gc_of s <= slen s.
Proof.
  unfold gc_of.
  assert (H : "G"%char <> "C"%char) by discriminate.
  pose proof (count_two_bounds "G" "C" (upper s) H) as B.
  unfold slen in *. rewrite upper_length in B. exact B.
Qed.

Lemma gc_total_bounds (rs : list FastqRecord) :
  0 <= gc_total rs <= sum (lengths rs).
Proof.
  unfold gc_total, lengths.
  induction rs as [|r rs IH]; simpl; [cbv; split; discriminate|].
  rewrite !sum_cons. pose proof (gc_of_bounds (sequence r)). lia.
Qed.

(** ** Commands as writers *)

Lemma writes_ret {A} (a : A) : writes (ret a) (Ok a) [].
Proof. intros out. unfold ret. now rewrite app_nil_r. Qed.

Lemma writes_echo (e : Echo) : writes (echo e) (Ok tt) [e].
Proof. intros out. reflexivity. Qed.

Lemma writes_lift {A} (r : result A) : writes (lift r) r [].
Proof. intros out. unfold lift. now rewrite app_nil_r. Qed.

Lemma writes_bind {A B} (m : Cmd A) (k : A -> Cmd B) a w1 r w2 :
  writes m (Ok a) w1 -> writes (k a) r w2 -> writes (bind m k) r (w1 ++ w2).
Proof.
  intros Hm Hk out. unfold bind. rewrite Hm, Hk. now rewrite app_assoc.
Qed.

Lemma writes_bind_raise {A B} (m : Cmd A) (k : A -> Cmd B) e w :
  writes m (Raise e) w -> writes (bind m k) (Raise e) w.
Proof. intros Hm out. unfold bind. now rewrite Hm. Qed.

Lemma writes_progress (n : Z) :
  exists w,
    writes (if n mod 10000 =? 0 then echo (EchoProgress n) else ret tt)
      (Ok tt) w.
Proof.
  destruct (n mod 10000 =? 0); eexists; [apply writes_echo|apply writes_ret].
Qed.

(** ** The basic-statistics loop *)

Lemma basic_body_spec (st : Click.BasicStats) (r : FastqRecord) :
  exists w,
    writes (Click.basic_body st r)
      (Ok (Click.mkBasicStats
             (Click.total_sequences st + 1)
             (Click.total_length st + slen (sequence r))
             (Click.sequence_lengths st ++ [slen (sequence r)])
             (Click.gc_count st + gc_of (sequence r))
             (Click.total_bases st + slen (sequence r)))) w.
Proof.
  unfold Click.basic_body.
  destruct (writes_progress (Click.total_sequences st + 1)) as [w Hw].
  exists (w ++ []). eapply writes_bind; [exact Hw|]. apply writes_ret.
Qed.

Lemma basic_loop_spec (rs : list FastqRecord) (st : Click.BasicStats) :
  exists w,
    writes (for_each Click.basic_body rs st)
      (Ok (Click.mkBasicStats
             (Click.total_sequences st + len rs)
             (Click.total_length st + sum (lengths rs))
             (Click.sequence_lengths st ++ lengths rs)
             (Click.gc_count st + gc_total rs)
             (Click.total_bases st + sum (lengths rs)))) w.
Proof.
  revert st. induction rs as [|r rs IH]; intros st.
  - exists []. simpl for_each.
    replace (Click.mkBasicStats _ _ _ _ _) with st; [apply writes_ret|].
    destruct st; simpl. unfold len, gc_total; simpl.
    rewrite !Z.add_0_r, app_nil_r. reflexivity.
  - destruct (basic_body_spec st r) as [w1 H1].
    match type of H1 with writes _ (Ok ?s) _ => destruct (IH s) as [w2 H2] end.
    exists (w1 ++ w2). simpl for_each.
    eapply writes_bind; [exact H1|].
    simpl in H2. unfold gc_total in *. simpl lengths. simpl map.
    rewrite !sum_cons, len_cons.
    rewrite <- !app_assoc in H2. simpl app in H2.
    rewrite !Z.add_assoc. exact H2.
Qed.

Lemma calculate_basic_stats_spec (rs : list FastqRecord) :
  exists w,
    writes (Click.calculate_basic_stats rs)
      (Ok (Click.mkBasicStats (len rs) (sum (lengths rs)) (lengths rs)
             (gc_total rs) (sum (lengths rs)))) w.
Proof.
  destruct (basic_loop_spec rs Click.basic_init) as [w H].
  exists w. exact H.
Qed.

(** ** The stats command *)

Lemma length_lines_spec (total : Z) (items : list (Z * Z))
  (acc : list (Z * Z * Q)) :
  total <> 0 ->
  exists w,
    writes (for_each (Click.length_line total) items acc)
      (Ok (acc ++ map (fun item =>
                         (fst item, snd item, percent (snd item) total))
                    items)) w.
Proof.
  intros Ht. revert acc.
  induction items as [|[l c] items IH]; intros acc; simpl for_each.
  - exists []. simpl map. rewrite app_nil_r. apply writes_ret.
  - destruct (IH (acc ++ [(l, c, percent c total)])) as [w Hw].
    eexists. eapply writes_bind.
    { unfold Click.length_line.
      eapply writes_bind.
      { rewrite (truediv_ok c total Ht). apply writes_lift. }
      eapply writes_bind; [apply writes_echo|apply writes_ret]. }
    simpl map. rewrite <- app_assoc in Hw. exact Hw.
Qed.

Lemma stats_empty (detailed : bool) :
  writes (Click.stats detailed []) (Ok None) [EchoHeader; EchoNoValid].
Proof.
  intros out.
  unfold Click.stats, Click.calculate_basic_stats, bind, echo, ret. simpl.
  now rewrite <- app_assoc.
Qed.

Lemma lengths_nonnil (rs : list FastqRecord) : rs <> [] -> lengths rs <> [].
Proof. destruct rs; [congruence|discriminate]. Qed.

Lemma len_nonzero {A} (l : list A) : l <> [] -> (len l =? 0) = false.
Proof. intros H. apply len_pos in H. apply Z.eqb_neq. lia. Qed.

Lemma gc_content_writes (rs : list FastqRecord) :
  writes
    (if sum (lengths rs) >? 0
     then q <~ lift (truediv (gc_total rs) (sum (lengths rs))) ;;
          ret (q * 100)%Q
     else ret 0%Q)
    (Ok (gc_content_of rs)) [].
Proof.
  unfold gc_content_of.
  destruct (sum (lengths rs) >? 0) eqn:E; [|apply writes_ret].
  change (@nil Echo) with (@nil Echo ++ []).
  eapply writes_bind; [|apply writes_ret].
  rewrite truediv_ok; [apply writes_lift|].
  apply Z.gtb_lt in E. lia.
Qed.

Lemma stats_spec (detailed : bool) (rs : list FastqRecord) :
  rs <> [] ->
  exists mn mx w,
    min (lengths rs) = Ok mn /\ max (lengths rs) = Ok mx /\
    writes (Click.stats detailed rs)
      (Ok (Some (Click.mkStatsReport (len rs) (sum (lengths rs))
                   (inject_Z (sum (lengths rs)) / inject_Z (len rs))%Q
                   mn mx (gc_content_of rs)
                   (if detailed then distribution_of rs else [])))) w.
Proof.
  intros Hrs.
  destruct (min_spec (lengths rs) (lengths_nonnil rs Hrs)) as [mn [Hmn _]].
  destruct (max_spec (lengths rs) (lengths_nonnil rs Hrs)) as [mx [Hmx _]].
  destruct (calculate_basic_stats_spec rs) as [w0 H0].
  assert (Hlen : len rs <> 0) by (apply len_pos in Hrs; lia).
  destruct (length_lines_spec (len rs) (Click.sorted_lengths (lengths rs)) []
              Hlen) as [wd Hd].
  exists mn, mx.
  destruct detailed; eexists; (split; [exact Hmn|]); (split; [exact Hmx|]);
    unfold Click.stats;
    (eapply writes_bind; [apply writes_echo|]);
    (eapply writes_bind; [exact H0|]);
    cbv beta; simpl Click.total_sequences; simpl Click.total_length;
    simpl Click.sequence_lengths; simpl Click.gc_count;
    simpl Click.total_bases;
    rewrite (len_nonzero rs Hrs);
    (eapply writes_bind;
      [rewrite (truediv_ok _ _ Hlen); apply writes_lift|]);
    (eapply writes_bind; [rewrite Hmn; apply writes_lift|]);
    (eapply writes_bind; [rewrite Hmx; apply writes_lift|]);
    (eapply writes_bind; [apply gc_content_writes|]);
    (eapply writes_bind; [apply writes_echo|]).
  - eapply writes_bind.
    { eapply writes_bind; [apply writes_echo|exact Hd]. }
    apply writes_ret.
  - eapply writes_bind; apply writes_ret.
Qed.

(** [stats_command] of the argparse entry point is [stats --detailed]. *)
Lemma stats_command_eq (rs : list FastqRecord) (out : Console) :
  Argparse.stats_command rs out = Click.stats true rs out.
Proof.
  unfold Argparse.stats_command, Click.stats, Click.calculate_basic_stats.
  unfold bind.
  destruct (echo EchoHeader out) as [[[]|e] out0]; [|reflexivity].
  destruct (for_each Click.basic_body rs Click.basic_init out0)
    as [[st|e] out1]; [|reflexivity].
  destruct (Click.total_sequences st =? 0); [reflexivity|].
  destruct (lift _ out1) as [[q|e] out2]; [|reflexivity].
  destruct (lift _ out2) as [[mn|e] out3]; [|reflexivity].
  destruct (lift _ out3) as [[mx|e] out4]; [|reflexivity].
  match goal with
  | |- context [match ?c out4 with _ => _ end] =>
      destruct (c out4) as [[g|e] out5]; [|reflexivity]
  end.
  destruct (echo _ out5) as [[[]|e] out6]; [|reflexivity].
  destruct (echo EchoLengthHeader out6) as [[[]|e] out7]; [|reflexivity].
  destruct (for_each _ _ _ out7) as [[d|e] out8]; reflexivity.
Qed.

(** ** Percentages *)

Lemma percent_mono (a b c : Z) :
  a <= b -> 0 < c -> (percent a c <= percent b c)%Q.
Proof.
  intros Hab Hc. unfold percent.
  apply Qmult_le_compat_r; [|discriminate].
  unfold Qdiv. apply Qmult_le_compat_r.
  - now rewrite <- Zle_Qle.
  - apply Qinv_le_0_compat. change 0%Q with (inject_Z 0).
    rewrite <- Zle_Qle. lia.
Qed.

Lemma percent_zero (c : Z) : (percent 0 c == 0)%Q.
Proof. unfold percent, Qdiv. change (inject_Z 0) with 0%Q. ring. Qed.

Lemma percent_full (c : Z) : 0 < c -> (percent c c == 100)%Q.
Proof.
  intros Hc. unfold percent. field.
  change 0%Q with (inject_Z 0). rewrite inject_Z_injective. lia.
Qed.

Lemma percent_bounds (a c : Z) :
  0 <= a <= c -> 0 < c -> (0 <= percent a c <= 100)%Q.
Proof.
  intros [H0 H1] Hc. split.
  - rewrite <- (percent_zero c). now apply percent_mono.
  - rewrite <- (percent_full c Hc). now apply percent_mono.
Qed.

Lemma gc_content_of_bounds (rs : list FastqRecord) :
  (0 <= gc_content_of rs <= 100)%Q.
Proof.
  unfold gc_content_of.
  destruct (sum (lengths rs) >? 0) eqn:E.
  - apply Z.gtb_lt in E. apply percent_bounds; [apply gc_total_bounds|lia].
  - split; discriminate.
Qed.

(** ** Basic statistics (C10, C6) *)

(** C10.  After the basic-statistics loop has ingested any finite stream,
    the accumulated [total_bases] equals [total_length]: each is the sum
    of the sequence lengths of all records, whatever symbols the
    sequences contain. *)
Theorem total_bases_eq_total_length :
  forall (rs : list FastqRecord) (out : Console),
  exists st out',
    Click.calculate_basic_stats rs out = (Ok st, out') /\
    Click.total_bases st = Click.total_length st /\
    Click.total_length st = sum (lengths rs).
Proof.
  intros rs out.
  destruct (calculate_basic_stats_spec rs) as [w H].
  eexists. exists (out ++ w). split; [apply H|]. split; reflexivity.
Qed.

(** C6, as stated, fails on the empty stream: [stats] reports that no
    valid sequence was found and returns before any statistic is
    computed, so there is no [mean_length] equal to 0. *)
Lemma stats_empty_stream_reports_nothing :
  Click.stats false [] [] = (Ok None, [EchoHeader; EchoNoValid]) /\
  ~ (exists rep out',
       Click.stats false [] [] = (Ok (Some rep), out') /\
       (Click.mean_length rep == 0)%Q).
Proof.
  split; [reflexivity|].
  intros [rep [out' [H _]]]. discriminate H.
Qed.

(** C6, amended.  For every stream with at least one record, [stats]
    reports: [total_sequences] the number of records; [total_length] the
    sum of the sequence lengths; [mean_length] their quotient;
    [min_length] and [max_length] the least and greatest read length;
    [gc_content] equal to [gc_count / total_bases * 100] when
    [total_bases > 0] and to 0 when [total_bases = 0], hence within
    [0, 100]. *)
Theorem stats_basic_statistics :
  forall (detailed : bool) (rs : list FastqRecord) (out : Console),
    rs <> [] ->
    exists rep out',
      Click.stats detailed rs out = (Ok (Some rep), out') /\
      Click.rep_total_sequences rep = len rs /\
      Click.rep_total_length rep = sum (lengths rs) /\
      Click.mean_length rep
        = (inject_Z (sum (lengths rs)) / inject_Z (len rs))%Q /\
      In (Click.min_length rep) (lengths rs) /\
      Forall (fun x => Click.min_length rep <= x) (lengths rs) /\
      In (Click.max_length rep) (lengths rs) /\
      Forall (fun x => x <= Click.max_length rep) (lengths rs) /\
      Click.gc_content rep
        = (if sum (lengths rs) >? 0
           then (inject_Z (gc_total rs) / inject_Z (sum (lengths rs)) * 100)%Q
           else 0%Q) /\
      (0 <= Click.gc_content rep <= 100)%Q.
Proof.
  intros detailed rs out Hrs.
  destruct (stats_spec detailed rs Hrs) as [mn [mx [w [Hmn [Hmx H]]]]].
  destruct (min_spec (lengths rs) (lengths_nonnil rs Hrs))
    as [mn' [Hmn' [Hin Hle]]].
  destruct (max_spec (lengths rs) (lengths_nonnil rs Hrs))
    as [mx' [Hmx' [Hin' Hge]]].
  assert (mn' = mn) by congruence. assert (mx' = mx) by congruence. subst.
  eexists. exists (out ++ w). split; [apply H|]. simpl.
  repeat (split; [first [reflexivity|assumption]|]).
  apply gc_content_of_bounds.
Qed.

Lemma stats_basic_statistics_witness :
  exists rep out',
    Click.stats true
      [mkRecord "ATGC" [30; 30; 30; 30]; mkRecord "AT" [10; 10];
       mkRecord "GGCC" [40; 40; 20; 20]] []
    = (Ok (Some rep), out') /\
    Click.rep_total_sequences rep = 3 /\
    Click.rep_total_length rep = 10 /\
    Click.mean_length rep = (inject_Z 10 / inject_Z 3)%Q /\
    In (Click.min_length rep) [4; 2; 4] /\
    Forall (fun x => Click.min_length rep <= x) [4; 2; 4] /\
    In (Click.max_length rep) [4; 2; 4] /\
    Forall (fun x => x <= Click.max_length rep) [4; 2; 4] /\
    Click.gc_content rep = (inject_Z 6 / inject_Z 10 * 100)%Q /\
    (0 <= Click.gc_content rep <= 100)%Q.
Proof.
  apply (stats_basic_statistics true
           [mkRecord "ATGC" [30; 30; 30; 30]; mkRecord "AT" [10; 10];
            mkRecord "GGCC" [40; 40; 20; 20]] []).
  discriminate.
Defined.

(** ** The quality command *)

Lemma count_if_cons (p : Z -> bool) (x : Z) (l : list Z) :
  count_if p (x :: l) = (if p x then 1 else 0) + count_if p l.
Proof.
  unfold count_if. simpl filter. destruct (p x); simpl map.
  - now rewrite sum_cons.
  - lia.
Qed.

Lemma count_if_mono (p q : Z -> bool) (l : list Z) :
  (forall x, p x = true -> q x = true) -> count_if p l <= count_if q l.
Proof.
  intros Hpq. induction l as [|x l IH]; [reflexivity|].
  rewrite !count_if_cons. specialize (Hpq x).
  destruct (p x), (q x); first [lia|discriminate (Hpq eq_refl)].
Qed.

Lemma q30_le_q20_count (l : list Z) :
  count_if (fun q => 30 <=? q) l <= count_if (fun q => 20 <=? q) l.
Proof.
  apply count_if_mono. intros x H. apply Z.leb_le in H. apply Z.leb_le. lia.
Qed.

Lemma seq_quality_nil : Click.seq_quality [] = Raise ZeroDivisionError.
Proof. reflexivity. Qed.

Lemma seq_quality_fields (l : list Z) (sq : Click.SeqQuality) :
  Click.seq_quality l = Ok sq ->
  l <> [] /\
  Click.mean_quality sq = (inject_Z (sum l) / inject_Z (len l))%Q /\
  min l = Ok (Click.min_quality sq) /\
  max l = Ok (Click.max_quality sq) /\
  Click.q20_count sq = count_if (fun q => 20 <=? q) l /\
  Click.q30_count sq = count_if (fun q => 30 <=? q) l /\
  Click.length_ sq = len l.
Proof.
  destruct l as [|x l]; [discriminate|]. intros H.
  unfold Click.seq_quality in H.
  rewrite truediv_ok in H by (rewrite len_cons; pose proof (len_nonneg l); lia).
  simpl in H. injection H as <-. simpl.
  repeat (split; [first [reflexivity|discriminate]|]). reflexivity.
Qed.

Lemma seq_quality_ok (l : list Z) :
  l <> [] -> exists sq, Click.seq_quality l = Ok sq.
Proof.
  destruct l as [|x l]; [congruence|]. intros _.
  unfold Click.seq_quality.
  rewrite truediv_ok by (rewrite len_cons; pose proof (len_nonneg l); lia).
  simpl. eexists. reflexivity.
Qed.

Lemma quality_body_ok (st : Z * list Click.SeqQuality) (r : FastqRecord)
  (sq : Click.SeqQuality) :
  Click.seq_quality (quality r) = Ok sq ->
  exists w,
    writes (Click.quality_body st r) (Ok (fst st + 1, snd st ++ [sq])) w.
Proof.
  intros H. unfold Click.quality_body.
  destruct (writes_progress (fst st + 1)) as [w Hw].
  eexists. eapply writes_bind; [rewrite H; apply writes_lift|].
  eapply writes_bind; [exact Hw|apply writes_ret].
Qed.

Lemma quality_body_raise (st : Z * list Click.SeqQuality) (r : FastqRecord) :
  quality r = [] ->
  writes (Click.quality_body st r) (Raise ZeroDivisionError) [].
Proof.
  intros H. unfold Click.quality_body. rewrite H, seq_quality_nil.
  apply writes_bind_raise, writes_lift.
Qed.

Lemma quality_loop_ok (rs : list FastqRecord) :
  Forall (fun r => quality r <> []) rs ->
  forall n qs,
  exists sqs w,
    Forall2 (fun r sq => Click.seq_quality (quality r) = Ok sq) rs sqs /\
    writes (for_each Click.quality_body rs (n, qs))
      (Ok (n + len rs, qs ++ sqs)) w.
Proof.
  induction 1 as [|r rs Hr _ IH]; intros n qs.
  - exists [], []. split; [constructor|].
    simpl for_each. unfold len. simpl. rewrite Z.add_0_r, app_nil_r.
    apply writes_ret.
  - destruct (seq_quality_ok _ Hr) as [sq Hsq].
    destruct (quality_body_ok (n, qs) r sq Hsq) as [w1 H1].
    destruct (IH (n + 1) (qs ++ [sq])) as [sqs [w2 [HF H2]]].
    exists (sq :: sqs), (w1 ++ w2). split; [now constructor|].
    simpl for_each. eapply writes_bind; [exact H1|].
    simpl fst. simpl snd. rewrite len_cons, Z.add_assoc.
    rewrite <- app_assoc in H2. exact H2.
Qed.

Lemma quality_loop_raise (rs : list FastqRecord) :
  Exists (fun r => quality r = []) rs ->
  forall st,
  exists w,
    writes (for_each Click.quality_body rs st) (Raise ZeroDivisionError) w.
Proof.
  induction rs as [|r rs IH]; intros HE st; [inversion HE|].
  simpl for_each.
  destruct (quality r) as [|q l] eqn:Hq.
  - exists []. apply writes_bind_raise. now apply quality_body_raise.
  - inversion HE as [? ? H0|? ? H0]; subst; [congruence|].
    assert (Hne : quality r <> []) by (rewrite Hq; discriminate).
    destruct (seq_quality_ok _ Hne) as [sq Hsq].
    destruct (quality_body_ok st r sq Hsq) as [w1 H1].
    destruct (IH H0 (fst st + 1, snd st ++ [sq])) as [w2 H2].
    exists (w1 ++ w2). eapply writes_bind; eauto.
Qed.

Lemma empty_or_not (rs : list FastqRecord) :
  Forall (fun r => quality r <> []) rs \/
  Exists (fun r => quality r = []) rs.
Proof.
  induction rs as [|r rs [IH|IH]]; [left; constructor| |].
  - destruct (quality r) eqn:E.
    + right. now constructor.
    + left. constructor; [rewrite E; discriminate|assumption].
  - right. now constructor 2.
Qed.

Lemma sq_totals (rs : list FastqRecord) (sqs : list Click.SeqQuality) :
  Forall2 (fun r sq => Click.seq_quality (quality r) = Ok sq) rs sqs ->
  sum (map Click.length_ sqs) = bases rs /\
  sum (map Click.q20_count sqs) = q20_total rs /\
  sum (map Click.q30_count sqs) = q30_total rs /\
  (rs <> [] -> sqs <> []).
Proof.
  unfold bases, q20_total, q30_total.
  induction 1 as [|r sq rs sqs Hsq _ IH]; [repeat split; congruence|].
  destruct IH as [I1 [I2 [I3 _]]].
  destruct (seq_quality_fields _ _ Hsq) as [_ [_ [_ [_ [F1 [F2 F3]]]]]].
  simpl map. rewrite !sum_cons, I1, I2, I3, F1, F2, F3.
  repeat split; discriminate.
Qed.

Lemma bases_pos (rs : list FastqRecord) :
  rs <> [] -> Forall (fun r => quality r <> []) rs -> 0 < bases rs.
Proof.
  unfold bases. intros Hrs HF.
  destruct HF as [|r rs Hr HF]; [congruence|].
  simpl map. rewrite sum_cons. apply len_pos in Hr.
  assert (0 <= sum (map (fun r => len (quality r)) rs)); [|lia].
  apply sum_nonneg. apply Forall_map. apply Forall_forall.
  intros x _. apply len_nonneg.
Qed.


(** What [quality] reports on a stream of non-empty reads. *)
Lemma quality_spec (thresholds : bool) (rs : list FastqRecord) :
  rs <> [] ->
  Forall (fun r => quality r <> []) rs ->
  exists mean mn mx w,
    writes (Click.quality thresholds rs)
      (Ok (Some (Click.mkQualityReport (len rs) (bases rs) mean mn mx
                   (percent (q20_total rs) (bases rs))
                   (percent (q30_total rs) (bases rs))
                   (Click.quality_grade
                      (percent (q20_total rs) (bases rs))
                      (percent (q30_total rs) (bases rs)))))) w.
Proof.
  intros Hrs HF.
  destruct (quality_loop_ok rs HF 0 []) as [sqs [w0 [H2 H0]]].
  destruct (sq_totals rs sqs H2) as [T1 [T2 [T3 Hne]]].
  specialize (Hne Hrs).
  assert (Hlen : len rs <> 0) by (apply len_pos in Hrs; lia).
  assert (Hb : bases rs <> 0) by (pose proof (bases_pos rs Hrs HF); lia).
  destruct (min_spec (map Click.min_quality sqs)) as [mn [Hmn _]].
  { destruct sqs; [congruence|discriminate]. }
  destruct (max_spec (map Click.max_quality sqs)) as [mx [Hmx _]].
  { destruct sqs; [congruence|discriminate]. }
  eexists. exists mn, mx.
  destruct thresholds; eexists; unfold Click.quality;
    (eapply writes_bind; [apply writes_echo|]);
    (eapply writes_bind; [exact H0|]);
    cbv beta iota; simpl app; rewrite Z.add_0_l, (len_nonzero rs Hrs);
    rewrite T1, T2, T3;
    (eapply writes_bind;
      [unfold truedivQ; rewrite (len_nonzero rs Hrs); apply writes_lift|]);
    (eapply writes_bind; [rewrite Hmn; apply writes_lift|]);
    (eapply writes_bind; [rewrite Hmx; apply writes_lift|]);
    (eapply writes_bind; [rewrite (truediv_ok _ _ Hb); apply writes_lift|]);
    (eapply writes_bind; [rewrite (truediv_ok _ _ Hb); apply writes_lift|]);
    (eapply writes_bind; [apply writes_echo|]);
    (eapply writes_bind; [apply writes_echo|]);
    (eapply writes_bind; [first [apply writes_echo|apply writes_ret]|]);
    apply writes_ret.
Qed.

Lemma quality_empty (thresholds : bool) :
  writes (Click.quality thresholds []) (Ok None) [EchoHeader; EchoNoValid].
Proof.
  intros out. unfold Click.quality, bind, echo, ret. simpl.
  now rewrite <- app_assoc.
Qed.

(** A read without quality scores stops [quality] with the division of
    line 180. *)
Lemma quality_raises (thresholds : bool) (rs : list FastqRecord) :
  Exists (fun r => quality r = []) rs ->
  exists w, writes (Click.quality thresholds rs) (Raise ZeroDivisionError) w.
Proof.
  intros HE. destruct (quality_loop_raise rs HE (0, [])) as [w Hw].
  eexists. unfold Click.quality.
  eapply writes_bind; [apply writes_echo|].
  apply writes_bind_raise. exact Hw.
Qed.


(** ** Quality percentages and the grade (C5, C2, C7) *)




(** C2.  A read of length zero makes both quality commands raise
    [ZeroDivisionError]: the read's own mean [sum / len] is divided
    without a guard. *)
Theorem quality_zero_length_read_raises :
  Click.quality false [mkRecord "" []] []
  = (Raise ZeroDivisionError, [EchoHeader]) /\
  Argparse.quality_command [mkRecord "" []] []
  = (Raise ZeroDivisionError, [EchoHeader]) /\
  Click.quality false [mkRecord "ATGC" [30; 30; 30; 30]; mkRecord "" []] []
  = (Raise ZeroDivisionError, [EchoHeader]).
Proof. repeat split. Qed.

(** C7.  The grade follows the ordered rules, first match winning:
    Excellent iff [q30_percentage >= 80]; otherwise Good iff
    [q30_percentage >= 60]; otherwise Acceptable iff
    [q20_percentage >= 80]; Poor otherwise. *)
Theorem quality_grade_rules :
  forall q20_percentage q30_percentage : Q,
    (Click.quality_grade q20_percentage q30_percentage = Excellent
     <-> (80 <= q30_percentage)%Q) /\
    (Click.quality_grade q20_percentage q30_percentage = Good
     <-> (q30_percentage < 80 /\ 60 <= q30_percentage)%Q) /\
    (Click.quality_grade q20_percentage q30_percentage = Acceptable
     <-> (q30_percentage < 60 /\ 80 <= q20_percentage)%Q) /\
    (Click.quality_grade q20_percentage q30_percentage = Poor
     <-> (q30_percentage < 60 /\ q20_percentage < 80)%Q).
Proof.
  intros q20 q30. unfold Click.quality_grade.
  assert (T : (60 <= 80)%Q) by discriminate.
  pose proof (Qle_bool_iff 80 q30) as B1.
  pose proof (Qle_bool_iff 60 q30) as B2.
  pose proof (Qle_bool_iff 80 q20) as B3.
  pose proof (Qlt_le_dec q30 80) as [L1|L1];
  pose proof (Qlt_le_dec q30 60) as [L2|L2];
  pose proof (Qlt_le_dec q20 80) as [L3|L3];
  try (exfalso; apply (Qlt_not_le _ _ L2); eapply Qle_trans; eassumption);
  repeat match goal with
    | L : (_ < _)%Q, B : Qle_bool ?a ?b = true <-> (?a <= ?b)%Q |- _ =>
        assert (Qle_bool a b = false)
          by (apply not_true_iff_false; intros F; apply B in F;
              exact (Qlt_not_le _ _ L F));
        clear B
    | L : (?a <= ?b)%Q, B : Qle_bool ?a ?b = true <-> (?a <= ?b)%Q |- _ =>
        assert (Qle_bool a b = true) by (apply B; exact L);
        clear B
    end;
  repeat match goal with
    | H : Qle_bool _ _ = _ |- _ => rewrite H; clear H
    end;
  repeat split; intros; try discriminate; try assumption;
  repeat match goal with
    | H : _ /\ _ |- _ => destruct H
    end;
  exfalso;
  match goal with
  | L : (?a < ?b)%Q, H : (?b <= ?a)%Q |- _ => exact (Qlt_not_le _ _ L H)
  | L : (?a < 60)%Q, H : (80 <= ?a)%Q |- _ =>
      exact (Qlt_not_le _ _ L (Qle_trans _ _ _ T H))
  end.
Qed.

(** ** The stable sort *)

Section SortedFacts.
Context {A : Type} (before : A -> A -> bool).

Lemma insert_perm (x : A) (l : list A) :
  Permutation (insert before x l) (x :: l).
Proof.
  induction l as [|y l IH]; simpl; [apply Permutation_refl|].
  destruct (before x y); [apply Permutation_refl|].
  rewrite IH. apply perm_swap.
Qed.

Lemma sorted_perm (l : list A) : Permutation (sorted before l) l.
Proof.
  induction l as [|x l IH]; simpl; [constructor|].
  rewrite insert_perm. now constructor.
Qed.

(** Elements that [x] overtakes are not selected by a test that selects
    [x] only together with elements it may not overtake. *)
Lemma insert_filter (sel : A -> bool) (x : A) (l : list A) :
  (forall y, sel x = true -> sel y = true -> before x y = true) ->
  filter sel (insert before x l) = filter sel (x :: l).
Proof.
  intros Hsel. induction l as [|y l IH]; [reflexivity|].
  simpl insert. destruct (before x y) eqn:B; [reflexivity|].
  simpl filter in *. rewrite IH.
  destruct (sel x) eqn:Sx; [|reflexivity].
  destruct (sel y) eqn:Sy; [|reflexivity].
  rewrite (Hsel y eq_refl Sy) in B. discriminate.
Qed.

Lemma sorted_filter (sel : A -> bool) (l : list A) :
  (forall x y, sel x = true -> sel y = true -> before x y = true) ->
  filter sel (sorted before l) = filter sel l.
Proof.
  intros Hsel. induction l as [|x l IH]; [reflexivity|].
  simpl sorted. rewrite insert_filter by (apply Hsel).
  simpl. now rewrite IH.
Qed.

Hypothesis before_total : forall x y, before x y = false -> before y x = true.

Lemma insert_sorted (x : A) (l : list A) :
  Sorted (fun a b => before a b = true) l ->
  Sorted (fun a b => before a b = true) (insert before x l).
Proof.
  induction 1 as [|y l Hs IH Hd]; simpl.
  - repeat constructor.
  - destruct (before x y) eqn:B.
    + constructor; [now constructor|now constructor].
    + constructor; [exact IH|].
      destruct l as [|z l]; simpl.
      * constructor. now apply before_total.
      * destruct (before x z); constructor.
        -- now apply before_total.
        -- now inversion Hd.
Qed.

Lemma sorted_sorted (l : list A) :
  Sorted (fun a b => before a b = true) (sorted before l).
Proof.
  induction l as [|x l IH]; simpl; [constructor|now apply insert_sorted].
Qed.
End SortedFacts.

(** ** The length distribution *)

Lemma occurrences_app (x : Z) (l1 l2 : list Z) :
  occurrences x (l1 ++ l2) = occurrences x l1 + occurrences x l2.
Proof.
  unfold occurrences, count_if. now rewrite filter_app, map_app, sum_app.
Qed.

Lemma occurrences_single (y x : Z) :
  occurrences y [x] = if y =? x then 1 else 0.
Proof. unfold occurrences. rewrite count_if_cons. cbn. apply Z.add_0_r. Qed.

Lemma occurrences_absent (x : Z) (l : list Z) :
  ~ In x l -> occurrences x l = 0.
Proof.
  unfold occurrences. induction l as [|y l IH]; intros H; [reflexivity|].
  rewrite count_if_cons. simpl in H.
  destruct (Z.eqb_spec x y); [subst; tauto|]. rewrite IH; tauto.
Qed.

Lemma first_occurrences_In (x : Z) (l : list Z) :
  In x (first_occurrences l) <-> In x l.
Proof.
  induction l as [|y l IH]; simpl; [tauto|].
  rewrite filter_In, IH.
  destruct (Z.eqb_spec x y); subst; simpl; intuition congruence.
Qed.

Lemma first_occurrences_NoDup (l : list Z) : NoDup (first_occurrences l).
Proof.
  induction l as [|y l IH]; simpl; constructor.
  - rewrite filter_In. rewrite Z.eqb_refl. simpl. intros [_ H]. discriminate.
  - now apply NoDup_filter.
Qed.

Lemma first_occurrences_snoc (l : list Z) (x : Z) :
  first_occurrences (l ++ [x])
  = if in_dec Z.eq_dec x l then first_occurrences l
    else first_occurrences l ++ [x].
Proof.
  induction l as [|y l IH]; [reflexivity|].
  simpl app. simpl first_occurrences. rewrite IH.
  destruct (in_dec Z.eq_dec x l) as [Hin|Hin];
    destruct (in_dec Z.eq_dec x (y :: l)) as [Hin'|Hin'];
    simpl in Hin'; first [reflexivity|tauto|idtac].
  - rewrite filter_app. simpl.
    destruct (Z.eqb_spec x y); simpl;
      [now rewrite app_nil_r|exfalso; intuition congruence].
  - rewrite filter_app. simpl.
    destruct (Z.eqb_spec x y); simpl;
      [exfalso; intuition congruence|reflexivity].
Qed.

(** [get] and [set] on a dict listing each key of [ks] once. *)
Lemma get_tabulated (g : Z -> Z) (ks : list Z) (x : Z) :
  get Z.eqb x (map (fun y => (y, g y)) ks)
  = if in_dec Z.eq_dec x ks then Some (g x) else None.
Proof.
  induction ks as [|k ks IH]; [reflexivity|].
  simpl. rewrite IH.
  destruct (Z.eqb_spec k x); subst.
  - destruct (Z.eq_dec x x); [reflexivity|congruence].
  - destruct (Z.eq_dec k x); [congruence|].
    destruct (in_dec Z.eq_dec x ks); reflexivity.
Qed.

Lemma set_tabulated_new (g : Z -> Z) (ks : list Z) (x v : Z) :
  ~ In x ks ->
  set Z.eqb x v (map (fun y => (y, g y)) ks)
  = map (fun y => (y, g y)) ks ++ [(x, v)].
Proof.
  induction ks as [|k ks IH]; intros H; [reflexivity|].
  simpl in *. destruct (Z.eqb_spec k x); [tauto|].
  rewrite IH; tauto.
Qed.

Lemma set_tabulated_old (g g' : Z -> Z) (ks : list Z) (x v : Z) :
  In x ks -> NoDup ks ->
  g' x = v -> (forall y, y <> x -> g' y = g y) ->
  set Z.eqb x v (map (fun y => (y, g y)) ks) = map (fun y => (y, g' y)) ks.
Proof.
  intros Hin Hnd Hx Hy.
  induction ks as [|k ks IH]; [destruct Hin|].
  inversion Hnd as [|? ? Hk Hnd']; subst. simpl.
  destruct (Z.eqb_spec k x).
  - subst k. f_equal. apply map_ext_in. intros y Hyin.
    rewrite Hy; [reflexivity|]. intros ->. tauto.
  - rewrite (Hy k) by assumption. f_equal. apply IH; [|assumption].
    destruct Hin; [congruence|assumption].
Qed.

Lemma count_length_counted (l : list Z) (x : Z) :
  Click.count_length (counted l) x = counted (l ++ [x]).
Proof.
  unfold Click.count_length, counted.
  rewrite get_tabulated, first_occurrences_snoc.
  destruct (in_dec Z.eq_dec x (first_occurrences l)) as [Hin|Hin];
    destruct (in_dec Z.eq_dec x l) as [Hin'|Hin'];
    try (rewrite first_occurrences_In in Hin; tauto).
  - apply set_tabulated_old;
      [assumption|apply first_occurrences_NoDup| |].
    + now rewrite occurrences_app, occurrences_single, Z.eqb_refl.
    + intros y Hy. rewrite occurrences_app, occurrences_single.
      destruct (Z.eqb_spec y x); [congruence|lia].
  - rewrite set_tabulated_new by assumption.
    rewrite map_app. simpl. f_equal.
    + apply map_ext_in. intros y Hy.
      rewrite occurrences_app, occurrences_single.
      destruct (Z.eqb_spec y x); [subst; tauto|]. now rewrite Z.add_0_r.
    + now rewrite occurrences_app, (occurrences_absent x l Hin'),
        occurrences_single, Z.eqb_refl.
Qed.

(** The dict [length_counts] lists each distinct length once, with its
    number of occurrences, in the order of first occurrence. *)
Lemma length_counts_counted (l : list Z) : Click.length_counts l = counted l.
Proof.
  unfold Click.length_counts.
  change (@nil (Z * Z)) with (counted []).
  change l with ([] ++ l) at 2.
  generalize (@nil Z) as p. induction l as [|x l IH]; intros p.
  - now rewrite app_nil_r.
  - simpl fold_left. rewrite count_length_counted, IH, <- app_assoc.
    reflexivity.
Qed.

Lemma by_count_desc_total (x y : Z * Z) :
  Click.by_count_desc x y = false -> Click.by_count_desc y x = true.
Proof.
  unfold Click.by_count_desc. intros H.
  apply Z.leb_gt in H. apply Z.leb_le. lia.
Qed.

Lemma ranked_strongly_sorted (d : list (Z * Z)) :
  StronglySorted (fun a b => snd b <= snd a) (sorted Click.by_count_desc d).
Proof.
  apply Sorted_StronglySorted.
  - intros a b c Hab Hbc. lia.
  - eapply Sorted_ind with
      (P := fun l => Sorted (fun a b => snd b <= snd a) l);
      [constructor| |apply (sorted_sorted _ by_count_desc_total d)].
    intros a l _ IH Hd. constructor; [exact IH|].
    destruct Hd as [|b l Hb]; constructor.
    unfold Click.by_count_desc in Hb. now apply Z.leb_le.
Qed.

Lemma ranked_stable (d : list (Z * Z)) (c : Z) :
  filter (fun item => snd item =? c) (sorted Click.by_count_desc d)
  = filter (fun item => snd item =? c) d.
Proof.
  apply sorted_filter. intros x y Hx Hy.
  apply Z.eqb_eq in Hx, Hy. unfold Click.by_count_desc.
  apply Z.leb_le. lia.
Qed.

(** C3, as stated, fails: two lengths that occur equally often are
    listed in the order in which they first arrived, not by ascending
    length, so two streams with the same multiset of read lengths get
    differently ordered distributions. *)
Lemma equal_counts_keep_arrival_order :
  Click.sorted_lengths
    (lengths [mkRecord "ATGCA" [30; 30; 30; 30; 30]; mkRecord "ATG" [30; 30; 30]])
  = [(5, 1); (3, 1)] /\
  Click.sorted_lengths
    (lengths [mkRecord "ATG" [30; 30; 30]; mkRecord "ATGCA" [30; 30; 30; 30; 30]])
  = [(3, 1); (5, 1)] /\
  (exists rep out',
     Argparse.stats_command
       [mkRecord "ATGCA" [30; 30; 30; 30; 30]; mkRecord "ATG" [30; 30; 30]] []
     = (Ok (Some rep), out') /\
     map (fun line => fst (fst line)) (Click.distribution rep) = [5; 3]).
Proof.
  split; [reflexivity|]. split; [reflexivity|].
  eexists. eexists. split; [vm_compute; reflexivity|reflexivity].
Qed.

(** C3, amended.  The stats commands list the 10 most frequent read
    lengths in descending order of count; lengths with equal counts keep
    the order of their first occurrence in the stream.  Each entry
    carries the length, its count and [count / total_sequences * 100]. *)
Theorem length_distribution_ranking :
  forall (rs : list FastqRecord) (out : Console),
    rs <> [] ->
    exists rep out' ranked,
      Click.stats true rs out = (Ok (Some rep), out') /\
      Argparse.stats_command rs out = (Ok (Some rep), out') /\
      Permutation ranked (counted (lengths rs)) /\
      StronglySorted (fun a b => snd b <= snd a) ranked /\
      (forall c,
          filter (fun item => snd item =? c) ranked
          = filter (fun item => snd item =? c) (counted (lengths rs))) /\
      Click.distribution rep
      = map (fun item => (fst item, snd item, percent (snd item) (len rs)))
          (firstn 10 ranked).
Proof.
  intros rs out Hrs.
  destruct (stats_spec true rs Hrs) as [mn [mx [w [_ [_ H]]]]].
  eexists. exists (out ++ w).
  exists (sorted Click.by_count_desc (counted (lengths rs))).
  split; [apply H|]. split; [rewrite stats_command_eq; apply H|].
  split; [apply sorted_perm|]. split; [apply ranked_strongly_sorted|].
  split; [intros c; apply ranked_stable|].
  simpl. unfold distribution_of, Click.sorted_lengths, slice_to.
  now rewrite length_counts_counted.
Qed.

Lemma length_distribution_ranking_witness :
  exists rep out' ranked,
    Click.stats true
      [mkRecord "ATGCA" [30; 30; 30; 30; 30]; mkRecord "ATG" [30; 30; 30]] []
    = (Ok (Some rep), out') /\
    Argparse.stats_command
      [mkRecord "ATGCA" [30; 30; 30; 30; 30]; mkRecord "ATG" [30; 30; 30]] []
    = (Ok (Some rep), out') /\
    Permutation ranked [(5, 1); (3, 1)] /\
    StronglySorted (fun a b => snd b <= snd a) ranked /\
    (forall c,
        filter (fun item => snd item =? c) ranked
        = filter (fun item => snd item =? c) [(5, 1); (3, 1)]) /\
    Click.distribution rep
    = map (fun item => (fst item, snd item, percent (snd item) 2))
        (firstn 10 ranked).
Proof.
  apply (length_distribution_ranking
           [mkRecord "ATGCA" [30; 30; 30; 30; 30]; mkRecord "ATG" [30; 30; 30]]
           []).
  discriminate.
Defined.

(** ** Determinism (C8) *)

Lemma stats_writes (detailed : bool) (rs : list FastqRecord) :
  exists r w, writes (Click.stats detailed rs) r w.
Proof.
  destruct rs as [|r rs].
  - eexists. eexists. apply stats_empty.
  - destruct (stats_spec detailed (r :: rs)) as [mn [mx [w [_ [_ H]]]]];
      [discriminate|].
    eexists. eexists. exact H.
Qed.

Lemma quality_writes (thresholds : bool) (rs : list FastqRecord) :
  exists r w, writes (Click.quality thresholds rs) r w.
Proof.
  destruct (empty_or_not rs) as [HF|HE].
  - destruct rs as [|r rs].
    + eexists. eexists. apply quality_empty.
    + destruct (quality_spec thresholds (r :: rs)) as [mean [mn [mx [w H]]]];
        [discriminate|exact HF|].
      eexists. eexists. exact H.
  - destruct (quality_raises thresholds rs HE) as [w H].
    eexists. eexists. exact H.
Qed.

(** C8.  The result of the statistics and quality pipelines is a
    function of the record sequence alone: run on the same records from
    any two consoles (in particular a second run on the console the first
    run left), each command yields the same outcome (the same report, the
    same early return, or the same exception) and echoes the same
    lines. *)
Theorem pipeline_deterministic :
  forall (detailed thresholds : bool) (rs : list FastqRecord)
         (out1 out2 : Console),
    (fst (Click.stats detailed rs out1) = fst (Click.stats detailed rs out2) /\
     exists w,
       snd (Click.stats detailed rs out1) = out1 ++ w /\
       snd (Click.stats detailed rs out2) = out2 ++ w) /\
    (fst (Click.quality thresholds rs out1)
     = fst (Click.quality thresholds rs out2) /\
     exists w,
       snd (Click.quality thresholds rs out1) = out1 ++ w /\
       snd (Click.quality thresholds rs out2) = out2 ++ w).
Proof.
  intros detailed thresholds rs out1 out2. split.
  - destruct (stats_writes detailed rs) as [r [w H]].
    rewrite (H out1), (H out2). split; [reflexivity|].
    exists w. split; reflexivity.
  - destruct (quality_writes thresholds rs) as [r [w H]].
    rewrite (H out1), (H out2). split; [reflexivity|].
    exists w. split; reflexivity.
Qed.


(** ** dict facts *)

Section DictFacts.
Context {K V : Type} (eqb : K -> K -> bool).
Hypothesis eqb_spec : forall a b, reflect (a = b) (eqb a b).

Lemma get_set_same (k : K) (v : V) (d : dict) :
  get eqb k (set eqb k v d) = Some v.
Proof.
  induction d as [|[k' v'] d IH]; simpl.
  - destruct (eqb_spec k k); congruence.
  - destruct (eqb_spec k' k) as [E|E]; simpl.
    + destruct (eqb_spec k' k); congruence.
    + destruct (eqb_spec k' k); [congruence|exact IH].
Qed.

Lemma get_set_other (k j : K) (v : V) (d : dict) :
  j <> k -> get eqb j (set eqb k v d) = get eqb j d.
Proof.
  intros Hjk. induction d as [|[k' v'] d IH]; simpl.
  - destruct (eqb_spec k j); congruence.
  - destruct (eqb_spec k' k) as [E|E]; simpl.
    + subst k'. destruct (eqb_spec k j); congruence.
    + destruct (eqb_spec k' j); [reflexivity|exact IH].
Qed.

Lemma get_of_key (k : K) (d : dict (V:=V)) :
  In k (keys d) -> exists v, get eqb k d = Some v.
Proof.
  unfold keys. induction d as [|[k' v'] d IH]; simpl; [tauto|].
  intros [E|Hin]; destruct (eqb_spec k' k); eauto; congruence.
Qed.

Lemma getitem_get (k : K) (v : V) (d : dict) :
  get eqb k d = Some v -> getitem eqb k d = Ok v.
Proof. unfold getitem. now intros ->. Qed.

Lemma mem_get (k : K) (d : dict (V:=V)) :
  mem eqb k d = match get eqb k d with Some _ => true | None => false end.
Proof. reflexivity. Qed.
End DictFacts.

(** ** Loops over enumerate *)

Lemma at_offset_zero {X} (l : list X) (j : nat) :
  at_offset l 0 j = nth_error l j.
Proof. unfold at_offset. simpl. now rewrite Nat.sub_0_r. Qed.

Section PositionLoop.
Context {V X : Type}.
Variable upd : dict (K:=nat) (V:=V) -> nat * X -> result (dict (K:=nat) (V:=V)).
Variable f : option V -> X -> V.
Variable P : V -> Prop.

Let values_ok := values_ok P.

Hypothesis upd_spec :
  forall d i x, values_ok d ->
    exists d', upd d (i, x) = Ok d' /\
      forall j, get Nat.eqb j d'
                = if Nat.eqb j i then Some (f (get Nat.eqb j d) x)
                  else get Nat.eqb j d.
Hypothesis f_ok :
  forall o x, (forall v, o = Some v -> P v) -> P (f o x).

Lemma upd_keeps_ok d i x d' :
  values_ok d -> upd d (i, x) = Ok d' -> values_ok d'.
Proof.
  intros Hd Hu j v Hj.
  destruct (upd_spec d i x Hd) as [d2 [E Hget]].
  assert (d2 = d') by congruence. subst d2.
  rewrite Hget in Hj. destruct (Nat.eqb j i).
  - injection Hj as <-. apply f_ok. intros v0 Hv0. now apply (Hd j).
  - now apply (Hd j).
Qed.

Lemma enumerate_loop (l : list X) :
  forall n d, values_ok d ->
    exists d',
      Gui.rfor_each upd (combine (seq n (List.length l)) l) d = Ok d' /\
      values_ok d' /\
      forall j, get Nat.eqb j d'
                = match at_offset l n j with
                  | Some x => Some (f (get Nat.eqb j d) x)
                  | None => get Nat.eqb j d
                  end.
Proof.
  induction l as [|x l IH]; intros n d Hd.
  - exists d. split; [reflexivity|]. split; [assumption|].
    intros j. unfold at_offset.
    destruct (Nat.leb n j); [|reflexivity]. now destruct (j - n)%nat.
  - destruct (upd_spec d n x Hd) as [d1 [E1 G1]].
    assert (Hd1 : values_ok d1) by (eapply upd_keeps_ok; eauto).
    destruct (IH (S n) d1 Hd1) as [d' [E' [Hd' G']]].
    exists d'. split; [simpl; rewrite E1; exact E'|].
    split; [assumption|].
    intros j. rewrite G', G1. unfold at_offset.
    destruct (Nat.eqb_spec j n) as [->|Hjn].
    + rewrite Nat.leb_refl, Nat.sub_diag.
      assert (Nat.leb (S n) n = false) as -> by (apply Nat.leb_gt; lia).
      reflexivity.
    + destruct (Nat.leb_spec (S n) j); destruct (Nat.leb_spec n j);
        try lia; [|reflexivity].
      replace (j - n)%nat with (S (j - S n)) by lia. reflexivity.
Qed.
End PositionLoop.

(** ** The accumulators of run_analysis *)

Lemma add_quality_spec (d : Gui.QualityData) (i : nat) (q : Z) :
  exists d',
    Gui.add_quality d (i, q) = Ok d' /\
    forall j, get Nat.eqb j d'
              = if Nat.eqb j i
                then Some (or_default (get Nat.eqb j d) [] ++ [q])
                else get Nat.eqb j d.
Proof.
  unfold Gui.add_quality. rewrite mem_get.
  destruct (get Nat.eqb i d) as [l|] eqn:G; simpl negb; cbv iota.
  - rewrite (getitem_get _ _ _ _ G). simpl rbind.
    eexists. split; [reflexivity|]. intros j.
    destruct (Nat.eqb_spec j i) as [->|Hji].
    + rewrite (get_set_same _ Nat.eqb_spec), G. reflexivity.
    + now rewrite (get_set_other _ Nat.eqb_spec).
  - rewrite (getitem_get _ _ _ _ (get_set_same _ Nat.eqb_spec i [] d)).
    simpl rbind. eexists. split; [reflexivity|]. intros j.
    destruct (Nat.eqb_spec j i) as [->|Hji].
    + rewrite (get_set_same _ Nat.eqb_spec), G. reflexivity.
    + now rewrite !(get_set_other _ Nat.eqb_spec).
Qed.

Lemma is_atgc_cases (b : ascii) :
  is_atgc b = true ->
  b = "A"%char \/ b = "T"%char \/ b = "G"%char \/ b = "C"%char.
Proof.
  intros H. unfold is_atgc in H. cbn [Gui.in_str] in H.
  destruct (Ascii.eqb_spec "A" b); [auto|].
  destruct (Ascii.eqb_spec "T" b); [auto|].
  destruct (Ascii.eqb_spec "G" b); [auto|].
  destruct (Ascii.eqb_spec "C" b); [auto|]. discriminate.
Qed.

Lemma four_keys_get (b : ascii) (v : Gui.BaseCounts) :
  four_keys v -> is_atgc b = true ->
  exists c, get Ascii.eqb b v = Some c.
Proof.
  intros [a [t [g [c ->]]]] Hb.
  destruct (is_atgc_cases b Hb) as [-> | [-> | [-> | -> ]]]; simpl; eauto.
Qed.

Lemma four_keys_bump (b : ascii) (v : Gui.BaseCounts) :
  four_keys v -> four_keys (bump b v).
Proof.
  intros Hv. unfold bump. destruct (is_atgc b) eqn:Hb; [|assumption].
  destruct Hv as [a [t [g [c ->]]]].
  destruct (is_atgc_cases b Hb) as [-> | [-> | [-> | -> ]]]; simpl;
    repeat eexists.
Qed.

Lemma four_keys_zero : four_keys Gui.zero_counts.
Proof. repeat eexists. Qed.

Lemma add_base_spec (d : Gui.ContentData) (i : nat) (b : ascii) :
  values_ok four_keys d ->
  exists d',
    Gui.add_base d (i, b) = Ok d' /\
    forall j, get Nat.eqb j d'
              = if Nat.eqb j i
                then Some (bump b (or_default (get Nat.eqb j d)
                                     Gui.zero_counts))
                else get Nat.eqb j d.
Proof.
  intros Hd. unfold Gui.add_base. rewrite mem_get.
  fold (is_atgc b). unfold bump.
  destruct (get Nat.eqb i d) as [v|] eqn:G; simpl negb; cbv iota.
  - destruct (is_atgc b) eqn:Hb.
    + rewrite (getitem_get _ _ _ _ G). simpl rbind.
      destruct (four_keys_get b v (Hd i v G) Hb) as [c Hc].
      rewrite (getitem_get _ _ _ _ Hc). simpl rbind.
      eexists. split; [reflexivity|]. intros j.
      destruct (Nat.eqb_spec j i) as [->|Hji].
      * rewrite (get_set_same _ Nat.eqb_spec), G. cbn [or_default].
        now rewrite Hc.
      * now rewrite (get_set_other _ Nat.eqb_spec).
    + exists d. split; [reflexivity|]. intros j.
      destruct (Nat.eqb_spec j i) as [->|Hji]; [now rewrite G|reflexivity].
  - pose proof (get_set_same _ Nat.eqb_spec i Gui.zero_counts d) as G0.
    destruct (is_atgc b) eqn:Hb.
    + rewrite (getitem_get _ _ _ _ G0). simpl rbind.
      destruct (four_keys_get b _ four_keys_zero Hb) as [c Hc].
      rewrite (getitem_get _ _ _ _ Hc). simpl rbind.
      eexists. split; [reflexivity|]. intros j.
      destruct (Nat.eqb_spec j i) as [->|Hji].
      * rewrite (get_set_same _ Nat.eqb_spec), G. cbn [or_default].
        now rewrite Hc.
      * now rewrite !(get_set_other _ Nat.eqb_spec).
    + eexists. split; [reflexivity|]. intros j.
      destruct (Nat.eqb_spec j i) as [->|Hji].
      * now rewrite G0, G.
      * now rewrite (get_set_other _ Nat.eqb_spec).
Qed.

Lemma bump_ok (o : option Gui.BaseCounts) (b : ascii) :
  (forall v, o = Some v -> four_keys v) ->
  four_keys (bump b (or_default o Gui.zero_counts)).
Proof.
  intros Ho. apply four_keys_bump.
  destruct o as [v|]; [now apply Ho|apply four_keys_zero].
Qed.

Lemma occ_snoc (b x : ascii) (col : list ascii) :
  occ b (col ++ [x]) = occ b col + (if Ascii.eqb b x then 1 else 0).
Proof.
  unfold occ, len. rewrite filter_app, length_app. simpl.
  destruct (Ascii.eqb b x); simpl; lia.
Qed.

Lemma bump_counts (b : ascii) (col : list ascii) :
  bump b (counts_of col) = counts_of (col ++ [b]).
Proof.
  unfold bump, counts_of. rewrite !occ_snoc.
  destruct (is_atgc b) eqn:Hb.
  - destruct (is_atgc_cases b Hb) as [-> | [-> | [-> | -> ]]]; simpl;
      now rewrite !Z.add_0_r.
  - unfold is_atgc in Hb. cbn [Gui.in_str] in Hb.
    destruct (Ascii.eqb "A" b); [discriminate|].
    destruct (Ascii.eqb "T" b); [discriminate|].
    destruct (Ascii.eqb "G" b); [discriminate|].
    destruct (Ascii.eqb "C" b); [discriminate|].
    now rewrite !Z.add_0_r.
Qed.

Lemma seen_counts_default (col : list ascii) :
  or_default (seen counts_of col) Gui.zero_counts = counts_of col.
Proof. now destruct col. Qed.

Lemma seen_snoc {X V} (value : list X -> V) (col : list X) (x : X) :
  seen value (col ++ [x]) = Some (value (col ++ [x])).
Proof. now destruct col. Qed.

Lemma seen_four_keys (col : list ascii) (v : Gui.BaseCounts) :
  seen counts_of col = Some v -> four_keys v.
Proof.
  destruct col; [discriminate|]. intros H. injection H as <-.
  repeat eexists.
Qed.

Lemma seen_id_default (col : list Z) :
  or_default (seen (fun c => c) col) [] = col.
Proof. now destruct col. Qed.

Lemma seen_cell {X V} (value : list X -> V) (g : V -> X -> V)
  (col l : list X) (p : nat) (o : option V) :
  o = seen value col ->
  (forall x, g (or_default o (value [])) x = value (col ++ [x])) ->
  match nth_error l p with
  | Some x => Some (g (or_default o (value [])) x)
  | None => o
  end = seen value (col ++ cell l p).
Proof.
  intros Ho Hg. unfold cell. destruct (nth_error l p) as [x|].
  - now rewrite seen_snoc, Hg.
  - now rewrite app_nil_r.
Qed.

Lemma analysis_body_spec (a : Gui.Acc) (r : FastqRecord)
  (hq : nat -> list Z) (hb : nat -> list ascii) :
  (forall p, get Nat.eqb p (Gui.quality_per_position a)
             = seen (fun c => c) (hq p)) ->
  (forall p, get Nat.eqb p (Gui.base_content_per_position a)
             = seen counts_of (hb p)) ->
  exists a',
    Gui.analysis_body a r = Ok a' /\
    Gui.sequence_lengths a' = Gui.sequence_lengths a ++ [slen (sequence r)] /\
    Gui.total_sequences a' = Gui.total_sequences a + 1 /\
    Gui.total_length a' = Gui.total_length a + slen (sequence r) /\
    (forall p, get Nat.eqb p (Gui.quality_per_position a')
               = seen (fun c => c) (hq p ++ cell (quality r) p)) /\
    (forall p, get Nat.eqb p (Gui.base_content_per_position a')
               = seen counts_of
                   (hb p ++ cell (list_ascii_of_string (sequence r)) p)).
Proof.
  intros Hq Hb. unfold Gui.analysis_body, Gui.enumerate.
  destruct (enumerate_loop Gui.add_quality
              (fun o q => or_default o [] ++ [q]) (fun _ => True)
              (fun d i x _ => add_quality_spec d i x) (fun _ _ _ => I)
              (quality r) 0 (Gui.quality_per_position a))
    as [qd [Eq [_ Gq]]]; [intros j v _; exact I|].
  destruct (enumerate_loop Gui.add_base
              (fun o b => bump b (or_default o Gui.zero_counts)) four_keys
              add_base_spec bump_ok
              (list_ascii_of_string (sequence r)) 0
              (Gui.base_content_per_position a))
    as [bd [Eb [_ Gb]]].
  { intros j v Hj. rewrite Hb in Hj. eapply seen_four_keys; eauto. }
  cbv zeta. unfold Gui.QualityData, Gui.ContentData in *.
  rewrite Eq. simpl rbind. rewrite Eb. simpl rbind.
  eexists. split; [reflexivity|]. simpl.
  repeat (split; [reflexivity|]). split; intros p.
  - rewrite Gq, at_offset_zero.
    apply (seen_cell (fun c => c) (fun v x => v ++ [x])); [apply Hq|].
    intros x. now rewrite Hq, seen_id_default.
  - rewrite Gb, at_offset_zero.
    apply (seen_cell counts_of (fun v x => bump x v)); [apply Hb|].
    intros x. rewrite Hb. change (counts_of []) with Gui.zero_counts.
    now rewrite seen_counts_default, bump_counts.
Qed.

Lemma ingest_loop_spec (rs : list FastqRecord) :
  forall (a : Gui.Acc) (hq : nat -> list Z) (hb : nat -> list ascii),
    (forall p, get Nat.eqb p (Gui.quality_per_position a)
               = seen (fun c => c) (hq p)) ->
    (forall p, get Nat.eqb p (Gui.base_content_per_position a)
               = seen counts_of (hb p)) ->
    exists a',
      Gui.rfor_each Gui.analysis_body rs a = Ok a' /\
      Gui.sequence_lengths a' = Gui.sequence_lengths a ++ lengths rs /\
      Gui.total_sequences a' = Gui.total_sequences a + len rs /\
      Gui.total_length a' = Gui.total_length a + sum (lengths rs) /\
      (forall p, get Nat.eqb p (Gui.quality_per_position a')
                 = seen (fun c => c) (hq p ++ qcolumn p rs)) /\
      (forall p, get Nat.eqb p (Gui.base_content_per_position a')
                 = seen counts_of (hb p ++ bcolumn p rs)).
Proof.
  induction rs as [|r rs IH]; intros a hq hb Hq Hb.
  - exists a. split; [reflexivity|]. unfold len. simpl.
    rewrite !app_nil_r, !Z.add_0_r.
    repeat (split; [reflexivity|]). split; intros p.
    + now rewrite app_nil_r.
    + now rewrite app_nil_r.
  - destruct (analysis_body_spec a r hq hb Hq Hb)
      as [a1 [E1 [L1 [N1 [T1 [Q1 B1]]]]]].
    destruct (IH a1 _ _ Q1 B1) as [a' [E' [L' [N' [T' [Q' B']]]]]].
    exists a'. split; [simpl; rewrite E1; exact E'|].
    rewrite L', N', T', L1, N1, T1. simpl lengths.
    rewrite sum_cons, len_cons, <- !app_assoc.
    split; [reflexivity|]. split; [lia|]. split; [lia|].
    split; intros p.
    + rewrite Q', <- app_assoc. reflexivity.
    + rewrite B', <- app_assoc. reflexivity.
Qed.

(** What the loop of [run_analysis] has accumulated after a stream. *)
Lemma ingest_spec (rs : list FastqRecord) :
  exists a,
    Gui.ingest rs = Ok a /\
    Gui.sequence_lengths a = lengths rs /\
    Gui.total_sequences a = len rs /\
    Gui.total_length a = sum (lengths rs) /\
    (forall p, get Nat.eqb p (Gui.quality_per_position a)
               = seen (fun c => c) (qcolumn p rs)) /\
    (forall p, get Nat.eqb p (Gui.base_content_per_position a)
               = seen counts_of (bcolumn p rs)).
Proof.
  destruct (ingest_loop_spec rs Gui.acc_init (fun _ => []) (fun _ => []))
    as [a H]; [reflexivity|reflexivity|].
  exists a. exact H.
Qed.

(** ** Stored raw values *)

Lemma stored_values_set (i : nat) (v : list Z) (d : Gui.QualityData) :
  stored_values (set Nat.eqb i v d)
  = stored_values d + len v - len (or_default (get Nat.eqb i d) []).
Proof.
  unfold stored_values.
  induction d as [|[k l] d IH]; simpl.
  - rewrite sum_cons. unfold sum, len. simpl. lia.
  - destruct (Nat.eqb k i); simpl; rewrite !sum_cons; simpl; [lia|].
    rewrite IH. lia.
Qed.

Lemma add_quality_stored (d d' : Gui.QualityData) (iq : nat * Z) :
  Gui.add_quality d iq = Ok d' -> stored_values d' = stored_values d + 1.
Proof.
  destruct iq as [i q]. unfold Gui.add_quality. rewrite mem_get.
  destruct (get Nat.eqb i d) as [l|] eqn:G; simpl negb; cbv iota.
  - rewrite (getitem_get _ _ _ _ G). simpl. intros H. injection H as <-.
    rewrite stored_values_set, G. simpl. unfold len.
    rewrite length_app. simpl. lia.
  - rewrite (getitem_get _ _ _ _ (get_set_same _ Nat.eqb_spec i [] d)).
    simpl. intros H. injection H as <-.
    rewrite !stored_values_set, (get_set_same _ Nat.eqb_spec), G.
    unfold len. simpl. lia.
Qed.

Lemma add_quality_loop_stored (xs : list (nat * Z)) :
  forall d d',
    Gui.rfor_each Gui.add_quality xs d = Ok d' ->
    stored_values d' = stored_values d + len xs.
Proof.
  induction xs as [|x xs IH]; intros d d' H; simpl in H.
  - injection H as <-. unfold len. simpl. lia.
  - destruct (Gui.add_quality d x) as [d1|e] eqn:E; [|discriminate].
    simpl in H. rewrite (IH _ _ H), (add_quality_stored _ _ _ E), len_cons.
    lia.
Qed.

Lemma len_enumerate {X} (l : list X) : len (Gui.enumerate l) = len l.
Proof.
  unfold len, Gui.enumerate. rewrite length_combine, length_seq.
  now rewrite Nat.min_id.
Qed.

Lemma analysis_body_stored (a a' : Gui.Acc) (r : FastqRecord) :
  Gui.analysis_body a r = Ok a' ->
  stored_values (Gui.quality_per_position a')
  = stored_values (Gui.quality_per_position a) + len (quality r).
Proof.
  unfold Gui.analysis_body. cbv zeta.
  unfold Gui.QualityData, Gui.ContentData in *.
  match goal with
  | |- rbind ?m _ = _ -> _ =>
      destruct m as [qd|e] eqn:E; [|simpl; discriminate]
  end.
  simpl rbind.
  match goal with
  | |- rbind ?m _ = _ -> _ => destruct m as [bd|e]; [|simpl; discriminate]
  end.
  simpl. intros H. injection H as <-. simpl.
  now rewrite (add_quality_loop_stored _ _ _ E), len_enumerate.
Qed.

Lemma ingest_loop_stored (rs : list FastqRecord) :
  forall a a',
    Gui.rfor_each Gui.analysis_body rs a = Ok a' ->
    stored_values (Gui.quality_per_position a')
    = stored_values (Gui.quality_per_position a) + bases rs.
Proof.
  unfold bases. induction rs as [|r rs IH]; intros a a' H; simpl in H.
  - injection H as <-. simpl. unfold sum. simpl. lia.
  - destruct (Gui.analysis_body a r) as [a1|e] eqn:E; [|discriminate].
    simpl in H. rewrite (IH _ _ H), (analysis_body_stored _ _ _ E).
    simpl map. rewrite sum_cons. lia.
Qed.

Lemma ingest_stored (rs : list FastqRecord) (a : Gui.Acc) :
  Gui.ingest rs = Ok a ->
  stored_values (Gui.quality_per_position a) = bases rs.
Proof.
  intros H. apply ingest_loop_stored in H. rewrite H. reflexivity.
Qed.

(** ** The plots of run_analysis *)

Lemma rmap_ok {X Y} (f : X -> result Y) (xs : list X) :
  (forall x, In x xs -> exists y, f x = Ok y) ->
  exists ys, Gui.rmap f xs = Ok ys.
Proof.
  induction xs as [|x xs IH]; intros H; simpl.
  - eexists. reflexivity.
  - destruct (H x) as [y Hy]; [now left|]. rewrite Hy. simpl.
    destruct IH as [ys Hys]; [intros z Hz; apply H; now right|].
    rewrite Hys. simpl. eexists. reflexivity.
Qed.

Lemma counts_total (col : list ascii) : sum (values (counts_of col)) = atgc col.
Proof. unfold counts_of, values, atgc, sum. simpl. lia. Qed.

Lemma share_spec (cd : Gui.ContentData) (col : list ascii) (base : ascii)
  (p : nat) :
  get Nat.eqb p cd = Some (counts_of col) ->
  In base Gui.colors ->
  Gui.share cd base p
  = Ok (if atgc col =? 0 then 0%Q else percent (occ base col) (atgc col)).
Proof.
  intros G Hb. unfold Gui.share.
  rewrite (getitem_get _ _ _ _ G). cbn [rbind]. rewrite counts_total.
  destruct (Z.eqb_spec (atgc col) 0) as [E|E]; [reflexivity|].
  simpl negb. cbv iota.
  assert (Hg : getitem Ascii.eqb base (counts_of col) = Ok (occ base col)).
  { simpl in Hb. destruct Hb as [<-|[<-|[<-|[<-|[]]]]]; reflexivity. }
  rewrite Hg. simpl rbind. now rewrite (truediv_ok _ _ E).
Qed.

Lemma sorted_keys_In {V} (d : dict (K:=nat) (V:=V)) (p : nat) :
  In p (sorted Nat.leb (keys d)) -> exists v, get Nat.eqb p d = Some v.
Proof.
  intros H. apply (get_of_key _ Nat.eqb_spec).
  eapply Permutation_in; [apply sorted_perm|exact H].
Qed.

Lemma seen_some {X V} (value : list X -> V) (col : list X) (v : V) :
  seen value col = Some v -> col <> [] /\ v = value col.
Proof. destruct col; [discriminate|]. intros H. injection H as <-. split; [discriminate|reflexivity]. Qed.

Lemma draw_quality_plot_ok (qd : Gui.QualityData) (h : nat -> list Z) :
  (forall p, get Nat.eqb p qd = seen (fun c => c) (h p)) ->
  exists o, Gui.draw_quality_plot qd = Ok o.
Proof.
  intros H. unfold Gui.draw_quality_plot.
  destruct qd as [|kv qd]; [eexists; reflexivity|].
  destruct (rmap_ok (Gui.mean_at (kv :: qd))
              (sorted Nat.leb (keys (kv :: qd)))) as [ys Hys].
  - intros p Hp. destruct (sorted_keys_In _ _ Hp) as [v Hv].
    unfold Gui.mean_at. rewrite (getitem_get _ _ _ _ Hv). simpl rbind.
    rewrite H in Hv. apply seen_some in Hv. destruct Hv as [Hne ->].
    rewrite truediv_ok; [eexists; reflexivity|].
    apply len_pos in Hne. lia.
  - rewrite Hys. simpl. eexists. reflexivity.
Qed.

Lemma draw_content_plot_ok (cd : Gui.ContentData) (h : nat -> list ascii) :
  (forall p, get Nat.eqb p cd = seen counts_of (h p)) ->
  exists o, Gui.draw_content_plot cd = Ok o.
Proof.
  intros H. unfold Gui.draw_content_plot.
  destruct cd as [|kv cd]; [eexists; reflexivity|].
  set (d := kv :: cd) in *.
  destruct (rmap_ok
              (fun base =>
                 vals <- Gui.rmap (Gui.share d base)
                           (sorted Nat.leb (keys d)) ;;
                 Ok (base, vals)) Gui.colors) as [ys Hys].
  - intros base Hbase.
    destruct (rmap_ok (Gui.share d base) (sorted Nat.leb (keys d)))
      as [vals Hvals].
    + intros p Hp. destruct (sorted_keys_In _ _ Hp) as [v Hv].
      pose proof Hv as Hv'. rewrite H in Hv'. apply seen_some in Hv'.
      destruct Hv' as [_ ->].
      rewrite (share_spec d (h p) base p Hv Hbase). eexists. reflexivity.
    + rewrite Hvals. simpl. eexists. reflexivity.
  - rewrite Hys. simpl. eexists. reflexivity.
Qed.

Lemma rmap_Forall2 {X Y} (f : X -> result Y) (xs : list X) :
  forall ys, Gui.rmap f xs = Ok ys -> Forall2 (fun x y => f x = Ok y) xs ys.
Proof.
  induction xs as [|x xs IH]; intros ys H; simpl in H.
  - injection H as <-. constructor.
  - destruct (f x) as [y|e] eqn:E; [|discriminate]. simpl in H.
    destruct (Gui.rmap f xs) as [ys'|e]; [|discriminate]. simpl in H.
    injection H as <-. constructor; [exact E|now apply IH].
Qed.

(** The series drawn by [draw_content_plot] hold, for each base of
    [colors] and each position in ascending order, the value of
    [share]. *)
Lemma draw_content_plot_series (cd : Gui.ContentData) (positions : list nat)
  (series : list (ascii * list Q)) :
  Gui.draw_content_plot cd = Ok (Some (positions, series)) ->
  positions = sorted Nat.leb (keys cd) /\
  Forall2 (fun base s =>
             fst s = base /\
             Forall2 (fun p v => Gui.share cd base p = Ok v) positions (snd s))
    Gui.colors series.
Proof.
  unfold Gui.draw_content_plot. destruct cd as [|kv cd]; [discriminate|].
  set (d := kv :: cd).
  destruct (Gui.rmap _ Gui.colors) as [ss|e] eqn:E; [|discriminate].
  simpl. intros H. injection H as <- <-. split; [reflexivity|].
  apply rmap_Forall2 in E.
  eapply Forall2_impl; [|exact E].
  intros base s Hs. cbv beta in Hs.
  destruct (Gui.rmap (Gui.share d base) _) as [vals|e] eqn:V;
    [|discriminate].
  simpl in Hs. injection Hs as <-. split; [reflexivity|].
  now apply rmap_Forall2.
Qed.

(** [run_analysis] completes on every stream. *)
Lemma run_analysis_ok (rs : list FastqRecord) :
  exists o, Gui.run_analysis rs = Ok o.
Proof.
  unfold Gui.run_analysis.
  destruct (ingest_spec rs) as [a [E [L [N [T [Q B]]]]]].
  rewrite E. cbn [rbind]. rewrite N, T, L.
  destruct rs as [|r rs]; [eexists; reflexivity|].
  assert (Hrs : r :: rs <> []) by discriminate.
  rewrite (len_nonzero _ Hrs).
  rewrite truediv_ok by (apply len_pos in Hrs; lia). cbn [rbind].
  destruct (min_spec _ (lengths_nonnil _ Hrs)) as [mn [-> _]].
  destruct (max_spec _ (lengths_nonnil _ Hrs)) as [mx [-> _]].
  cbn [rbind].
  destruct (draw_quality_plot_ok _ _ Q) as [qp ->].
  destruct (draw_content_plot_ok _ _ B) as [cp ->].
  simpl. eexists. reflexivity.
Qed.

(** ** Ingestion without validation (C1) *)

(** C1, as stated, fails: a record whose sequence has two symbols and
    whose quality has one score is ingested by every entry point, and the
    summary is produced. *)
Lemma mismatched_record_is_ingested :
  (exists rep out',
     Argparse.stats_command [mkRecord "AT" [30]] [] = (Ok (Some rep), out') /\
     Click.rep_total_sequences rep = 1 /\ Click.rep_total_length rep = 2) /\
  (exists an,
     Gui.run_analysis [mkRecord "AT" [30]] = Ok (Some an) /\
     Gui.a_total_sequences an = 1 /\
     option_map fst (Gui.quality_plot an) = Some [0%nat] /\
     option_map fst (Gui.content_plot an) = Some [0%nat; 1%nat]) /\
  (exists rep out',
     Click.quality false [mkRecord "AT" [30]] [] = (Ok (Some rep), out') /\
     Click.q_total_bases rep = 1).
Proof.
  split; [|split].
  - eexists. eexists. split; [vm_compute; reflexivity|]. split; reflexivity.
  - eexists. split; [vm_compute; reflexivity|]. repeat split.
  - eexists. eexists. split; [vm_compute; reflexivity|]. reflexivity.
Qed.

Lemma column_In {X} (f : FastqRecord -> list X) (p : nat)
  (rs : list FastqRecord) (x : X) :
  In x (flat_map (fun r => cell (f r) p) rs) ->
  exists r, In r rs /\ In x (f r).
Proof.
  intros H. apply in_flat_map in H. destruct H as [r [Hr Hx]].
  exists r. split; [exact Hr|]. unfold cell in Hx.
  destruct (nth_error (f r) p) as [y|] eqn:E; [|contradiction].
  destruct Hx as [<-|[]]. exact (nth_error_In _ _ E).
Qed.

(** Scores within the range of a float: no mean of such scores is beyond
    it. *)
Lemma sum_abs_le (M : Z) (l : list Z) :
  Forall (fun x => Z.abs x <= M) l -> Z.abs (sum l) <= M * len l.
Proof.
  induction 1 as [|x l Hx _ IH].
  - change (sum []) with 0. change (len (@nil Z)) with 0. lia.
  - rewrite sum_cons, len_cons. lia.
Qed.

Lemma within_float_range_spec (l : list Z) :
  forallb within_float_range l = true ->
  Forall (fun x => Z.abs x <= float_max) l.
Proof.
  rewrite forallb_forall. intros H. apply Forall_forall. intros x Hx.
  apply Z.leb_le. exact (H x Hx).
Qed.

Lemma column_scores (p : nat) (rs : list FastqRecord) (q : Z) :
  In q (qcolumn p rs) -> In q (scores rs).
Proof.
  intros H. destruct (column_In quality p rs q H) as [r [Hr Hq]].
  unfold scores. apply in_flat_map. exists r. split; assumption.
Qed.

Lemma column_fits (rs : list FastqRecord) (p : nat) :
  forallb within_float_range (scores rs) = true ->
  Z.abs (sum (qcolumn p rs)) <= float_max * len (qcolumn p rs).
Proof.
  intros H. apply within_float_range_spec in H. apply sum_abs_le.
  rewrite Forall_forall in *. intros q Hq. apply H.
  exact (column_scores p rs q Hq).
Qed.

Lemma read_fits (rs : list FastqRecord) :
  forallb within_float_range (scores rs) = true ->
  Forall (fun r => Z.abs (sum (quality r)) <= float_max * len (quality r))
    rs.
Proof.
  intros H. apply within_float_range_spec in H.
  rewrite Forall_forall in *. intros r Hr. apply sum_abs_le.
  apply Forall_forall. intros q Hq. apply H.
  unfold scores. apply in_flat_map. exists r. split; assumption.
Qed.

Lemma run_analysis_summary (rs : list FastqRecord) :
  rs <> [] ->
  exists an,
    Gui.run_analysis rs = Ok (Some an) /\
    Gui.a_total_sequences an = len rs /\
    Gui.a_total_length an = sum (lengths rs).
Proof.
  intros Hrs. unfold Gui.run_analysis.
  destruct (ingest_spec rs) as [a [E [L [N [T [Q B]]]]]].
  rewrite E. cbn [rbind]. rewrite N, T, L.
  rewrite (len_nonzero _ Hrs).
  rewrite truediv_ok by (apply len_pos in Hrs; lia). cbn [rbind].
  destruct (min_spec _ (lengths_nonnil _ Hrs)) as [mn [-> _]].
  destruct (max_spec _ (lengths_nonnil _ Hrs)) as [mx [-> _]].
  cbn [rbind].
  destruct (draw_quality_plot_ok _ _ Q) as [qp ->].
  destruct (draw_content_plot_ok _ _ B) as [cp ->].
  simpl. eexists. split; [reflexivity|]. split; reflexivity.
Qed.

(** C1, amended.  Neither the basic-statistics loop nor the loop of
    [run_analysis] compares the length of a record's sequence with the
    length of its quality scores, and there is no MalformedRecord
    condition: every record of every stream is ingested and counted,
    whatever its two lengths.  [calculate_basic_stats] counts every
    record; [stats_command] returns early on a stream without records and
    otherwise returns a summary over all records.  The loop of
    [run_analysis] files each score under its own position and each base
    under its own position; [run_analysis] shows the empty-file message on
    a stream without records and otherwise, the scores being within the
    range of a float (so that no mean of a position is beyond it),
    completes with a summary over all records. *)
Theorem ingestion_accepts_every_record :
  forall (rs : list FastqRecord) (out : Console),
    (exists st out',
        Click.calculate_basic_stats rs out = (Ok st, out') /\
        Click.total_sequences st = len rs) /\
    (exists summary out',
        Argparse.stats_command rs out = (Ok summary, out') /\
        (rs = [] -> summary = None) /\
        (rs <> [] ->
         exists rep,
           summary = Some rep /\
           Click.rep_total_sequences rep = len rs /\
           Click.rep_total_length rep = sum (lengths rs))) /\
    (exists a,
        Gui.ingest rs = Ok a /\
        Gui.total_sequences a = len rs /\
        (forall p, get Nat.eqb p (Gui.quality_per_position a)
                   = seen (fun c => c) (qcolumn p rs)) /\
        (forall p, get Nat.eqb p (Gui.base_content_per_position a)
                   = seen counts_of (bcolumn p rs))) /\
    (rs = [] -> Gui.run_analysis rs = Ok None) /\
    (rs <> [] ->
     forallb within_float_range (scores rs) = true ->
     (forall p, Z.abs (sum (qcolumn p rs))
                <= float_max * len (qcolumn p rs)) /\
     exists an,
       Gui.run_analysis rs = Ok (Some an) /\
       Gui.a_total_sequences an = len rs /\
       Gui.a_total_length an = sum (lengths rs)).
Proof.
  intros rs out. split; [|split; [|split; [|split]]].
  - destruct (calculate_basic_stats_spec rs) as [w H].
    eexists. exists (out ++ w). split; [apply H|reflexivity].
  - rewrite stats_command_eq. destruct rs as [|r rs].
    + exists None. eexists. split; [apply stats_empty|].
      split; [reflexivity|congruence].
    + destruct (stats_spec true (r :: rs)) as [mn [mx [w [_ [_ H]]]]];
        [discriminate|].
      eexists. eexists. split; [apply H|]. split; [discriminate|].
      intros _. eexists. split; [reflexivity|]. split; reflexivity.
  - destruct (ingest_spec rs) as [a [E [_ [N [_ [Q B]]]]]].
    exists a. auto.
  - intros ->. reflexivity.
  - intros Hrs Hq. split.
    + intros p. now apply column_fits.
    + now apply run_analysis_summary.
Qed.

Lemma ingestion_accepts_every_record_witness :
  exists an,
    Gui.run_analysis [mkRecord "AT" [30]; mkRecord "G" [10; 20; 40]]
    = Ok (Some an) /\
    Gui.a_total_sequences an = 2 /\ Gui.a_total_length an = 3.
Proof.
  destruct (ingestion_accepts_every_record
              [mkRecord "AT" [30]; mkRecord "G" [10; 20; 40]] [])
    as [_ [_ [_ [_ H]]]].
  destruct H as [_ H]; [discriminate|vm_compute; reflexivity|].
  exact H.
Defined.

(** ** Composition shares (C4) *)

Lemma occ_cons (b x : ascii) (col : list ascii) :
  occ b (x :: col) = (if Ascii.eqb b x then 1 else 0) + occ b col.
Proof.
  unfold occ. simpl filter. destruct (Ascii.eqb b x); [|lia].
  now rewrite len_cons.
Qed.

Lemma occ_nonneg (b : ascii) (col : list ascii) : 0 <= occ b col.
Proof. apply len_nonneg. Qed.

Lemma atgc_nonneg (col : list ascii) : 0 <= atgc col.
Proof.
  unfold atgc.
  pose proof (occ_nonneg "A" col). pose proof (occ_nonneg "T" col).
  pose proof (occ_nonneg "G" col). pose proof (occ_nonneg "C" col). lia.
Qed.

Lemma atgc_cons (x : ascii) (col : list ascii) :
  atgc (x :: col) = (if is_atgc x then 1 else 0) + atgc col.
Proof.
  unfold atgc. rewrite !occ_cons.
  destruct (is_atgc x) eqn:Hx.
  - destruct (is_atgc_cases x Hx) as [-> | [-> | [-> | -> ]]];
      cbn [Ascii.eqb Bool.eqb]; lia.
  - unfold is_atgc in Hx. cbn [Gui.in_str] in Hx.
    destruct (Ascii.eqb "A" x); [discriminate|].
    destruct (Ascii.eqb "T" x); [discriminate|].
    destruct (Ascii.eqb "G" x); [discriminate|].
    destruct (Ascii.eqb "C" x); [discriminate|]. lia.
Qed.

Lemma atgc_zero (col : list ascii) :
  (atgc col =? 0) = negb (existsb is_atgc col).
Proof.
  induction col as [|x col IH]; [reflexivity|].
  rewrite atgc_cons. simpl existsb. pose proof (atgc_nonneg col).
  destruct (is_atgc x); cbn [orb negb].
  - apply Z.eqb_neq. lia.
  - rewrite Z.add_0_l. exact IH.
Qed.

Lemma shares_total (a t g c n : Z) :
  a + t + g + c = n -> n <> 0 ->
  (percent a n + percent t n + percent g n + percent c n == 100)%Q.
Proof.
  intros Hn Hz. unfold percent.
  assert (Hq : ~ (inject_Z n == 0)%Q).
  { change 0%Q with (inject_Z 0). rewrite inject_Z_injective. exact Hz. }
  assert (Hs : (inject_Z a + inject_Z t + inject_Z g + inject_Z c
                == inject_Z n)%Q).
  { rewrite <- !inject_Z_plus. now rewrite Hn. }
  transitivity
    ((inject_Z a + inject_Z t + inject_Z g + inject_Z c) / inject_Z n * 100)%Q.
  - field. exact Hq.
  - rewrite Hs. field. exact Hq.
Qed.

(** C4, as stated, fails: at a position where A and N were observed,
    the share of A is 100 although not every base observed there is one of
    A, T, G, C; the shares do not sum to less than 100. *)
Lemma other_symbols_leave_the_shares_at_100 :
  exists a,
    Gui.ingest [mkRecord "A" [30]; mkRecord "N" [30]] = Ok a /\
    bcolumn 0 [mkRecord "A" [30]; mkRecord "N" [30]] = ["A"; "N"]%char /\
    Gui.share (Gui.base_content_per_position a) "A" 0 = Ok 100%Q /\
    Gui.share (Gui.base_content_per_position a) "T" 0 = Ok 0%Q /\
    Gui.share (Gui.base_content_per_position a) "G" 0 = Ok 0%Q /\
    Gui.share (Gui.base_content_per_position a) "C" 0 = Ok 0%Q /\
    ~ (100 + 0 + 0 + 0 < 100)%Q.
Proof.
  eexists. split; [vm_compute; reflexivity|].
  repeat (split; [reflexivity|]). discriminate.
Qed.

(** C4, amended.  For every position with at least one observed base,
    the share of each of A, T, G, C is its count divided by the number of
    A, T, G and C observed at that position, times 100; other symbols are
    not part of the denominator.  The four shares sum to exactly 100
    (in exact arithmetic) when at least one A, T, G or C was observed
    there, and all four are 0 otherwise. *)
Theorem composition_shares :
  forall (rs : list FastqRecord) (p : nat),
    bcolumn p rs <> [] ->
    exists a sA sT sG sC,
      Gui.ingest rs = Ok a /\
      Gui.share (Gui.base_content_per_position a) "A" p = Ok sA /\
      Gui.share (Gui.base_content_per_position a) "T" p = Ok sT /\
      Gui.share (Gui.base_content_per_position a) "G" p = Ok sG /\
      Gui.share (Gui.base_content_per_position a) "C" p = Ok sC /\
      if existsb is_atgc (bcolumn p rs)
      then sA = percent (occ "A" (bcolumn p rs)) (atgc (bcolumn p rs)) /\
           sT = percent (occ "T" (bcolumn p rs)) (atgc (bcolumn p rs)) /\
           sG = percent (occ "G" (bcolumn p rs)) (atgc (bcolumn p rs)) /\
           sC = percent (occ "C" (bcolumn p rs)) (atgc (bcolumn p rs)) /\
           (sA + sT + sG + sC == 100)%Q
      else sA = 0%Q /\ sT = 0%Q /\ sG = 0%Q /\ sC = 0%Q.
Proof.
  intros rs p Hcol.
  destruct (ingest_spec rs) as [a [E [_ [_ [_ [_ B]]]]]].
  specialize (B p).
  assert (G : get Nat.eqb p (Gui.base_content_per_position a)
              = Some (counts_of (bcolumn p rs))).
  { rewrite B. destruct (bcolumn p rs); [congruence|reflexivity]. }
  exists a. do 4 eexists. split; [exact E|].
  split; [apply (share_spec _ _ _ _ G); simpl; auto|].
  split; [apply (share_spec _ _ _ _ G); simpl; auto|].
  split; [apply (share_spec _ _ _ _ G); simpl; auto|].
  split; [apply (share_spec _ _ _ _ G); simpl; auto|].
  rewrite atgc_zero.
  destruct (existsb is_atgc (bcolumn p rs)) eqn:Ex; simpl negb; cbv iota.
  - repeat (split; [reflexivity|]).
    apply shares_total; [reflexivity|].
    pose proof (atgc_zero (bcolumn p rs)) as Z0. rewrite Ex in Z0.
    simpl in Z0. now apply Z.eqb_neq.
  - repeat split.
Qed.

Lemma composition_shares_witness :
  exists a sA sT sG sC,
    Gui.ingest [mkRecord "AN" [30; 30]; mkRecord "GN" [30; 30]] = Ok a /\
    Gui.share (Gui.base_content_per_position a) "A" 0 = Ok sA /\
    Gui.share (Gui.base_content_per_position a) "T" 0 = Ok sT /\
    Gui.share (Gui.base_content_per_position a) "G" 0 = Ok sG /\
    Gui.share (Gui.base_content_per_position a) "C" 0 = Ok sC /\
    sA = percent 1 2 /\ sT = percent 0 2 /\
    sG = percent 1 2 /\ sC = percent 0 2 /\
    (sA + sT + sG + sC == 100)%Q.
Proof.
  apply (composition_shares
           [mkRecord "AN" [30; 30]; mkRecord "GN" [30; 30]] 0).
  discriminate.
Defined.

(** ** What the accumulators hold (C9) *)

Lemma bases_repeat (r : FastqRecord) (n : nat) :
  bases (repeat r n) = Z.of_nat n * len (quality r).
Proof.
  unfold bases. induction n as [|n IH]; [reflexivity|].
  simpl repeat. simpl map. rewrite sum_cons, IH. lia.
Qed.

Lemma lengths_repeat (r : FastqRecord) (n : nat) :
  lengths (repeat r n) = repeat (slen (sequence r)) n.
Proof. unfold lengths. apply map_repeat. Qed.

Lemma nodup_repeat_len (x : Z) (n : nat) :
  0 <= len (nodup Z.eq_dec (repeat x n)) <= 1.
Proof.
  induction n as [|n IH]; [cbv; split; discriminate|].
  simpl repeat. simpl nodup.
  destruct (in_dec Z.eq_dec x (repeat x n)) as [Hin|Hin]; [exact IH|].
  destruct n as [|n]; [cbv; split; discriminate|].
  exfalso. apply Hin. now left.
Qed.

Lemma greatest_repeat (x : Z) (n : nat) :
  0 <= x -> 0 <= fold_left Z.max (repeat x n) 0 <= x.
Proof.
  intros Hx. destruct (fold_max_spec (repeat x n) 0) as [Hin _].
  cbv zeta in Hin. destruct Hin as [<-|Hin]; [lia|].
  apply repeat_spec in Hin. lia.
Qed.

(** C9, as stated, fails: [run_analysis] keeps, for each position, the
    list of every raw score observed there, and the number of stored
    scores exceeds every multiple of (distinct read lengths + greatest
    read length). *)
Lemma raw_scores_grow_with_the_stream :
  (exists a,
     Gui.ingest [mkRecord "A" [30]; mkRecord "A" [31]; mkRecord "A" [32]]
     = Ok a /\
     Gui.quality_per_position a = [(0%nat, [30; 31; 32])] /\
     Gui.sequence_lengths a = [1; 1; 1]) /\
  ~ (exists c,
       forall rs a,
         Gui.ingest rs = Ok a ->
         stored_values (Gui.quality_per_position a)
         <= c * (distinct_lengths rs + greatest_length rs)).
Proof.
  split.
  - eexists. split; [vm_compute; reflexivity|]. split; reflexivity.
  - intros [c H].
    set (n := Z.to_nat (2 * Z.max c 0 + 1)).
    set (rs := repeat (mkRecord "A" [30]) n).
    destruct (ingest_spec rs) as [a [E _]].
    specialize (H rs a E). rewrite (ingest_stored rs a E) in H.
    unfold rs in H. rewrite bases_repeat in H.
    unfold distinct_lengths, greatest_length in H.
    rewrite lengths_repeat in H.
    pose proof (nodup_repeat_len (slen (sequence (mkRecord "A" [30]))) n)
      as D.
    pose proof (greatest_repeat (slen (sequence (mkRecord "A" [30]))) n)
      as M.
    change (slen (sequence (mkRecord "A" [30]))) with 1 in *.
    change (len (quality (mkRecord "A" [30]))) with 1 in H.
    specialize (M ltac:(lia)).
    assert (Hn : Z.of_nat n = 2 * Z.max c 0 + 1) by (unfold n; lia).
    rewrite Hn in H. nia.
Qed.

(** C9, amended.  The loop of [run_analysis] keeps, for every position,
    the list of all raw quality scores observed at that position, in
    arrival order (the means are taken from these lists when the plot is
    drawn); the number of stored scores is the number of quality scores of
    the stream.  The loops of [run_analysis] and of the stats commands
    also keep one read length per record.  Only the base composition is
    kept as four running counters per position. *)
Theorem raw_scores_are_kept :
  forall (rs : list FastqRecord) (out : Console),
    (exists a,
        Gui.ingest rs = Ok a /\
        (forall p, get Nat.eqb p (Gui.quality_per_position a)
                   = seen (fun c => c) (qcolumn p rs)) /\
        stored_values (Gui.quality_per_position a) = bases rs /\
        Gui.sequence_lengths a = lengths rs /\
        (forall p, get Nat.eqb p (Gui.base_content_per_position a)
                   = seen counts_of (bcolumn p rs))) /\
    (exists st out',
        Click.calculate_basic_stats rs out = (Ok st, out') /\
        Click.sequence_lengths st = lengths rs).
Proof.
  intros rs out. split.
  - destruct (ingest_spec rs) as [a [E [L [_ [_ [Q B]]]]]].
    exists a. split; [exact E|]. split; [exact Q|].
    split; [now apply ingest_stored|]. split; [exact L|exact B].
  - destruct (calculate_basic_stats_spec rs) as [w H].
    eexists. exists (out ++ w). split; [apply H|reflexivity].
Qed.


(** * Further properties of the modelled code *)

(** ** The quality commands: outcomes and reported values *)

Lemma min_ok_spec (l : list Z) (m : Z) :
  min l = Ok m -> In m l /\ Forall (fun x => m <= x) l.
Proof.
  intros H. destruct l as [|a l]; [discriminate|].
  destruct (min_spec (a :: l)) as [m' [E P]]; [discriminate|].
  rewrite H in E. injection E as <-. exact P.
Qed.

Lemma max_ok_spec (l : list Z) (m : Z) :
  max l = Ok m -> In m l /\ Forall (fun x => x <= m) l.
Proof.
  intros H. destruct l as [|a l]; [discriminate|].
  destruct (max_spec (a :: l)) as [m' [E P]]; [discriminate|].
  rewrite H in E. injection E as <-. exact P.
Qed.

(** What [quality] reports on a stream of non-empty reads, with the
    per-read entries it has collected. *)
Lemma quality_spec_full (thresholds : bool) (rs : list FastqRecord) :
  rs <> [] ->
  Forall (fun r => quality r <> []) rs ->
  exists sqs mn mx w,
    Forall2 (fun r sq => Click.seq_quality (quality r) = Ok sq) rs sqs /\
    min (map Click.min_quality sqs) = Ok mn /\
    max (map Click.max_quality sqs) = Ok mx /\
    writes (Click.quality thresholds rs)
      (Ok (Some (Click.mkQualityReport (len rs) (bases rs)
                   (sumQ (map Click.mean_quality sqs) / inject_Z (len rs))%Q
                   mn mx
                   (percent (q20_total rs) (bases rs))
                   (percent (q30_total rs) (bases rs))
                   (Click.quality_grade
                      (percent (q20_total rs) (bases rs))
                      (percent (q30_total rs) (bases rs)))))) w.
Proof.
  intros Hrs HF.
  destruct (quality_loop_ok rs HF 0 []) as [sqs [w0 [H2 H0]]].
  destruct (sq_totals rs sqs H2) as [T1 [T2 [T3 Hne]]].
  specialize (Hne Hrs).
  assert (Hlen : len rs <> 0) by (apply len_pos in Hrs; lia).
  assert (Hb : bases rs <> 0) by (pose proof (bases_pos rs Hrs HF); lia).
  destruct (min_spec (map Click.min_quality sqs)) as [mn [Hmn _]].
  { destruct sqs; [congruence|discriminate]. }
  destruct (max_spec (map Click.max_quality sqs)) as [mx [Hmx _]].
  { destruct sqs; [congruence|discriminate]. }
  exists sqs, mn, mx.
  destruct thresholds; eexists; (split; [exact H2|]);
    (split; [exact Hmn|]); (split; [exact Hmx|]); unfold Click.quality;
    (eapply writes_bind; [apply writes_echo|]);
    (eapply writes_bind; [exact H0|]);
    cbv beta iota; simpl app; rewrite Z.add_0_l, (len_nonzero rs Hrs);
    rewrite T1, T2, T3;
    (eapply writes_bind;
      [unfold truedivQ; rewrite (len_nonzero rs Hrs); apply writes_lift|]);
    (eapply writes_bind; [rewrite Hmn; apply writes_lift|]);
    (eapply writes_bind; [rewrite Hmx; apply writes_lift|]);
    (eapply writes_bind; [rewrite (truediv_ok _ _ Hb); apply writes_lift|]);
    (eapply writes_bind; [rewrite (truediv_ok _ _ Hb); apply writes_lift|]);
    (eapply writes_bind; [apply writes_echo|]);
    (eapply writes_bind; [apply writes_echo|]);
    (eapply writes_bind; [first [apply writes_echo|apply writes_ret]|]);
    apply writes_ret.
Qed.

(** The three outcomes of [quality], by the shape of the stream. *)
Lemma quality_cases (thresholds : bool) (rs : list FastqRecord)
  (out : Console) :
  (rs = [] /\ fst (Click.quality thresholds rs out) = Ok None) \/
  (Exists (fun r => quality r = []) rs /\
   fst (Click.quality thresholds rs out) = Raise ZeroDivisionError) \/
  (rs <> [] /\ Forall (fun r => quality r <> []) rs /\
   exists sqs mn mx,
     Forall2 (fun r sq => Click.seq_quality (quality r) = Ok sq) rs sqs /\
     min (map Click.min_quality sqs) = Ok mn /\
     max (map Click.max_quality sqs) = Ok mx /\
     fst (Click.quality thresholds rs out)
     = Ok (Some (Click.mkQualityReport (len rs) (bases rs)
                   (sumQ (map Click.mean_quality sqs) / inject_Z (len rs))%Q
                   mn mx
                   (percent (q20_total rs) (bases rs))
                   (percent (q30_total rs) (bases rs))
                   (Click.quality_grade
                      (percent (q20_total rs) (bases rs))
                      (percent (q30_total rs) (bases rs)))))).
Proof.
  destruct (empty_or_not rs) as [HF|HE].
  - destruct rs as [|r rs].
    + left. split; [reflexivity|].
      now rewrite (quality_empty thresholds out).
    + right. right. assert (Hrs : r :: rs <> []) by discriminate.
      split; [exact Hrs|]. split; [exact HF|].
      destruct (quality_spec_full thresholds _ Hrs HF)
        as [sqs [mn [mx [w [H2 [Hmn [Hmx Hw]]]]]]].
      exists sqs, mn, mx. rewrite (Hw out). auto.
  - right. left. split; [exact HE|].
    destruct (quality_raises thresholds rs HE) as [w Hw].
    now rewrite (Hw out).
Qed.

Lemma exists_empty_not_all (rs : list FastqRecord) :
  Exists (fun r => quality r = []) rs ->
  Forall (fun r => quality r <> []) rs -> False.
Proof.
  intros HE HF. apply Exists_exists in HE. destruct HE as [r [Hin Hr]].
  rewrite Forall_forall in HF. exact (HF r Hin Hr).
Qed.

(** X1.  On scores within the range of a float (so that the mean of a
    read is never beyond it), [quality] ends in exactly one of three ways,
    decided by the stream alone: the early return iff the stream has no
    record; [ZeroDivisionError] iff some record has no quality score; a
    report iff the stream is non-empty and every record has a score.  It
    raises no other exception. *)
Theorem quality_outcomes :
  forall (thresholds : bool) (rs : list FastqRecord) (out : Console),
    forallb within_float_range (scores rs) = true ->
    Forall (fun r => Z.abs (sum (quality r)) <= float_max * len (quality r))
      rs /\
    (fst (Click.quality thresholds rs out) = Ok None <-> rs = []) /\
    (fst (Click.quality thresholds rs out) = Raise ZeroDivisionError
     <-> Exists (fun r => quality r = []) rs) /\
    ((exists rep, fst (Click.quality thresholds rs out) = Ok (Some rep))
     <-> rs <> [] /\ Forall (fun r => quality r <> []) rs) /\
    (forall e, fst (Click.quality thresholds rs out) = Raise e ->
               e = ZeroDivisionError).
Proof.
  intros thresholds rs out Hfit. split; [now apply read_fits|].
  destruct (quality_cases thresholds rs out)
    as [[E H]|[[E H]|[Hrs [HF [sqs [mn [mx [_ [_ [_ H]]]]]]]]]];
    rewrite H;
    (split; [split; intros H0
            |split; [split; intros H0
                    |split; [split; intros H0|intros e H0]]]).
  - exact E.
  - reflexivity.
  - discriminate H0.
  - subst rs. inversion H0.
  - destruct H0 as [rep H0]. discriminate H0.
  - destruct H0 as [H0 _]. congruence.
  - discriminate H0.
  - discriminate H0.
  - subst rs. inversion E.
  - exact E.
  - reflexivity.
  - destruct H0 as [rep H0]. discriminate H0.
  - destruct H0 as [_ H0]. exfalso. eapply exists_empty_not_all; eauto.
  - congruence.
  - discriminate H0.
  - congruence.
  - discriminate H0.
  - exfalso. eapply exists_empty_not_all; eauto.
  - split; assumption.
  - eexists. reflexivity.
  - discriminate H0.
Qed.

Lemma quality_outcomes_witness :
  fst (Click.quality false
         [mkRecord "ATGC" [30; 30; 30; 30]; mkRecord "" []] [])
  = Raise ZeroDivisionError.
Proof.
  destruct (quality_outcomes false
              [mkRecord "ATGC" [30; 30; 30; 30]; mkRecord "" []] [])
    as [_ [_ [[_ H] _]]]; [vm_compute; reflexivity|].
  apply H. right. left. reflexivity.
Defined.

Lemma quality_report_shape (thresholds : bool) (rs : list FastqRecord)
  (out : Console) (rep : Click.QualityReport) :
  fst (Click.quality thresholds rs out) = Ok (Some rep) ->
  rs <> [] /\ Forall (fun r => quality r <> []) rs /\
  exists sqs mn mx,
    Forall2 (fun r sq => Click.seq_quality (quality r) = Ok sq) rs sqs /\
    min (map Click.min_quality sqs) = Ok mn /\
    max (map Click.max_quality sqs) = Ok mx /\
    rep = Click.mkQualityReport (len rs) (bases rs)
            (sumQ (map Click.mean_quality sqs) / inject_Z (len rs))%Q
            mn mx
            (percent (q20_total rs) (bases rs))
            (percent (q30_total rs) (bases rs))
            (Click.quality_grade
               (percent (q20_total rs) (bases rs))
               (percent (q30_total rs) (bases rs))).
Proof.
  intros H.
  destruct (quality_cases thresholds rs out)
    as [[_ E]|[[_ E]|[Hrs [HF [sqs [mn [mx [H2 [Hmn [Hmx E]]]]]]]]]];
    rewrite E in H; try discriminate H.
  injection H as <-. split; [exact Hrs|]. split; [exact HF|].
  exists sqs, mn, mx. auto.
Qed.

Lemma count_if_app (p : Z -> bool) (l1 l2 : list Z) :
  count_if p (l1 ++ l2) = count_if p l1 + count_if p l2.
Proof. unfold count_if. now rewrite filter_app, map_app, sum_app. Qed.

Lemma count_if_range (p : Z -> bool) (l : list Z) :
  0 <= count_if p l <= len l.
Proof.
  induction l as [|x l IH]; [cbv; split; discriminate|].
  rewrite count_if_cons, len_cons. destruct (p x); lia.
Qed.

Lemma len_app {A} (l1 l2 : list A) : len (l1 ++ l2) = len l1 + len l2.
Proof. unfold len. rewrite length_app. lia. Qed.

Lemma bases_scores (rs : list FastqRecord) : bases rs = len (scores rs).
Proof.
  unfold bases, scores. induction rs as [|r rs IH]; [reflexivity|].
  simpl. now rewrite sum_cons, len_app, IH.
Qed.

Lemma count_if_scores (p : Z -> bool) (rs : list FastqRecord) :
  sum (map (fun r => count_if p (quality r)) rs) = count_if p (scores rs).
Proof.
  unfold scores. induction rs as [|r rs IH]; [reflexivity|].
  simpl. now rewrite sum_cons, count_if_app, IH.
Qed.

(** X2.  A report of [quality] counts the records and the quality scores
    of the stream, and its two percentages are the shares of the scores
    of at least 20 and of at least 30 among all scores of the stream:
    [0 <= q30_percentage <= q20_percentage <= 100]. *)
Theorem quality_report_totals :
  forall (thresholds : bool) (rs : list FastqRecord) (out : Console)
         (rep : Click.QualityReport),
    fst (Click.quality thresholds rs out) = Ok (Some rep) ->
    Click.q_total_sequences rep = len rs /\
    Click.q_total_bases rep = len (scores rs) /\
    0 < Click.q_total_bases rep /\
    Click.q20_percentage rep
    = percent (count_if (fun q => 20 <=? q) (scores rs)) (len (scores rs)) /\
    Click.q30_percentage rep
    = percent (count_if (fun q => 30 <=? q) (scores rs)) (len (scores rs)) /\
    (0 <= Click.q30_percentage rep)%Q /\
    (Click.q30_percentage rep <= Click.q20_percentage rep)%Q /\
    (Click.q20_percentage rep <= 100)%Q.
Proof.
  intros thresholds rs out rep H.
  destruct (quality_report_shape _ _ _ _ H)
    as [Hrs [HF [sqs [mn [mx [_ [_ [_ ->]]]]]]]].
  pose proof (bases_pos rs Hrs HF) as Hb. simpl.
  unfold q20_total, q30_total. rewrite !count_if_scores.
  rewrite bases_scores in *.
  pose proof (count_if_range (fun q => 20 <=? q) (scores rs)) as R20.
  pose proof (count_if_range (fun q => 30 <=? q) (scores rs)) as R30.
  pose proof (q30_le_q20_count (scores rs)) as M.
  repeat (split; [first [reflexivity|assumption]|]).
  split; [apply percent_bounds; [lia|assumption]|].
  split; [now apply percent_mono|].
  apply percent_bounds; [lia|assumption].
Qed.

Lemma quality_report_totals_witness :
  exists rep,
    fst (Click.quality false
           [mkRecord "ATGC" [30; 30; 30; 30]; mkRecord "AT" [10; 10];
            mkRecord "GGCC" [40; 40; 20; 20]] []) = Ok (Some rep) /\
    Click.q_total_sequences rep = 3 /\
    Click.q_total_bases rep = 10 /\
    Click.q20_percentage rep = percent 8 10 /\
    Click.q30_percentage rep = percent 6 10.
Proof.
  eexists. split; [reflexivity|].
  destruct (quality_report_totals false
              [mkRecord "ATGC" [30; 30; 30; 30]; mkRecord "AT" [10; 10];
               mkRecord "GGCC" [40; 40; 20; 20]] [] _ eq_refl)
    as [H1 [H2 [_ [H3 [H4 _]]]]].
  repeat split; assumption.
Defined.

Lemma read_extremes_in_scores (rs : list FastqRecord)
  (sqs : list Click.SeqQuality) :
  Forall2 (fun r sq => Click.seq_quality (quality r) = Ok sq) rs sqs ->
  (forall m, In m (map Click.min_quality sqs) -> In m (scores rs)) /\
  (forall m, In m (map Click.max_quality sqs) -> In m (scores rs)) /\
  (forall b, Forall (fun x => b <= x) (map Click.min_quality sqs) ->
             Forall (fun x => b <= x) (scores rs)) /\
  (forall b, Forall (fun x => x <= b) (map Click.max_quality sqs) ->
             Forall (fun x => x <= b) (scores rs)).
Proof.
  unfold scores.
  induction 1 as [|r sq rs sqs Hsq _ [I1 [I2 [I3 I4]]]]; simpl.
  - repeat split; intros; tauto || constructor.
  - destruct (seq_quality_fields _ _ Hsq) as [_ [_ [Hmn [Hmx _]]]].
    apply min_ok_spec in Hmn. apply max_ok_spec in Hmx.
    destruct Hmn as [Hmn1 Hmn2]. destruct Hmx as [Hmx1 Hmx2].
    repeat split.
    + intros m [<-|Hm]; apply in_or_app; [left|right]; auto.
    + intros m [<-|Hm]; apply in_or_app; [left|right]; auto.
    + intros b Hb. inversion Hb as [|? ? Hb1 Hb2]; subst.
      apply Forall_app. split; [|auto].
      eapply Forall_impl; [|exact Hmn2]. intros x Hx. simpl in Hx. lia.
    + intros b Hb. inversion Hb as [|? ? Hb1 Hb2]; subst.
      apply Forall_app. split; [|auto].
      eapply Forall_impl; [|exact Hmx2]. intros x Hx. simpl in Hx. lia.
Qed.

Lemma quality_extremes_spec (thresholds : bool) (rs : list FastqRecord)
  (out : Console) (rep : Click.QualityReport) :
  fst (Click.quality thresholds rs out) = Ok (Some rep) ->
  In (Click.min_quality_all rep) (scores rs) /\
  Forall (fun q => Click.min_quality_all rep <= q) (scores rs) /\
  In (Click.max_quality_all rep) (scores rs) /\
  Forall (fun q => q <= Click.max_quality_all rep) (scores rs).
Proof.
  intros H.
  destruct (quality_report_shape _ _ _ _ H)
    as [_ [_ [sqs [mn [mx [H2 [Hmn [Hmx ->]]]]]]]].
  simpl. apply min_ok_spec in Hmn. apply max_ok_spec in Hmx.
  destruct Hmn as [Hmn1 Hmn2]. destruct Hmx as [Hmx1 Hmx2].
  destruct (read_extremes_in_scores rs sqs H2) as [I1 [I2 [I3 I4]]].
  auto.
Qed.

(** X3.  The minimum and maximum quality of a report are the least and
    the greatest of all individual base scores of the stream (the extremes
    of the per-read extremes are the extremes over all bases). *)
Theorem quality_report_extremes :
  forall (thresholds : bool) (rs : list FastqRecord) (out : Console)
         (rep : Click.QualityReport),
    fst (Click.quality thresholds rs out) = Ok (Some rep) ->
    In (Click.min_quality_all rep) (scores rs) /\
    Forall (fun q => Click.min_quality_all rep <= q) (scores rs) /\
    In (Click.max_quality_all rep) (scores rs) /\
    Forall (fun q => q <= Click.max_quality_all rep) (scores rs).
Proof.
  intros thresholds rs out rep H.
  exact (quality_extremes_spec thresholds rs out rep H).
Qed.

Lemma quality_report_extremes_witness :
  exists rep,
    fst (Click.quality false
           [mkRecord "ATGC" [30; 30; 30; 30]; mkRecord "AT" [10; 10];
            mkRecord "GGCC" [40; 40; 20; 20]] []) = Ok (Some rep) /\
    In (Click.min_quality_all rep) [30; 30; 30; 30; 10; 10; 40; 40; 20; 20] /\
    Forall (fun q => Click.min_quality_all rep <= q)
      [30; 30; 30; 30; 10; 10; 40; 40; 20; 20].
Proof.
  eexists. split; [reflexivity|].
  destruct (quality_report_extremes false
              [mkRecord "ATGC" [30; 30; 30; 30]; mkRecord "AT" [10; 10];
               mkRecord "GGCC" [40; 40; 20; 20]] [] _ eq_refl)
    as [H1 [H2 _]].
  split; assumption.
Defined.




Lemma sum_between (a b : Z) (l : list Z) :
  Forall (fun x => a <= x <= b) l ->
  len l * a <= sum l <= len l * b.
Proof.
  induction 1 as [|x l Hx _ IH].
  - cbv. split; discriminate.
  - rewrite sum_cons, len_cons. lia.
Qed.

Lemma quotient_between (a b s n : Z) :
  0 < n -> n * a <= s <= n * b ->
  (inject_Z a <= inject_Z s / inject_Z n /\
   inject_Z s / inject_Z n <= inject_Z b)%Q.
Proof.
  intros Hn [H1 H2].
  assert (Hq : (0 < inject_Z n)%Q).
  { change 0%Q with (inject_Z 0). now rewrite <- Zlt_Qlt. }
  split.
  - apply Qle_shift_div_l; [exact Hq|].
    rewrite <- inject_Z_mult, <- Zle_Qle. lia.
  - apply Qle_shift_div_r; [exact Hq|].
    rewrite <- inject_Z_mult, <- Zle_Qle. lia.
Qed.






(** ** The grade *)

(** X5.  The grade is monotone: raising either percentage never lowers
    the grade (Poor < Acceptable < Good < Excellent). *)
Theorem quality_grade_monotone :
  forall q20 q30 q20' q30' : Q,
    (q20 <= q20')%Q -> (q30 <= q30')%Q ->
    grade_rank (Click.quality_grade q20 q30)
    <= grade_rank (Click.quality_grade q20' q30').
Proof.
  intros q20 q30 q20' q30' H20 H30. unfold Click.quality_grade.
  assert (T : (60 <= 80)%Q) by discriminate.
  repeat match goal with
    | |- context [Qle_bool ?a ?b] => destruct (Qle_bool a b) eqn:?
    end;
  simpl; try lia; exfalso;
  repeat match goal with
    | H : Qle_bool _ _ = true |- _ => apply Qle_bool_iff in H
    end;
  repeat match goal with
    | H : (80 <= ?x)%Q |- _ =>
        lazymatch goal with
        | _ : (60 <= x)%Q |- _ => fail
        | _ => pose proof (Qle_trans _ _ _ T H)
        end
    end;
  match goal with
  | H : Qle_bool ?a ?b = false, H1 : (?a <= ?y)%Q, H2 : (?y <= ?b)%Q |- _ =>
      assert (Qle_bool a b = true)
        by (apply Qle_bool_iff; exact (Qle_trans _ _ _ H1 H2));
      congruence
  end.
Qed.

Lemma quality_grade_monotone_witness :
  grade_rank (Click.quality_grade 50 50)
  <= grade_rank (Click.quality_grade 85 70).
Proof.
  apply quality_grade_monotone; discriminate.
Defined.


(** ** Progress lines *)

Lemma basic_body_console (st : Click.BasicStats) (r : FastqRecord) :
  writes (Click.basic_body st r)
    (Ok (Click.mkBasicStats
           (Click.total_sequences st + 1)
           (Click.total_length st + slen (sequence r))
           (Click.sequence_lengths st ++ [slen (sequence r)])
           (Click.gc_count st + gc_of (sequence r))
           (Click.total_bases st + slen (sequence r))))
    (if (Click.total_sequences st + 1) mod 10000 =? 0
     then [EchoProgress (Click.total_sequences st + 1)] else []).
Proof.
  unfold Click.basic_body.
  destruct ((Click.total_sequences st + 1) mod 10000 =? 0).
  - change [EchoProgress (Click.total_sequences st + 1)]
      with ([EchoProgress (Click.total_sequences st + 1)] ++ []).
    eapply writes_bind; [apply writes_echo|apply writes_ret].
  - change (@nil Echo) with (@nil Echo ++ []).
    eapply writes_bind; apply writes_ret.
Qed.

Lemma basic_loop_console (rs : list FastqRecord) (st : Click.BasicStats) :
  writes (for_each Click.basic_body rs st)
    (Ok (Click.mkBasicStats
           (Click.total_sequences st + len rs)
           (Click.total_length st + sum (lengths rs))
           (Click.sequence_lengths st ++ lengths rs)
           (Click.gc_count st + gc_total rs)
           (Click.total_bases st + sum (lengths rs))))
    (progress_lines (Click.total_sequences st) (List.length rs)).
Proof.
  revert st. induction rs as [|r rs IH]; intros st.
  - simpl for_each. simpl progress_lines.
    replace (Click.mkBasicStats _ _ _ _ _) with st; [apply writes_ret|].
    destruct st; simpl. unfold len, gc_total; simpl.
    rewrite !Z.add_0_r, app_nil_r. reflexivity.
  - pose proof (basic_body_console st r) as H1.
    match type of H1 with writes _ (Ok ?s) _ => pose proof (IH s) as H2 end.
    simpl for_each. cbn [List.length progress_lines].
    eapply writes_bind; [exact H1|].
    simpl in H2. unfold gc_total in *. simpl lengths. simpl map.
    rewrite !sum_cons, len_cons.
    rewrite <- !app_assoc in H2. simpl app in H2.
    rewrite !Z.add_assoc. exact H2.
Qed.

Lemma progress_lines_snoc (n : nat) :
  forall done,
    progress_lines done (S n)
    = progress_lines done n
      ++ (if (done + Z.of_nat (S n)) mod 10000 =? 0
          then [EchoProgress (done + Z.of_nat (S n))] else []).
Proof.
  induction n as [|n IH]; intros done.
  - simpl progress_lines. now rewrite app_nil_r.
  - change (progress_lines done (S (S n)))
      with ((if (done + 1) mod 10000 =? 0
             then [EchoProgress (done + 1)] else [])
            ++ progress_lines (done + 1) (S n)).
    rewrite IH. cbn [progress_lines]. rewrite <- app_assoc.
    replace (done + 1 + Z.of_nat (S n)) with (done + Z.of_nat (S (S n)))
      by lia.
    reflexivity.
Qed.

Lemma batch_step (m : Z) :
  0 <= m ->
  ((m + 1) mod 10000 = 0 /\
   (m + 1) / 10000 = m / 10000 + 1 /\
   10000 * (m / 10000 + 1) = m + 1) \/
  ((m + 1) mod 10000 <> 0 /\ (m + 1) / 10000 = m / 10000).
Proof.
  intros Hm.
  pose proof (Z.div_mod m 10000 ltac:(discriminate)) as E.
  pose proof (Z.mod_pos_bound m 10000 ltac:(reflexivity)) as B.
  pose proof (Z.div_mod (m + 1) 10000 ltac:(discriminate)) as E'.
  pose proof (Z.mod_pos_bound (m + 1) 10000 ltac:(reflexivity)) as B'.
  destruct (Z.eq_dec ((m + 1) mod 10000) 0) as [H0|H0]; [left|right]; lia.
Qed.

Lemma progress_lines_marks (n : nat) :
  progress_lines 0 n = progress_marks (Z.of_nat n).
Proof.
  induction n as [|n IH]; [reflexivity|].
  rewrite progress_lines_snoc, IH, Z.add_0_l. unfold progress_marks.
  replace (Z.of_nat (S n)) with (Z.of_nat n + 1) by lia.
  assert (Hq : 0 <= Z.of_nat n / 10000) by (apply Z.div_pos; lia).
  destruct (batch_step (Z.of_nat n)) as [[Hm [Hd Hz]]|[Hm Hd]]; [lia| |];
    rewrite Hd.
  - rewrite Hm. simpl Z.eqb. cbv iota.
    rewrite Z2Nat.inj_add by lia. change (Z.to_nat 1) with 1%nat.
    rewrite Nat.add_1_r, seq_S, map_app. simpl map. simpl Nat.add.
    f_equal. f_equal. f_equal. rewrite <- Hz. lia.
  - apply Z.eqb_neq in Hm. rewrite Hm. now rewrite app_nil_r.
Qed.

(** X6.  The basic-statistics loop echoes one progress line after each
    full batch of 10000 records, carrying the running count, and nothing
    else: a stream of fewer than 10000 records leaves the console as it
    was. *)
Theorem progress_every_10000_records :
  forall (rs : list FastqRecord) (out : Console),
    exists st,
      Click.calculate_basic_stats rs out
      = (Ok st,
         out ++ map (fun k => EchoProgress (10000 * Z.of_nat k))
                  (seq 1 (Z.to_nat (len rs / 10000)))) /\
      (len rs < 10000 ->
       Click.calculate_basic_stats rs out = (Ok st, out)).
Proof.
  intros rs out.
  pose proof (basic_loop_console rs Click.basic_init out) as H.
  change (Click.total_sequences Click.basic_init) with 0 in H.
  rewrite progress_lines_marks in H. unfold progress_marks in H.
  fold (len rs) in H.
  eexists. split; [exact H|].
  intros Hlt. unfold Click.calculate_basic_stats. rewrite H.
  rewrite (Z.div_small (len rs) 10000) by (pose proof (len_nonneg rs); lia).
  simpl. now rewrite app_nil_r.
Qed.

Lemma progress_every_10000_records_witness :
  exists st,
    Click.calculate_basic_stats
      [mkRecord "ATGC" [30; 30; 30; 30]; mkRecord "AT" [10; 10]] [EchoHeader]
    = (Ok st, [EchoHeader]).
Proof.
  destruct (progress_every_10000_records
              [mkRecord "ATGC" [30; 30; 30; 30]; mkRecord "AT" [10; 10]]
              [EchoHeader]) as [st [_ H]].
  exists st. apply H. reflexivity.
Defined.


(** ** The basic statistics *)

Lemma gc_total_app (rs1 rs2 : list FastqRecord) :
  gc_total (rs1 ++ rs2) = gc_total rs1 + gc_total rs2.
Proof. unfold gc_total. now rewrite map_app, sum_app. Qed.

Lemma lengths_app (rs1 rs2 : list FastqRecord) :
  lengths (rs1 ++ rs2) = lengths rs1 ++ lengths rs2.
Proof. apply map_app. Qed.

(** X7.  The accumulators of the basic-statistics loop are additive: on
    a stream made of two parts, every counter is the sum of the counters
    of the parts and the list of read lengths is the concatenation of
    theirs. *)
Theorem basic_stats_of_two_parts :
  forall (rs1 rs2 : list FastqRecord) (out : Console),
  exists st1 st2 st o1 o2 o,
    Click.calculate_basic_stats rs1 out = (Ok st1, o1) /\
    Click.calculate_basic_stats rs2 out = (Ok st2, o2) /\
    Click.calculate_basic_stats (rs1 ++ rs2) out = (Ok st, o) /\
    Click.total_sequences st
    = Click.total_sequences st1 + Click.total_sequences st2 /\
    Click.total_length st = Click.total_length st1 + Click.total_length st2 /\
    Click.sequence_lengths st
    = Click.sequence_lengths st1 ++ Click.sequence_lengths st2 /\
    Click.gc_count st = Click.gc_count st1 + Click.gc_count st2 /\
    Click.total_bases st = Click.total_bases st1 + Click.total_bases st2.
Proof.
  intros rs1 rs2 out.
  destruct (calculate_basic_stats_spec rs1) as [w1 H1].
  destruct (calculate_basic_stats_spec rs2) as [w2 H2].
  destruct (calculate_basic_stats_spec (rs1 ++ rs2)) as [w H].
  do 3 eexists. exists (out ++ w1), (out ++ w2), (out ++ w).
  split; [apply H1|]. split; [apply H2|]. split; [apply H|]. simpl.
  rewrite len_app, lengths_app, sum_app, gc_total_app. auto.
Qed.

Lemma sum_perm (l l' : list Z) : Permutation l l' -> sum l = sum l'.
Proof.
  induction 1 as [|x l l' _ IH|x y l|l l' l'' _ IH1 _ IH2].
  - reflexivity.
  - now rewrite !sum_cons, IH.
  - rewrite !sum_cons. lia.
  - congruence.
Qed.

Lemma min_perm (l l' : list Z) (m m' : Z) :
  Permutation l l' -> min l = Ok m -> min l' = Ok m' -> m = m'.
Proof.
  intros P H H'. apply min_ok_spec in H, H'.
  destruct H as [I1 F1]. destruct H' as [I2 F2].
  rewrite Forall_forall in F1, F2.
  pose proof (F1 m' (Permutation_in _ (Permutation_sym P) I2)).
  pose proof (F2 m (Permutation_in _ P I1)). lia.
Qed.

Lemma max_perm (l l' : list Z) (m m' : Z) :
  Permutation l l' -> max l = Ok m -> max l' = Ok m' -> m = m'.
Proof.
  intros P H H'. apply max_ok_spec in H, H'.
  destruct H as [I1 F1]. destruct H' as [I2 F2].
  rewrite Forall_forall in F1, F2.
  pose proof (F1 m' (Permutation_in _ (Permutation_sym P) I2)).
  pose proof (F2 m (Permutation_in _ P I1)). lia.
Qed.

Lemma len_perm {A} (l l' : list A) : Permutation l l' -> len l = len l'.
Proof. intros P. unfold len. now rewrite (Permutation_length P). Qed.

Lemma gc_content_of_perm (rs rs' : list FastqRecord) :
  Permutation rs rs' -> gc_content_of rs = gc_content_of rs'.
Proof.
  intros P. unfold gc_content_of, gc_total, lengths.
  now rewrite (sum_perm _ _ (Permutation_map _ P)),
    (sum_perm _ _ (Permutation_map (fun r => gc_of (sequence r)) P)).
Qed.

(** The shape of every report of [stats]. *)
Lemma stats_report_shape (detailed : bool) (rs : list FastqRecord)
  (out : Console) (rep : Click.StatsReport) :
  fst (Click.stats detailed rs out) = Ok (Some rep) ->
  rs <> [] /\
  exists mn mx,
    min (lengths rs) = Ok mn /\ max (lengths rs) = Ok mx /\
    rep = Click.mkStatsReport (len rs) (sum (lengths rs))
            (inject_Z (sum (lengths rs)) / inject_Z (len rs))%Q
            mn mx (gc_content_of rs)
            (if detailed then distribution_of rs else []).
Proof.
  intros H. destruct rs as [|r rs].
  - rewrite (stats_empty detailed out) in H. discriminate H.
  - assert (Hrs : r :: rs <> []) by discriminate.
    destruct (stats_spec detailed _ Hrs) as [mn [mx [w [Hmn [Hmx Hw]]]]].
    rewrite (Hw out) in H. injection H as <-.
    split; [exact Hrs|]. exists mn, mx. auto.
Qed.

Lemma basic_values_perm (d d' : bool) (rs rs' : list FastqRecord)
  (out out' : Console) (rep rep' : Click.StatsReport) :
  Permutation rs rs' ->
  fst (Click.stats d rs out) = Ok (Some rep) ->
  fst (Click.stats d' rs' out') = Ok (Some rep') ->
  basic_values rep = basic_values rep'.
Proof.
  intros P H H'.
  destruct (stats_report_shape _ _ _ _ H) as [_ [mn [mx [Hmn [Hmx ->]]]]].
  destruct (stats_report_shape _ _ _ _ H')
    as [_ [mn' [mx' [Hmn' [Hmx' ->]]]]].
  assert (PL : Permutation (lengths rs) (lengths rs'))
    by (apply Permutation_map; exact P).
  unfold basic_values. simpl.
  rewrite (len_perm _ _ P), (sum_perm _ _ PL), (gc_content_of_perm _ _ P).
  rewrite (min_perm _ _ _ _ PL Hmn Hmn'), (max_perm _ _ _ _ PL Hmx Hmx').
  reflexivity.
Qed.

(** X8.  The basic statistics do not depend on the order of the records:
    on a reordered stream [stats] without [--detailed] gives the same
    outcome, and with [--detailed] it reports the same six basic values
    (only the length distribution can change). *)
Theorem stats_ignore_record_order :
  forall (rs rs' : list FastqRecord) (out : Console),
    Permutation rs rs' ->
    fst (Click.stats false rs out) = fst (Click.stats false rs' out) /\
    (forall rep rep',
        fst (Click.stats true rs out) = Ok (Some rep) ->
        fst (Click.stats true rs' out) = Ok (Some rep') ->
        basic_values rep = basic_values rep').
Proof.
  intros rs rs' out P. split.
  - destruct rs as [|r rs].
    + apply Permutation_nil in P. now subst.
    + destruct rs' as [|r' rs'];
        [apply Permutation_sym, Permutation_nil in P; discriminate|].
      destruct (stats_spec false (r :: rs)) as [mn [mx [w [Hmn [Hmx H]]]]];
        [discriminate|].
      destruct (stats_spec false (r' :: rs'))
        as [mn' [mx' [w' [Hmn' [Hmx' H']]]]]; [discriminate|].
      assert (PL : Permutation (lengths (r :: rs)) (lengths (r' :: rs')))
        by (apply Permutation_map; exact P).
      rewrite (H out), (H' out). cbn [fst].
      rewrite (len_perm _ _ P), (sum_perm _ _ PL),
        (gc_content_of_perm _ _ P).
      rewrite (min_perm _ _ _ _ PL Hmn Hmn'), (max_perm _ _ _ _ PL Hmx Hmx').
      reflexivity.
  - intros rep rep'. now apply basic_values_perm.
Qed.

Lemma stats_ignore_record_order_witness :
  fst (Click.stats false
         [mkRecord "ATGC" [30; 30; 30; 30]; mkRecord "AT" [10; 10]] [])
  = fst (Click.stats false
           [mkRecord "AT" [10; 10]; mkRecord "ATGC" [30; 30; 30; 30]] []).
Proof.
  apply (stats_ignore_record_order
           [mkRecord "ATGC" [30; 30; 30; 30]; mkRecord "AT" [10; 10]]
           [mkRecord "AT" [10; 10]; mkRecord "ATGC" [30; 30; 30; 30]] []).
  apply perm_swap.
Defined.

(** X9.  In every report of [stats] the mean length lies between the
    minimum and the maximum length, and no length is negative. *)
Theorem mean_length_between_extremes :
  forall (detailed : bool) (rs : list FastqRecord) (out : Console)
         (rep : Click.StatsReport),
    fst (Click.stats detailed rs out) = Ok (Some rep) ->
    0 <= Click.min_length rep /\
    (inject_Z (Click.min_length rep) <= Click.mean_length rep)%Q /\
    (Click.mean_length rep <= inject_Z (Click.max_length rep))%Q.
Proof.
  intros detailed rs out rep H.
  destruct (stats_report_shape _ _ _ _ H) as [Hrs [mn [mx [Hmn [Hmx ->]]]]].
  simpl. apply min_ok_spec in Hmn. apply max_ok_spec in Hmx.
  destruct Hmn as [Imn Fmn]. destruct Hmx as [_ Fmx].
  split.
  - unfold lengths in Imn. apply in_map_iff in Imn.
    destruct Imn as [r [<- _]]. unfold slen. lia.
  - assert (Hl : len (lengths rs) = len rs)
      by (unfold len, lengths; now rewrite length_map).
    rewrite <- Hl. apply quotient_between.
    + rewrite Hl. now apply len_pos.
    + apply sum_between. rewrite Forall_forall in *.
      intros x Hx. split; auto.
Qed.

Lemma mean_length_between_extremes_witness :
  exists rep,
    fst (Click.stats false
           [mkRecord "ATGC" [30; 30; 30; 30]; mkRecord "AT" [10; 10]] [])
    = Ok (Some rep) /\
    (inject_Z (Click.min_length rep) <= Click.mean_length rep)%Q /\
    (Click.mean_length rep <= inject_Z (Click.max_length rep))%Q.
Proof.
  eexists. split; [reflexivity|].
  destruct (mean_length_between_extremes false
              [mkRecord "ATGC" [30; 30; 30; 30]; mkRecord "AT" [10; 10]] []
              _ eq_refl) as [_ H].
  exact H.
Defined.

Lemma upper_char_gc (a : ascii) :
  (if Ascii.eqb (upper_char a) "G" then 1 else 0)
  + (if Ascii.eqb (upper_char a) "C" then 1 else 0)
  = if is_gc a then 1 else 0.
Proof.
  destruct a as [b0 b1 b2 b3 b4 b5 b6 b7].
  destruct b0, b1, b2, b3, b4, b5, b6, b7; reflexivity.
Qed.

Lemma gc_of_filter (s : string) :
  gc_of s = len (filter is_gc (list_ascii_of_string s)).
Proof.
  unfold gc_of. induction s as [|a s IH]; [reflexivity|].
  cbn [upper count list_ascii_of_string filter].
  pose proof (upper_char_gc a) as E.
  destruct (is_gc a); [rewrite len_cons|]; lia.
Qed.

Lemma slen_symbols (s : string) : slen s = len (list_ascii_of_string s).
Proof.
  unfold slen, len. induction s as [|a s IH]; [reflexivity|].
  simpl. lia.
Qed.

Lemma gc_total_symbols (rs : list FastqRecord) :
  gc_total rs = len (filter is_gc (symbols rs)) /\
  sum (lengths rs) = len (symbols rs).
Proof.
  unfold gc_total, lengths, symbols.
  induction rs as [|r rs [IH1 IH2]]; [split; reflexivity|].
  cbn [map flat_map].
  rewrite !sum_cons, filter_app, !len_app, IH1, IH2, gc_of_filter,
    slen_symbols.
  split; reflexivity.
Qed.

(** X10.  [gc_count] counts case-insensitively: after any stream it is
    the number of symbols that are one of G, g, C, c, while [total_bases]
    is the number of all symbols; so [0 <= gc_count <= total_bases]. *)
Theorem gc_count_ignores_case :
  forall (rs : list FastqRecord) (out : Console),
  exists st out',
    Click.calculate_basic_stats rs out = (Ok st, out') /\
    Click.gc_count st = len (filter is_gc (symbols rs)) /\
    Click.total_bases st = len (symbols rs) /\
    0 <= Click.gc_count st <= Click.total_bases st.
Proof.
  intros rs out.
  destruct (calculate_basic_stats_spec rs) as [w H].
  destruct (gc_total_symbols rs) as [E1 E2].
  eexists. exists (out ++ w). split; [apply H|]. simpl.
  split; [exact E1|]. split; [exact E2|]. apply gc_total_bounds.
Qed.

(** ** What the commands read *)

Lemma basic_loop_ext (rs rs' : list FastqRecord) :
  map sequence rs = map sequence rs' ->
  forall st out,
    for_each Click.basic_body rs st out = for_each Click.basic_body rs' st out.
Proof.
  revert rs'. induction rs as [|r rs IH]; intros [|r' rs'] E;
    try discriminate; [reflexivity|].
  injection E as E1 E2. intros st out. simpl for_each. unfold bind.
  assert (B : Click.basic_body st r = Click.basic_body st r').
  { unfold Click.basic_body. now rewrite E1. }
  rewrite B. destruct (Click.basic_body st r' out) as [[st1|e] out1];
    [apply IH; exact E2|reflexivity].
Qed.

Lemma quality_loop_ext (rs rs' : list FastqRecord) :
  map quality rs = map quality rs' ->
  forall st out,
    for_each Click.quality_body rs st out
    = for_each Click.quality_body rs' st out.
Proof.
  revert rs'. induction rs as [|r rs IH]; intros [|r' rs'] E;
    try discriminate; [reflexivity|].
  injection E as E1 E2. intros st out. simpl for_each. unfold bind.
  assert (B : Click.quality_body st r = Click.quality_body st r').
  { unfold Click.quality_body. now rewrite E1. }
  rewrite B. destruct (Click.quality_body st r' out) as [[st1|e] out1];
    [apply IH; exact E2|reflexivity].
Qed.

(** X11.  The stats commands read only the sequences of the records, and
    the quality commands only their quality scores: two streams with the
    same sequences get the same stats outcome and console, two streams
    with the same quality lists the same quality outcome and console. *)
Theorem commands_read_one_field :
  forall (rs rs' : list FastqRecord) (flag : bool) (out : Console),
    (map sequence rs = map sequence rs' ->
     Click.stats flag rs out = Click.stats flag rs' out /\
     Argparse.stats_command rs out = Argparse.stats_command rs' out) /\
    (map quality rs = map quality rs' ->
     Click.quality flag rs out = Click.quality flag rs' out /\
     Argparse.quality_command rs out = Argparse.quality_command rs' out).
Proof.
  intros rs rs' flag out. split; intros E.
  - assert (S : forall d, Click.stats d rs out = Click.stats d rs' out).
    { intros d. unfold Click.stats, Click.calculate_basic_stats, bind.
      destruct (echo EchoHeader out) as [[[]|e] out0]; [|reflexivity].
      now rewrite (basic_loop_ext rs rs' E). }
    split; [apply S|]. rewrite !stats_command_eq. apply S.
  - split.
    + unfold Click.quality, bind.
      destruct (echo EchoHeader out) as [[[]|e] out0]; [|reflexivity].
      now rewrite (quality_loop_ext rs rs' E).
    + unfold Argparse.quality_command, bind.
      destruct (echo EchoHeader out) as [[[]|e] out0]; [|reflexivity].
      now rewrite (quality_loop_ext rs rs' E).
Qed.

Lemma commands_read_one_field_witness :
  Click.stats true [mkRecord "AT" [30]] []
  = Click.stats true [mkRecord "AT" [1; 2; 3]] [] /\
  Click.quality true [mkRecord "AT" [30; 20]] []
  = Click.quality true [mkRecord "" [30; 20]] [].
Proof.
  split.
  - apply (commands_read_one_field [mkRecord "AT" [30]]
             [mkRecord "AT" [1; 2; 3]] true []). reflexivity.
  - apply (commands_read_one_field [mkRecord "AT" [30; 20]]
             [mkRecord "" [30; 20]] true []). reflexivity.
Defined.

(** ** The lines of the length distribution *)

Lemma in_firstn_in {A} (k : nat) (l : list A) (x : A) :
  In x (firstn k l) -> In x l.
Proof.
  revert k. induction l as [|y l IH]; intros [|k]; simpl; try tauto.
  intros [H|H]; [now left|right; eauto].
Qed.

Lemma firstn_keeps_NoDup {A} (k : nat) (l : list A) :
  NoDup l -> NoDup (firstn k l).
Proof.
  intros H. revert k. induction H as [|x l Hx _ IH]; intros [|k]; simpl;
    try constructor.
  - intros Hin. apply Hx. eapply in_firstn_in; eassumption.
  - apply IH.
Qed.

Lemma strongly_sorted_app {A} (R : A -> A -> Prop) (l1 l2 : list A) :
  StronglySorted R (l1 ++ l2) ->
  forall a b, In a l1 -> In b l2 -> R a b.
Proof.
  induction l1 as [|x l1 IH]; intros H a b Ha Hb; [destruct Ha|].
  simpl in H. inversion H as [|? ? Hs Hf]; subst.
  destruct Ha as [<-|Ha].
  - rewrite Forall_forall in Hf. apply Hf. apply in_or_app. now right.
  - now apply IH.
Qed.

Lemma occurrences_cons (x y : Z) (l : list Z) :
  occurrences x (y :: l) = (if x =? y then 1 else 0) + occurrences x l.
Proof. unfold occurrences. apply count_if_cons. Qed.

Lemma occurrences_nonneg (x : Z) (l : list Z) : 0 <= occurrences x l.
Proof. unfold occurrences. apply count_if_range. Qed.

Lemma occurrences_pos (x : Z) (l : list Z) : In x l -> 1 <= occurrences x l.
Proof.
  induction l as [|y l IH]; [intros []|].
  rewrite occurrences_cons. pose proof (occurrences_nonneg x l).
  intros [->|Hin].
  - rewrite Z.eqb_refl. lia.
  - specialize (IH Hin). destruct (x =? y); lia.
Qed.

Lemma counted_In (l : list Z) (x c : Z) :
  In (x, c) (counted l) <-> In x l /\ c = occurrences x l.
Proof.
  unfold counted. rewrite in_map_iff. split.
  - intros [y [E Hy]]. injection E as <- <-.
    now rewrite first_occurrences_In in Hy.
  - intros [Hx ->]. exists x. now rewrite first_occurrences_In.
Qed.

Lemma counted_keys (l : list Z) : map fst (counted l) = first_occurrences l.
Proof. unfold counted. rewrite map_map. simpl. apply map_id. Qed.

Lemma distinct_count (l : list Z) :
  len (first_occurrences l) = len (nodup Z.eq_dec l).
Proof.
  apply len_perm. apply NoDup_Permutation.
  - apply first_occurrences_NoDup.
  - apply NoDup_nodup.
  - intros x. now rewrite first_occurrences_In, nodup_In.
Qed.

Lemma set_total (k v : Z) (d : list (Z * Z)) :
  sum (map snd (set Z.eqb k v d))
  = sum (map snd d) + v - or_default (get Z.eqb k d) 0.
Proof.
  induction d as [|[k' v'] d IH]; simpl.
  - rewrite sum_cons. unfold sum. simpl. lia.
  - destruct (k' =? k); simpl; rewrite !sum_cons; simpl; [lia|].
    rewrite IH. lia.
Qed.

Lemma length_counts_total (l : list Z) :
  sum (map snd (Click.length_counts l)) = len l.
Proof.
  unfold Click.length_counts.
  assert (G : forall d, sum (map snd (fold_left Click.count_length l d))
                        = sum (map snd d) + len l).
  { induction l as [|x l IH]; intros d.
    - unfold len. simpl. lia.
    - simpl fold_left. rewrite IH, len_cons. unfold Click.count_length.
      rewrite set_total. destruct (get Z.eqb x d); cbn [or_default]; lia. }
  rewrite G. reflexivity.
Qed.

(** The ranked dict behind the lines of a report. *)
Lemma distribution_shape (rs : list FastqRecord) (out : Console)
  (rep : Click.StatsReport) :
  fst (Click.stats true rs out) = Ok (Some rep) ->
  rs <> [] /\
  Click.distribution rep
  = map (fun item => (fst item, snd item, percent (snd item) (len rs)))
      (firstn 10 (sorted Click.by_count_desc (counted (lengths rs)))).
Proof.
  intros H.
  destruct (stats_report_shape _ _ _ _ H) as [Hrs [mn [mx [_ [_ ->]]]]].
  split; [exact Hrs|]. simpl.
  unfold distribution_of, Click.sorted_lengths, slice_to.
  now rewrite length_counts_counted.
Qed.

(** X12.  The length distribution of a report has one line per distinct
    read length, at most 10 lines; the listed lengths are pairwise
    different, each occurs in the stream, and each line carries the true
    number of reads of that length (at least 1) and
    [count / total_sequences * 100]. *)
Theorem distribution_lines :
  forall (rs : list FastqRecord) (out : Console) (rep : Click.StatsReport),
    fst (Click.stats true rs out) = Ok (Some rep) ->
    len (Click.distribution rep) = Z.min 10 (distinct_lengths rs) /\
    NoDup (map (fun line => fst (fst line)) (Click.distribution rep)) /\
    Forall (fun line =>
              In (fst (fst line)) (lengths rs) /\
              snd (fst line) = occurrences (fst (fst line)) (lengths rs) /\
              1 <= snd (fst line) /\
              snd line = percent (snd (fst line)) (len rs))
      (Click.distribution rep).
Proof.
  intros rs out rep H.
  destruct (distribution_shape rs out rep H) as [_ ->].
  set (ranked := sorted Click.by_count_desc (counted (lengths rs))).
  assert (P : Permutation ranked (counted (lengths rs)))
    by apply sorted_perm.
  split; [|split].
  - unfold distinct_lengths, len.
    rewrite length_map, length_firstn, (Permutation_length P).
    unfold counted. rewrite length_map.
    pose proof (distinct_count (lengths rs)) as D. unfold len in D. lia.
  - rewrite map_map. cbn [fst snd].
    change (fun x : Z * Z => fst x) with (@fst Z Z).
    rewrite <- firstn_map. apply firstn_keeps_NoDup.
    apply (Permutation_NoDup (Permutation_sym (Permutation_map fst P))).
    rewrite counted_keys. apply first_occurrences_NoDup.
  - apply Forall_forall. intros line Hl. apply in_map_iff in Hl.
    destruct Hl as [[l c] [<- Hin]]. simpl.
    apply in_firstn_in in Hin. apply (Permutation_in _ P) in Hin.
    apply counted_In in Hin. destruct Hin as [Hin ->].
    split; [exact Hin|]. split; [reflexivity|].
    split; [now apply occurrences_pos|reflexivity].
Qed.

Lemma distribution_lines_witness :
  exists rep,
    fst (Click.stats true
           [mkRecord "ATGC" [30; 30; 30; 30]; mkRecord "AT" [10; 10];
            mkRecord "GGCC" [40; 40; 20; 20]] []) = Ok (Some rep) /\
    len (Click.distribution rep) = 2 /\
    NoDup (map (fun line => fst (fst line)) (Click.distribution rep)).
Proof.
  eexists. split; [reflexivity|].
  destruct (distribution_lines
              [mkRecord "ATGC" [30; 30; 30; 30]; mkRecord "AT" [10; 10];
               mkRecord "GGCC" [40; 40; 20; 20]] [] _ eq_refl)
    as [H1 [H2 _]].
  split; [exact H1|exact H2].
Defined.

(** X13.  The listed lengths are the most frequent ones: a read length
    of the stream that is not listed occurs no more often than any listed
    length. *)
Theorem distribution_lists_the_most_frequent :
  forall (rs : list FastqRecord) (out : Console) (rep : Click.StatsReport)
         (l : Z),
    fst (Click.stats true rs out) = Ok (Some rep) ->
    In l (lengths rs) ->
    ~ In l (map (fun line => fst (fst line)) (Click.distribution rep)) ->
    Forall (fun line => occurrences l (lengths rs) <= snd (fst line))
      (Click.distribution rep).
Proof.
  intros rs out rep l H Hl Hnot.
  destruct (distribution_shape rs out rep H) as [_ E]. rewrite E in *.
  set (ranked := sorted Click.by_count_desc (counted (lengths rs))) in *.
  assert (P : Permutation ranked (counted (lengths rs)))
    by apply sorted_perm.
  assert (Hr : In (l, occurrences l (lengths rs)) ranked).
  { apply (Permutation_in _ (Permutation_sym P)). now apply counted_In. }
  rewrite <- (firstn_skipn 10 ranked) in Hr. apply in_app_or in Hr.
  destruct Hr as [Hr|Hr].
  - exfalso. apply Hnot. rewrite map_map. simpl.
    apply in_map_iff. exists (l, occurrences l (lengths rs)). auto.
  - pose proof (ranked_strongly_sorted (counted (lengths rs))) as S.
    fold ranked in S. rewrite <- (firstn_skipn 10 ranked) in S.
    apply Forall_forall. intros line Hline. apply in_map_iff in Hline.
    destruct Hline as [item [<- Hitem]]. simpl.
    exact (strongly_sorted_app _ _ _ S _ _ Hitem Hr).
Qed.

Lemma distribution_lists_the_most_frequent_witness :
  exists rep,
    fst (Click.stats true long_stream []) = Ok (Some rep) /\
    Forall (fun line => occurrences 11 (lengths long_stream)
                        <= snd (fst line))
      (Click.distribution rep).
Proof.
  assert (Hrs : long_stream <> []) by (unfold long_stream; discriminate).
  destruct (stats_spec true long_stream Hrs) as [mn [mx [w [_ [_ H]]]]].
  eexists. split; [rewrite (H []); reflexivity|].
  apply (distribution_lists_the_most_frequent long_stream [] _ 11).
  - rewrite (H []). reflexivity.
  - vm_compute. tauto.
  - cbn [Click.distribution]. vm_compute. intros Hin.
    repeat (destruct Hin as [Hin|Hin]; [discriminate Hin|]). exact Hin.
Defined.

(** X14.  The counts of the listed lines never add up to more than
    [total_sequences]; when the stream has at most 10 distinct read
    lengths every length is listed and the counts add up to
    [total_sequences] exactly. *)
Theorem distribution_counts_total :
  forall (rs : list FastqRecord) (out : Console) (rep : Click.StatsReport),
    fst (Click.stats true rs out) = Ok (Some rep) ->
    sum (map (fun line => snd (fst line)) (Click.distribution rep))
    <= Click.rep_total_sequences rep /\
    (distinct_lengths rs <= 10 ->
     sum (map (fun line => snd (fst line)) (Click.distribution rep))
     = Click.rep_total_sequences rep /\
     forall l, In l (lengths rs) ->
               In l (map (fun line => fst (fst line))
                       (Click.distribution rep))).
Proof.
  intros rs out rep H.
  destruct (distribution_shape rs out rep H) as [_ E]. rewrite E.
  destruct (stats_report_shape _ _ _ _ H) as [_ [mn [mx [_ [_ ->]]]]].
  cbn [Click.rep_total_sequences].
  set (ranked := sorted Click.by_count_desc (counted (lengths rs))).
  assert (P : Permutation ranked (counted (lengths rs)))
    by apply sorted_perm.
  assert (T : sum (map snd ranked) = len rs).
  { rewrite (sum_perm _ _ (Permutation_map snd P)).
    rewrite <- length_counts_counted, length_counts_total.
    unfold len, lengths. now rewrite length_map. }
  rewrite !map_map. cbn [fst snd].
  change (fun x : Z * Z => snd x) with (@snd Z Z).
  change (fun x : Z * Z => fst x) with (@fst Z Z).
  split.
  - assert (Hs : sum (map snd ranked)
                 = sum (map snd (firstn 10 ranked))
                   + sum (map snd (skipn 10 ranked)))
      by (now rewrite <- sum_app, <- map_app, firstn_skipn).
    assert (0 <= sum (map snd (skipn 10 ranked))); [|lia].
    apply sum_nonneg. apply Forall_forall. intros c Hc.
    apply in_map_iff in Hc. destruct Hc as [[l c'] [<- Hin]].
    assert (Hin' : In (l, c') ranked).
    { rewrite <- (firstn_skipn 10 ranked). apply in_or_app. now right. }
    apply (Permutation_in _ P) in Hin'. apply counted_In in Hin'.
    destruct Hin' as [_ ->]. apply occurrences_nonneg.
  - intros Hd.
    assert (F : firstn 10 ranked = ranked).
    { apply firstn_all2. rewrite (Permutation_length P).
      unfold counted. rewrite length_map.
      unfold distinct_lengths in Hd.
      pose proof (distinct_count (lengths rs)) as D. unfold len in *. lia. }
    rewrite F. split; [exact T|].
    intros l Hl. apply in_map_iff.
    exists (l, occurrences l (lengths rs)). split; [reflexivity|].
    apply (Permutation_in _ (Permutation_sym P)). now apply counted_In.
Qed.

Lemma distribution_counts_total_witness :
  exists rep,
    fst (Click.stats true
           [mkRecord "ATGC" [30; 30; 30; 30]; mkRecord "AT" [10; 10];
            mkRecord "GGCC" [40; 40; 20; 20]] []) = Ok (Some rep) /\
    sum (map (fun line => snd (fst line)) (Click.distribution rep)) = 3.
Proof.
  eexists. split; [reflexivity|].
  destruct (distribution_counts_total
              [mkRecord "ATGC" [30; 30; 30; 30]; mkRecord "AT" [10; 10];
               mkRecord "GGCC" [40; 40; 20; 20]] [] _ eq_refl) as [_ H].
  apply H. vm_compute. discriminate.
Defined.

(** ** The lines echoed by stats *)

Lemma length_lines_console (total : Z) (items : list (Z * Z))
  (acc : list (Z * Z * Q)) :
  total <> 0 ->
  writes (for_each (Click.length_line total) items acc)
    (Ok (acc ++ map (fun item =>
                       (fst item, snd item, percent (snd item) total))
                  items))
    (map (fun item => EchoLength (fst item) (snd item)
                        (percent (snd item) total)) items).
Proof.
  intros Ht. revert acc.
  induction items as [|[l c] items IH]; intros acc; simpl for_each.
  - simpl map. rewrite app_nil_r. apply writes_ret.
  - pose proof (IH (acc ++ [(l, c, percent c total)])) as Hw.
    cbn [map fst snd].
    change (EchoLength l c (percent c total) :: ?t)
      with (([] ++ [EchoLength l c (percent c total)] ++ []) ++ t).
    eapply writes_bind.
    { unfold Click.length_line.
      eapply writes_bind.
      { rewrite (truediv_ok c total Ht). apply writes_lift. }
      eapply writes_bind; [apply writes_echo|apply writes_ret]. }
    rewrite <- app_assoc in Hw. exact Hw.
Qed.

Lemma stats_console_spec (detailed : bool) (rs : list FastqRecord) :
  rs <> [] ->
  exists mn mx,
    min (lengths rs) = Ok mn /\ max (lengths rs) = Ok mx /\
    writes (Click.stats detailed rs)
      (Ok (Some (Click.mkStatsReport (len rs) (sum (lengths rs))
                   (inject_Z (sum (lengths rs)) / inject_Z (len rs))%Q
                   mn mx (gc_content_of rs)
                   (if detailed then distribution_of rs else []))))
      (EchoHeader
       :: progress_marks (len rs)
       ++ EchoBasic (len rs) (sum (lengths rs))
            (inject_Z (sum (lengths rs)) / inject_Z (len rs))%Q
            mn mx (gc_content_of rs)
       :: (if detailed
           then EchoLengthHeader
                :: map (fun item => EchoLength (fst item) (snd item)
                                      (percent (snd item) (len rs)))
                     (Click.sorted_lengths (lengths rs))
           else [])).
Proof.
  intros Hrs.
  destruct (min_spec (lengths rs) (lengths_nonnil rs Hrs)) as [mn [Hmn _]].
  destruct (max_spec (lengths rs) (lengths_nonnil rs Hrs)) as [mx [Hmx _]].
  pose proof (basic_loop_console rs Click.basic_init) as H0.
  change (Click.total_sequences Click.basic_init) with 0 in H0.
  rewrite progress_lines_marks in H0. fold (len rs) in H0.
  assert (Hlen : len rs <> 0) by (apply len_pos in Hrs; lia).
  pose proof (length_lines_console (len rs)
                (Click.sorted_lengths (lengths rs)) [] Hlen) as Hd.
  exists mn, mx. split; [exact Hmn|]. split; [exact Hmx|].
  match goal with
  | |- writes ?m ?r ?target =>
      assert (W : exists w, writes m r w /\ w = target);
      [|destruct W as [w [W ->]]; exact W]
  end.
  destruct detailed; eexists; (split;
    [unfold Click.stats;
     (eapply writes_bind; [apply writes_echo|]);
     (eapply writes_bind; [exact H0|]);
     cbv beta; simpl Click.total_sequences; simpl Click.total_length;
     simpl Click.sequence_lengths; simpl Click.gc_count;
     simpl Click.total_bases;
     rewrite (len_nonzero rs Hrs);
     (eapply writes_bind;
       [rewrite (truediv_ok _ _ Hlen); apply writes_lift|]);
     (eapply writes_bind; [rewrite Hmn; apply writes_lift|]);
     (eapply writes_bind; [rewrite Hmx; apply writes_lift|]);
     (eapply writes_bind; [apply gc_content_writes|]);
     (eapply writes_bind; [apply writes_echo|])
    |]).
  - eapply writes_bind.
    { eapply writes_bind; [apply writes_echo|exact Hd]. }
    apply writes_ret.
  - cbn [app]. now rewrite !app_nil_r.
  - eapply writes_bind; apply writes_ret.
  - cbn [app]. reflexivity.
Qed.

(** X15.  [stats] echoes, in this order: the header; one progress line
    per full batch of 10000 records; one line with the six reported basic
    values; and, only with [--detailed], the distribution header followed
    by one line per entry of the reported distribution.  Without
    [--detailed] the reported distribution is empty and the basic values
    are the same. *)
Theorem stats_console :
  forall (detailed : bool) (rs : list FastqRecord) (out : Console),
    rs <> [] ->
    exists rep,
      Click.stats detailed rs out
      = (Ok (Some rep),
         out ++ EchoHeader
         :: map (fun k => EchoProgress (10000 * Z.of_nat k))
              (seq 1 (Z.to_nat (len rs / 10000)))
         ++ EchoBasic (Click.rep_total_sequences rep)
              (Click.rep_total_length rep) (Click.mean_length rep)
              (Click.min_length rep) (Click.max_length rep)
              (Click.gc_content rep)
         :: (if detailed
             then EchoLengthHeader
                  :: map (fun line => EchoLength (fst (fst line))
                                        (snd (fst line)) (snd line))
                       (Click.distribution rep)
             else [])) /\
      (detailed = false -> Click.distribution rep = []) /\
      exists rep',
        fst (Click.stats (negb detailed) rs out) = Ok (Some rep') /\
        basic_values rep' = basic_values rep.
Proof.
  intros detailed rs out Hrs.
  destruct (stats_console_spec detailed rs Hrs) as [mn [mx [Hmn [Hmx H]]]].
  destruct (stats_console_spec (negb detailed) rs Hrs)
    as [mn' [mx' [Hmn' [Hmx' H']]]].
  assert (mn' = mn) by congruence. assert (mx' = mx) by congruence. subst.
  eexists. split; [|split].
  - rewrite (H out). f_equal. f_equal. cbn [Click.rep_total_sequences
      Click.rep_total_length Click.mean_length Click.min_length
      Click.max_length Click.gc_content Click.distribution].
    unfold progress_marks. f_equal. f_equal. f_equal.
    destruct detailed; [|reflexivity].
    unfold distribution_of. rewrite map_map. reflexivity.
  - intros ->. reflexivity.
  - eexists. rewrite (H' out). split; reflexivity.
Qed.

Lemma stats_console_witness :
  exists rep,
    Click.stats false [mkRecord "ATGC" [30; 30; 30; 30]] []
    = (Ok (Some rep),
       [EchoHeader;
        EchoBasic (Click.rep_total_sequences rep)
          (Click.rep_total_length rep) (Click.mean_length rep)
          (Click.min_length rep) (Click.max_length rep)
          (Click.gc_content rep)]) /\
    Click.distribution rep = [].
Proof.
  destruct (stats_console false [mkRecord "ATGC" [30; 30; 30; 30]] [])
    as [rep [H1 [H2 _]]]; [discriminate|].
  exists rep. split; [exact H1|]. apply H2. reflexivity.
Defined.

(** ** The keys of the position dicts *)

Section DictKeys.
Context {K V : Type} (eqb : K -> K -> bool).
Hypothesis eqb_spec : forall a b, reflect (a = b) (eqb a b).

Lemma get_some_key (k : K) (v : V) (d : dict) :
  get eqb k d = Some v -> In k (keys d).
Proof.
  unfold keys. induction d as [|[k' v'] d IH]; simpl; [discriminate|].
  destruct (eqb_spec k' k); auto.
Qed.

Lemma get_none_key (k : K) (d : dict (V:=V)) :
  get eqb k d = None -> ~ In k (keys d).
Proof.
  intros G Hin. destruct (get_of_key eqb eqb_spec k d Hin) as [v Hv].
  congruence.
Qed.

Lemma set_keys (k : K) (v : V) (d : dict) :
  keys (set eqb k v d)
  = match get eqb k d with
    | Some _ => keys d
    | None => keys d ++ [k]
    end.
Proof.
  unfold keys. induction d as [|[k' v'] d IH]; simpl; [reflexivity|].
  destruct (eqb_spec k' k); simpl; [reflexivity|].
  rewrite IH. now destruct (get eqb k d).
Qed.

Lemma set_keys_NoDup (k : K) (v : V) (d : dict) :
  NoDup (keys d) -> NoDup (keys (set eqb k v d)).
Proof.
  intros H. rewrite set_keys. destruct (get eqb k d) eqn:G; [exact H|].
  apply NoDup_app; [exact H|repeat constructor; intros []|].
  intros x Hx [<-|[]]. exact (get_none_key k d G Hx).
Qed.
End DictKeys.

Lemma rfor_each_keeps {S X} (upd : S -> X -> result S) (P : S -> Prop) :
  (forall s x s', upd s x = Ok s' -> P s -> P s') ->
  forall xs s s', Gui.rfor_each upd xs s = Ok s' -> P s -> P s'.
Proof.
  intros Hupd. induction xs as [|x xs IH]; intros s s' H Hs; simpl in H.
  - injection H as <-. exact Hs.
  - destruct (upd s x) as [s1|e] eqn:E; [|discriminate H].
    simpl in H. eapply IH; [exact H|]. eapply Hupd; eassumption.
Qed.

Lemma add_quality_keys (d d' : Gui.QualityData) (iq : nat * Z) :
  Gui.add_quality d iq = Ok d' -> NoDup (keys d) -> NoDup (keys d').
Proof.
  destruct iq as [i q]. unfold Gui.add_quality. rewrite mem_get.
  destruct (get Nat.eqb i d) as [l|] eqn:G; simpl negb; cbv iota.
  - rewrite (getitem_get _ _ _ _ G). simpl. intros H. injection H as <-.
    apply (set_keys_NoDup _ Nat.eqb_spec).
  - rewrite (getitem_get _ _ _ _ (get_set_same _ Nat.eqb_spec i [] d)).
    simpl. intros H. injection H as <-. intros Hd.
    now do 2 apply (set_keys_NoDup _ Nat.eqb_spec).
Qed.

Lemma add_base_keys (d d' : Gui.ContentData) (ib : nat * ascii) :
  Gui.add_base d ib = Ok d' -> NoDup (keys d) -> NoDup (keys d').
Proof.
  destruct ib as [i b]. unfold Gui.add_base.
  set (d1 := if negb (mem Nat.eqb i d)
             then set Nat.eqb i Gui.zero_counts d else d).
  intros H Hd.
  assert (H1 : NoDup (keys d1)).
  { unfold d1. destruct (negb (mem Nat.eqb i d)); [|exact Hd].
    now apply (set_keys_NoDup _ Nat.eqb_spec). }
  destruct (Gui.in_str b "ATGC"); [|injection H as <-; exact H1].
  destruct (getitem Nat.eqb i d1) as [v|e]; [|discriminate H].
  simpl in H. destruct (getitem Ascii.eqb b v) as [c|e]; [|discriminate H].
  simpl in H. injection H as <-.
  now apply (set_keys_NoDup _ Nat.eqb_spec).
Qed.

Lemma analysis_body_keys (a a' : Gui.Acc) (r : FastqRecord) :
  Gui.analysis_body a r = Ok a' ->
  NoDup (keys (Gui.quality_per_position a)) /\
  NoDup (keys (Gui.base_content_per_position a)) ->
  NoDup (keys (Gui.quality_per_position a')) /\
  NoDup (keys (Gui.base_content_per_position a')).
Proof.
  unfold Gui.analysis_body. cbv zeta.
  match goal with
  | |- rbind ?m _ = _ -> _ =>
      destruct m as [qd|e] eqn:Eq; [|simpl; discriminate]
  end.
  simpl rbind.
  match goal with
  | |- rbind ?m _ = _ -> _ =>
      destruct m as [bd|e] eqn:Eb; [|simpl; discriminate]
  end.
  simpl. intros H [Hq Hb]. injection H as <-. simpl. split.
  - exact (rfor_each_keeps _ (fun d => NoDup (keys d))
             (fun d iq d' => add_quality_keys d d' iq) _ _ _ Eq Hq).
  - exact (rfor_each_keeps _ (fun d => NoDup (keys d))
             (fun d ib d' => add_base_keys d d' ib) _ _ _ Eb Hb).
Qed.

Lemma ingest_keys (rs : list FastqRecord) (a : Gui.Acc) :
  Gui.ingest rs = Ok a ->
  NoDup (keys (Gui.quality_per_position a)) /\
  NoDup (keys (Gui.base_content_per_position a)).
Proof.
  intros H.
  apply (rfor_each_keeps _
           (fun a => NoDup (keys (Gui.quality_per_position a)) /\
                     NoDup (keys (Gui.base_content_per_position a)))
           (fun a0 r a1 => analysis_body_keys a0 a1 r)
           rs Gui.acc_init a H).
  split; constructor.
Qed.

(** ** Positions in ascending order *)

Lemma leb_total (x y : nat) : Nat.leb x y = false -> Nat.leb y x = true.
Proof. intros H. apply Nat.leb_gt in H. apply Nat.leb_le. lia. Qed.

Lemma strictly_sorted_range (m : nat) :
  forall (a : nat) (l : list nat),
    StronglySorted lt l ->
    (forall p, In p l <-> (a <= p < a + m)%nat) ->
    l = seq a m.
Proof.
  induction m as [|m IH]; intros a l S M.
  - destruct l as [|x l]; [reflexivity|].
    exfalso. specialize (M x). simpl in M. lia.
  - destruct l as [|x l].
    + exfalso. specialize (M a). simpl in M. lia.
    + inversion S as [|? ? S' F]; subst. rewrite Forall_forall in F.
      assert (Hx : x = a).
      { pose proof (proj1 (M x) (or_introl eq_refl)) as Hx.
        pose proof (proj2 (M a) ltac:(lia)) as Ha.
        destruct Ha as [Ha|Ha]; [lia|]. specialize (F a Ha). lia. }
      subst x. simpl. f_equal. apply IH; [exact S'|].
      intros p. split.
      * intros Hp. pose proof (F p Hp).
        pose proof (proj1 (M p) (or_intror Hp)). lia.
      * intros Hp. destruct (proj2 (M p) ltac:(lia)) as [E|Hin];
          [lia|exact Hin].
Qed.

Lemma sorted_positions (l : list nat) (m : nat) :
  NoDup l ->
  (forall p, In p l <-> (p < m)%nat) ->
  sorted Nat.leb l = seq 0 m.
Proof.
  intros ND M.
  pose proof (sorted_perm Nat.leb l) as P.
  pose proof (sorted_sorted Nat.leb leb_total l) as S.
  assert (ND' : NoDup (sorted Nat.leb l))
    by (apply (Permutation_NoDup (Permutation_sym P)); exact ND).
  apply strictly_sorted_range.
  - apply Sorted_StronglySorted in S;
      [|intros x y z Hxy Hyz; apply Nat.leb_le in Hxy, Hyz;
        apply Nat.leb_le; lia].
    revert S ND'. generalize (sorted Nat.leb l) as s.
    induction s as [|x s IH]; intros S ND'; constructor.
    + inversion S; inversion ND'; subst. now apply IH.
    + inversion S as [|? ? _ F]; inversion ND' as [|? ? Hx _]; subst.
      rewrite Forall_forall in *. intros y Hy.
      pose proof (F y Hy) as Hle. apply Nat.leb_le in Hle.
      assert (x <> y) by (intros ->; exact (Hx Hy)). lia.
  - intros p. split; intros H.
    + pose proof (proj1 (M p) (Permutation_in _ P H)). lia.
    + apply (Permutation_in _ (Permutation_sym P)). apply M. lia.
Qed.

Lemma cell_nonempty {X} (l : list X) (p : nat) :
  cell l p <> [] <-> (p < List.length l)%nat.
Proof.
  unfold cell. destruct (nth_error l p) eqn:E.
  - split; [intros _|discriminate].
    apply nth_error_Some. congruence.
  - split; [congruence|]. intros H. apply nth_error_None in E. lia.
Qed.

Lemma column_nonempty {X} (f : FastqRecord -> list X) (p : nat)
  (rs : list FastqRecord) :
  flat_map (fun r => cell (f r) p) rs <> []
  <-> (p < fold_right Nat.max 0%nat (map (fun r => List.length (f r)) rs))%nat.
Proof.
  induction rs as [|r rs IH]; simpl.
  - split; [congruence|lia].
  - pose proof (cell_nonempty (f r) p) as C.
    destruct (cell (f r) p) as [|x c] eqn:E; simpl.
    + rewrite IH. assert (~ (p < List.length (f r))%nat) by (rewrite <- C; tauto).
      lia.
    + split; [intros _|discriminate].
      assert (p < List.length (f r))%nat by (apply C; discriminate). lia.
Qed.

Lemma seen_keys {X V} (value : list X -> V) (d : dict (K:=nat) (V:=V))
  (col : nat -> list X) (m : nat) :
  (forall p, get Nat.eqb p d = seen value (col p)) ->
  (forall p, col p <> [] <-> (p < m)%nat) ->
  forall p, In p (keys d) <-> (p < m)%nat.
Proof.
  intros G C p. rewrite <- C. specialize (G p). split.
  - intros H. destruct (get_of_key _ Nat.eqb_spec p d H) as [v Hv].
    rewrite Hv in G. intros E. rewrite E in G. discriminate.
  - intros H. destruct (col p) as [|x c] eqn:E; [congruence|].
    simpl in G. eapply (get_some_key _ Nat.eqb_spec). exact G.
Qed.

(** ** The plots, position by position *)

Lemma rmap_map {X Y} (f : X -> result Y) (g : X -> Y) (xs : list X) :
  (forall x, In x xs -> f x = Ok (g x)) ->
  Gui.rmap f xs = Ok (map g xs).
Proof.
  induction xs as [|x xs IH]; intros H; simpl; [reflexivity|].
  rewrite (H x (or_introl eq_refl)). simpl.
  rewrite IH by (intros y Hy; apply H; now right). reflexivity.
Qed.

Lemma no_keys_no_positions (l : list nat) (m : nat) :
  (forall p, In p l <-> (p < m)%nat) ->
  (l = [] <-> m = 0%nat).
Proof.
  intros M. split.
  - intros ->. destruct m; [reflexivity|].
    exfalso. apply (proj2 (M 0%nat)). lia.
  - intros ->. destruct l as [|x l]; [reflexivity|].
    exfalso. pose proof (proj1 (M x) (or_introl eq_refl)). lia.
Qed.

Lemma draw_quality_plot_spec (rs : list FastqRecord) (a : Gui.Acc) :
  Gui.ingest rs = Ok a ->
  Gui.draw_quality_plot (Gui.quality_per_position a)
  = Ok (if Nat.eqb (longest_quality rs) 0 then None
        else Some (seq 0 (longest_quality rs),
                   map (column_mean rs) (seq 0 (longest_quality rs)))).
Proof.
  intros E.
  destruct (ingest_spec rs) as [a' [E' [_ [_ [_ [G _]]]]]].
  assert (a' = a) by congruence. subst a'.
  destruct (ingest_keys rs a E) as [ND _].
  set (d := Gui.quality_per_position a) in *.
  set (m := longest_quality rs).
  assert (M : forall p, In p (keys d) <-> (p < m)%nat).
  { apply (seen_keys (fun c => c) d (fun p => qcolumn p rs) m G).
    intros p. apply (column_nonempty quality). }
  pose proof (sorted_positions (keys d) m ND M) as S.
  pose proof (no_keys_no_positions (keys d) m M) as Z0.
  unfold Gui.draw_quality_plot.
  destruct d as [|kv d'] eqn:Ed.
  - rewrite (proj1 Z0 eq_refl). reflexivity.
  - rewrite <- Ed in *. rewrite S.
    assert (Hm : m <> 0%nat).
    { intros Hm. apply Z0 in Hm. rewrite Ed in Hm. discriminate. }
    apply Nat.eqb_neq in Hm. rewrite Hm.
    rewrite (rmap_map _ (column_mean rs)); [reflexivity|].
    intros p Hp. apply in_seq in Hp.
    assert (Hc : qcolumn p rs <> [])
      by (apply (column_nonempty quality); change (p < m)%nat; lia).
    unfold Gui.mean_at. specialize (G p).
    destruct (qcolumn p rs) as [|x c] eqn:Ec; [congruence|].
    simpl in G. rewrite (getitem_get _ _ _ _ G). cbn [rbind].
    unfold column_mean. rewrite Ec.
    apply truediv_ok. rewrite len_cons. pose proof (len_nonneg c). lia.
Qed.

Lemma draw_content_plot_spec (rs : list FastqRecord) (a : Gui.Acc) :
  Gui.ingest rs = Ok a ->
  Gui.draw_content_plot (Gui.base_content_per_position a)
  = Ok (if Nat.eqb (longest_sequence rs) 0 then None
        else Some (seq 0 (longest_sequence rs),
                   map (fun b =>
                          (b, map (fun p => share_of b (bcolumn p rs))
                                (seq 0 (longest_sequence rs))))
                     Gui.colors)).
Proof.
  intros E.
  destruct (ingest_spec rs) as [a' [E' [_ [_ [_ [_ G]]]]]].
  assert (a' = a) by congruence. subst a'.
  destruct (ingest_keys rs a E) as [_ ND].
  set (d := Gui.base_content_per_position a) in *.
  set (m := longest_sequence rs).
  assert (M : forall p, In p (keys d) <-> (p < m)%nat).
  { apply (seen_keys counts_of d (fun p => bcolumn p rs) m G).
    intros p.
    apply (column_nonempty (fun r => list_ascii_of_string (sequence r))). }
  pose proof (sorted_positions (keys d) m ND M) as S.
  pose proof (no_keys_no_positions (keys d) m M) as Z0.
  unfold Gui.draw_content_plot.
  destruct d as [|kv d'] eqn:Ed.
  - rewrite (proj1 Z0 eq_refl). reflexivity.
  - rewrite <- Ed in *. rewrite S.
    assert (Hm : m <> 0%nat).
    { intros Hm. apply Z0 in Hm. rewrite Ed in Hm. discriminate. }
    apply Nat.eqb_neq in Hm. rewrite Hm.
    rewrite (rmap_map _
               (fun b => (b, map (fun p => share_of b (bcolumn p rs))
                               (seq 0 m)))); [reflexivity|].
    intros b Hb.
    rewrite (rmap_map _ (fun p => share_of b (bcolumn p rs)));
      [reflexivity|].
    intros p Hp. apply in_seq in Hp.
    assert (Hc : bcolumn p rs <> []).
    { apply (column_nonempty (fun r => list_ascii_of_string (sequence r))).
      change (p < m)%nat. lia. }
    specialize (G p).
    destruct (bcolumn p rs) as [|x c] eqn:Ec; [congruence|].
    simpl seen in G. exact (share_spec d (x :: c) b p G Hb).
Qed.

Lemma run_analysis_spec (rs : list FastqRecord) :
  rs <> [] ->
  exists mn mx,
    min (lengths rs) = Ok mn /\ max (lengths rs) = Ok mx /\
    Gui.run_analysis rs
    = Ok (Some
            (Gui.mkAnalysis (len rs) (sum (lengths rs))
               (inject_Z (sum (lengths rs)) / inject_Z (len rs))%Q mn mx
               (Gui.draw_length_dist (lengths rs))
               (if Nat.eqb (longest_quality rs) 0 then None
                else Some (seq 0 (longest_quality rs),
                           map (column_mean rs)
                             (seq 0 (longest_quality rs))))
               (if Nat.eqb (longest_sequence rs) 0 then None
                else Some (seq 0 (longest_sequence rs),
                           map (fun b =>
                                  (b, map (fun p =>
                                             share_of b (bcolumn p rs))
                                        (seq 0 (longest_sequence rs))))
                             Gui.colors)))).
Proof.
  intros Hrs. unfold Gui.run_analysis.
  destruct (ingest_spec rs) as [a [E [L [N [T _]]]]].
  rewrite E. cbn [rbind]. rewrite N, T, L, (len_nonzero _ Hrs).
  rewrite truediv_ok by (apply len_pos in Hrs; lia). cbn [rbind].
  destruct (min_spec _ (lengths_nonnil _ Hrs)) as [mn [Hmn _]].
  destruct (max_spec _ (lengths_nonnil _ Hrs)) as [mx [Hmx _]].
  exists mn, mx. split; [exact Hmn|]. split; [exact Hmx|].
  rewrite Hmn, Hmx. cbn [rbind].
  rewrite (draw_quality_plot_spec rs a E), (draw_content_plot_spec rs a E).
  reflexivity.
Qed.

(** X17.  On a stream with at least one record whose scores are within
    the range of a float, no mean of a position is beyond that range and
    [run_analysis] completes.  Its quality plot has exactly the positions
    0, 1, ..., m - 1 in ascending order, m being the greatest number of
    quality scores of a read; the value at a position is the mean of the
    scores of the reads that reach it (shorter reads do not contribute,
    nothing is padded).  Nothing is plotted when no read has a score. *)
Theorem quality_plot_by_position :
  forall (rs : list FastqRecord),
    rs <> [] ->
    forallb within_float_range (scores rs) = true ->
    (forall p, Z.abs (sum (qcolumn p rs))
               <= float_max * len (qcolumn p rs)) /\
    exists an,
      Gui.run_analysis rs = Ok (Some an) /\
      Gui.quality_plot an
      = (if Nat.eqb (longest_quality rs) 0 then None
         else Some (seq 0 (longest_quality rs),
                    map (fun p =>
                           (inject_Z (sum (qcolumn p rs))
                            / inject_Z (len (qcolumn p rs)))%Q)
                      (seq 0 (longest_quality rs)))) /\
      (forall p, (p < longest_quality rs)%nat <-> qcolumn p rs <> []).
Proof.
  intros rs Hrs Hfit. split; [intros p; now apply column_fits|].
  destruct (run_analysis_spec rs Hrs) as [mn [mx [_ [_ H]]]].
  eexists. split; [exact H|]. split; [reflexivity|].
  intros p. symmetry. apply (column_nonempty quality).
Qed.

Lemma quality_plot_by_position_witness :
  exists an,
    Gui.run_analysis
      [mkRecord "ATGC" [30; 30; 30; 30]; mkRecord "AT" [10; 10];
       mkRecord "GGCC" [40; 40; 20; 20]] = Ok (Some an) /\
    Gui.quality_plot an
    = Some ([0; 1; 2; 3]%nat,
            [(inject_Z 80 / inject_Z 3)%Q; (inject_Z 80 / inject_Z 3)%Q;
             (inject_Z 50 / inject_Z 2)%Q; (inject_Z 50 / inject_Z 2)%Q]).
Proof.
  destruct (quality_plot_by_position
              [mkRecord "ATGC" [30; 30; 30; 30]; mkRecord "AT" [10; 10];
               mkRecord "GGCC" [40; 40; 20; 20]])
    as [_ [an [H1 [H2 _]]]]; [discriminate|vm_compute; reflexivity|].
  exists an. split; [exact H1|exact H2].
Defined.

Lemma occ_le_atgc (b : ascii) (col : list ascii) :
  In b Gui.colors -> 0 <= occ b col <= atgc col.
Proof.
  intros Hb. unfold atgc.
  pose proof (occ_nonneg "A" col). pose proof (occ_nonneg "T" col).
  pose proof (occ_nonneg "G" col). pose proof (occ_nonneg "C" col).
  simpl in Hb. destruct Hb as [<-|[<-|[<-|[<-|[]]]]]; lia.
Qed.

Lemma share_of_bounds (b : ascii) (col : list ascii) :
  In b Gui.colors -> (0 <= share_of b col <= 100)%Q.
Proof.
  intros Hb. unfold share_of.
  destruct (Z.eqb_spec (atgc col) 0) as [E|E]; [split; discriminate|].
  pose proof (atgc_nonneg col).
  apply percent_bounds; [now apply occ_le_atgc|lia].
Qed.

(** X18.  [draw_content_plot], on the counters that the loop of
    [run_analysis] has collected from any stream, draws exactly the
    positions 0, 1, ..., M - 1 in ascending order, M being the greatest
    sequence length, and one series for each of A, T, G, C in this order;
    the value of a series at a position is the share of its base among
    the A, T, G, C observed there (0 when none was), always within
    [0, 100].  Nothing is plotted when every sequence is empty.  Whenever
    [run_analysis] completes, this is its content plot. *)
Theorem content_plot_by_position :
  forall (rs : list FastqRecord),
    exists a plot,
      Gui.ingest rs = Ok a /\
      Gui.draw_content_plot (Gui.base_content_per_position a) = Ok plot /\
      plot
      = (if Nat.eqb (longest_sequence rs) 0 then None
         else Some (seq 0 (longest_sequence rs),
                    map (fun b =>
                           (b, map (fun p => share_of b (bcolumn p rs))
                                 (seq 0 (longest_sequence rs))))
                      ["A"; "T"; "G"; "C"]%char)) /\
      (forall an, Gui.run_analysis rs = Ok (Some an) ->
                  Gui.content_plot an = plot) /\
      (forall p, (p < longest_sequence rs)%nat <-> bcolumn p rs <> []) /\
      (forall b p, In b ["A"; "T"; "G"; "C"]%char ->
                   (0 <= share_of b (bcolumn p rs) <= 100)%Q).
Proof.
  intros rs.
  destruct (ingest_spec rs) as [a [E _]].
  pose proof (draw_content_plot_spec rs a E) as Hc.
  exists a. eexists. split; [exact E|]. split; [exact Hc|].
  split; [reflexivity|]. split; [|split].
  - intros an Han. unfold Gui.run_analysis in Han.
    rewrite E in Han. cbn [rbind] in Han.
    destruct (Gui.total_sequences a =? 0); [discriminate Han|].
    destruct (truediv _ _) as [mean|e]; [|discriminate Han].
    cbn [rbind] in Han.
    destruct (min _) as [mn|e]; [|discriminate Han]. cbn [rbind] in Han.
    destruct (max _) as [mx|e]; [|discriminate Han]. cbn [rbind] in Han.
    destruct (Gui.draw_quality_plot _) as [qp|e]; [|discriminate Han].
    cbn [rbind] in Han. rewrite Hc in Han. cbn [rbind] in Han.
    injection Han as <-. reflexivity.
  - intros p. symmetry.
    apply (column_nonempty (fun r => list_ascii_of_string (sequence r))).
  - intros b p Hb. now apply share_of_bounds.
Qed.

Lemma content_plot_by_position_witness :
  exists a plot,
    Gui.ingest [mkRecord "AN" [30; 30]; mkRecord "G" [30]] = Ok a /\
    Gui.draw_content_plot (Gui.base_content_per_position a) = Ok plot /\
    option_map fst plot = Some [0; 1]%nat.
Proof.
  destruct (content_plot_by_position
              [mkRecord "AN" [30; 30]; mkRecord "G" [30]])
    as [a [plot [H1 [H2 [H3 _]]]]].
  exists a, plot. split; [exact H1|]. split; [exact H2|].
  rewrite H3. reflexivity.
Defined.




(** ** The plots commands *)

(** X20.  [plots] of the click entry point counts the records first: on
    a stream without records it reports that and returns without running
    [analyze_fastq]; otherwise it echoes the count, runs [analyze_fastq]
    once and echoes the success line only if that returns, an exception
    of [analyze_fastq] being passed on.  [plots_command] of the argparse
    entry point runs [analyze_fastq] in every case, also on a stream
    without records. *)
Theorem plots_counts_before_drawing :
  forall (analyze_fastq : list FastqRecord -> Cmd unit)
         (processed : Z -> Echo) (building built : Echo)
         (rs : list FastqRecord) (out : Console),
    (rs = [] ->
     Plots.plots analyze_fastq processed building built rs out
     = (Ok tt, out ++ [EchoHeader; EchoNoValid])) /\
    (rs <> [] ->
     Plots.plots analyze_fastq processed building built rs out
     = match analyze_fastq rs
               (out ++ EchoHeader
                :: map (fun k => EchoProgress (10000 * Z.of_nat k))
                     (seq 1 (Z.to_nat (len rs / 10000)))
                ++ [processed (len rs); building]) with
       | (Ok _, out') => (Ok tt, out' ++ [built])
       | (Raise e, out') => (Raise e, out')
       end) /\
    Plots.plots_command analyze_fastq built rs out
    = match analyze_fastq rs (out ++ [EchoHeader]) with
      | (Ok _, out') => (Ok tt, out' ++ [built])
      | (Raise e, out') => (Raise e, out')
      end.
Proof.
  intros af processed building built rs out. split; [|split].
  - intros ->. unfold Plots.plots, Click.calculate_basic_stats, bind, echo,
      ret. simpl. now rewrite <- app_assoc.
  - intros Hrs.
    pose proof (basic_loop_console rs Click.basic_init (out ++ [EchoHeader]))
      as H.
    change (Click.total_sequences Click.basic_init) with 0 in H.
    rewrite progress_lines_marks in H. fold (len rs) in H.
    unfold Plots.plots, Click.calculate_basic_stats, bind.
    unfold echo at 1. rewrite H. cbn [Click.total_sequences].
    rewrite Z.add_0_l, (len_nonzero rs Hrs). unfold echo.
    unfold progress_marks.
    rewrite <- !app_assoc. cbn [app].
    destruct (af rs _) as [[[]|e] out']; reflexivity.
  - unfold Plots.plots_command, bind, echo.
    destruct (af rs _) as [[[]|e] out']; reflexivity.
Qed.

Lemma plots_counts_before_drawing_witness :
  Plots.plots (fun _ => echo EchoThresholds) EchoProgress
    EchoLengthHeader EchoThresholds [] [] = (Ok tt, [EchoHeader; EchoNoValid])
  /\
  Plots.plots (fun _ => echo EchoThresholds) EchoProgress
    EchoLengthHeader EchoThresholds [mkRecord "AT" [30; 30]] []
  = (Ok tt, [EchoHeader; EchoProgress 1; EchoLengthHeader; EchoThresholds;
             EchoThresholds]).
Proof.
  split.
  - apply (plots_counts_before_drawing (fun _ => echo EchoThresholds)
             EchoProgress EchoLengthHeader EchoThresholds [] []).
    reflexivity.
  - apply (plots_counts_before_drawing (fun _ => echo EchoThresholds)
             EchoProgress EchoLengthHeader EchoThresholds
             [mkRecord "AT" [30; 30]] []).
    discriminate.
Defined.

(** ** The thresholds flag *)

(** X21.  The [--thresholds] flag of [quality] changes no value: with and
    without it the outcome is the same, and the console differs only by
    the explanation of the thresholds, appended after a report and never
    after the early return or an exception. *)
Theorem thresholds_flag_only_appends :
  forall (rs : list FastqRecord) (out : Console),
    fst (Click.quality true rs out) = fst (Click.quality false rs out) /\
    snd (Click.quality true rs out)
    = snd (Click.quality false rs out)
      ++ match fst (Click.quality false rs out) with
         | Ok (Some _) => [EchoThresholds]
         | _ => []
         end.
Proof.
  intros rs out. unfold Click.quality, bind.
  destruct (echo EchoHeader out) as [[[]|e] out0];
    [|cbn [fst snd]; now rewrite app_nil_r].
  destruct (for_each Click.quality_body rs (0, []) out0)
    as [[[n qs]|e] out1]; [|cbn [fst snd]; now rewrite app_nil_r].
  destruct (n =? 0); [cbn; now rewrite app_nil_r|].
  destruct (lift _ out1) as [[q|e] out2];
    [|cbn [fst snd]; now rewrite app_nil_r].
  destruct (lift _ out2) as [[mn|e] out3];
    [|cbn [fst snd]; now rewrite app_nil_r].
  destruct (lift _ out3) as [[mx|e] out4];
    [|cbn [fst snd]; now rewrite app_nil_r].
  destruct (lift _ out4) as [[q20|e] out5];
    [|cbn [fst snd]; now rewrite app_nil_r].
  destruct (lift _ out5) as [[q30|e] out6];
    [|cbn [fst snd]; now rewrite app_nil_r].
  unfold echo, ret. cbn [fst snd]. split; [reflexivity|].
  reflexivity.
Qed.

(** ** The GUI on its stand-in reader *)

Lemma length_chars (s : string) :
  List.length (list_ascii_of_string s) = String.length s.
Proof. induction s as [|c s IH]; simpl; congruence. Qed.

Lemma longest_spec (l : list nat) :
  l <> [] ->
  In (fold_right Nat.max 0%nat l) l /\
  Forall (fun x => (x <= fold_right Nat.max 0%nat l)%nat) l.
Proof.
  induction l as [|x l IH]; [congruence|]. intros _.
  destruct l as [|y l].
  - simpl. split; [left; lia|]. constructor; [lia|constructor].
  - destruct IH as [I F]; [discriminate|].
    set (m := fold_right Nat.max 0%nat (y :: l)) in *.
    change (fold_right Nat.max 0%nat (x :: y :: l)) with (Nat.max x m).
    split.
    + destruct (Nat.max_spec x m) as [[_ ->]|[_ ->]];
        [right; exact I|left; reflexivity].
    + constructor; [lia|].
      eapply Forall_impl; [|exact F]. cbv beta. intros a Ha. lia.
Qed.

Lemma lengths_of_chars (rs : list FastqRecord) :
  lengths rs
  = map Z.of_nat
      (map (fun r => List.length (list_ascii_of_string (sequence r))) rs).
Proof.
  unfold lengths. rewrite map_map. apply map_ext. intros r.
  unfold slen. now rewrite length_chars.
Qed.

Lemma longest_sequence_max (rs : list FastqRecord) (mx : Z) :
  rs <> [] -> max (lengths rs) = Ok mx ->
  Z.of_nat (longest_sequence rs) = mx.
Proof.
  intros Hrs H. destruct (max_ok_spec _ _ H) as [I F].
  rewrite Forall_forall in F. rewrite lengths_of_chars in I, F.
  unfold longest_sequence.
  set (ns := map (fun r => List.length (list_ascii_of_string (sequence r)))
               rs) in *.
  destruct (longest_spec ns) as [I' F'].
  { unfold ns. destruct rs; [congruence|discriminate]. }
  rewrite Forall_forall in F'.
  pose proof (F _ (in_map Z.of_nat _ _ I')) as H1.
  apply in_map_iff in I. destruct I as [k [<- Hk]].
  pose proof (F' k Hk). lia.
Qed.

Lemma may_yield_spec (r : FastqRecord) :
  FastqReader.may_yield r = true ->
  100 <= slen (sequence r) <= 150 /\
  len (quality r) = slen (sequence r) /\
  Forall (fun q => 20 <= q <= 40) (quality r) /\
  Forall (fun c => is_atgc c = true) (list_ascii_of_string (sequence r)).
Proof.
  unfold FastqReader.may_yield, FastqReader.may_draw_sequence,
    FastqReader.may_draw_quality.
  rewrite !andb_true_iff, !forallb_forall, Z.eqb_eq, !Z.leb_le.
  intros [[[H1 H2] H3] [H4 H5]]. repeat split; try assumption.
  - apply Forall_forall. intros q Hq. specialize (H5 q Hq).
    rewrite andb_true_iff, !Z.leb_le in H5. exact H5.
  - apply Forall_forall. exact H3.
Qed.

Lemma read_spec (rs : list FastqRecord) :
  FastqReader.read rs = true ->
  len rs = 100 /\ rs <> [] /\
  Forall (fun r => FastqReader.may_yield r = true) rs.
Proof.
  unfold FastqReader.read. rewrite andb_true_iff, forallb_forall, Z.eqb_eq.
  intros [H1 H2]. split; [exact H1|]. split.
  - intros ->. discriminate H1.
  - apply Forall_forall. exact H2.
Qed.

Lemma read_lengths (rs : list FastqRecord) :
  FastqReader.read rs = true ->
  Forall (fun l => 100 <= l <= 150) (lengths rs).
Proof.
  intros H. destruct (read_spec rs H) as [_ [_ F]].
  unfold lengths. apply Forall_map.
  eapply Forall_impl; [|exact F]. intros r Hr.
  now destruct (may_yield_spec r Hr) as [Hl _].
Qed.

Lemma read_longest (rs : list FastqRecord) :
  FastqReader.read rs = true -> longest_quality rs = longest_sequence rs.
Proof.
  intros H. destruct (read_spec rs H) as [_ [_ F]].
  unfold longest_quality, longest_sequence. f_equal.
  apply map_ext_in. intros r Hr. rewrite Forall_forall in F.
  destruct (may_yield_spec r (F r Hr)) as [_ [E _]].
  unfold len, slen in E. rewrite length_chars. lia.
Qed.

Lemma column_full {X} (f : FastqRecord -> list X) (p : nat)
  (rs : list FastqRecord) :
  Forall (fun r => (p < List.length (f r))%nat) rs ->
  len (flat_map (fun r => cell (f r) p) rs) = len rs.
Proof.
  induction 1 as [|r rs Hr _ IH]; [reflexivity|].
  cbn [flat_map]. rewrite len_app, len_cons, IH. unfold cell.
  destruct (nth_error (f r) p) eqn:E; [reflexivity|].
  apply nth_error_None in E. lia.
Qed.

Lemma atgc_all (col : list ascii) :
  Forall (fun c => is_atgc c = true) col -> atgc col = len col.
Proof.
  induction 1 as [|c col Hc _ IH]; [reflexivity|].
  now rewrite atgc_cons, len_cons, Hc, IH.
Qed.

Lemma read_columns (rs : list FastqRecord) (p : nat) :
  FastqReader.read rs = true ->
  Forall (fun q => 20 <= q <= 40) (qcolumn p rs) /\
  atgc (bcolumn p rs) = len (bcolumn p rs) /\
  ((p < 100)%nat -> len (qcolumn p rs) = 100 /\ len (bcolumn p rs) = 100).
Proof.
  intros H. destruct (read_spec rs H) as [L [_ F]].
  rewrite Forall_forall in F. split; [|split].
  - apply Forall_forall. intros q Hq.
    destruct (column_In quality p rs q Hq) as [r [Hr Hin]].
    destruct (may_yield_spec r (F r Hr)) as [_ [_ [Q _]]].
    rewrite Forall_forall in Q. now apply Q.
  - apply atgc_all. apply Forall_forall. intros c Hc.
    destruct (column_In (fun r => list_ascii_of_string (sequence r))
                p rs c Hc) as [r [Hr Hin]].
    destruct (may_yield_spec r (F r Hr)) as [_ [_ [_ B]]].
    rewrite Forall_forall in B. now apply B.
  - intros Hp. rewrite <- L. split.
    + apply (column_full quality). apply Forall_forall. intros r Hr.
      destruct (may_yield_spec r (F r Hr)) as [Hl [E _]].
      unfold len in E. lia.
    + apply (column_full (fun r => list_ascii_of_string (sequence r))).
      apply Forall_forall. intros r Hr.
      destruct (may_yield_spec r (F r Hr)) as [Hl _].
      rewrite length_chars. unfold slen in Hl. lia.
Qed.

(** X22.  On every stream that the stand-in reader of the GUI can yield,
    [run_analysis] shows a summary (never the empty-file message, never
    the error box) with 100 sequences, between 10000 and 15000
    nucleotides, and a minimum, mean and maximum length that lie, in this
    order, between 100 and 150. *)
Theorem stand_in_reader_summary :
  forall (rs : list FastqRecord),
    FastqReader.read rs = true ->
    exists an,
      Gui.run_analysis rs = Ok (Some an) /\
      Gui.a_total_sequences an = 100 /\
      10000 <= Gui.a_total_length an <= 15000 /\
      100 <= Gui.min_length an /\
      (inject_Z (Gui.min_length an) <= Gui.mean_length an)%Q /\
      (Gui.mean_length an <= inject_Z (Gui.max_length an))%Q /\
      Gui.max_length an <= 150.
Proof.
  intros rs H. destruct (read_spec rs H) as [L [Hrs _]].
  pose proof (read_lengths rs H) as B.
  destruct (run_analysis_spec rs Hrs) as [mn [mx [Hmn [Hmx E]]]].
  destruct (min_ok_spec _ _ Hmn) as [Imn Fmn].
  destruct (max_ok_spec _ _ Hmx) as [Imx Fmx].
  assert (Ll : len (lengths rs) = 100)
    by (unfold lengths, len; rewrite length_map; exact L).
  pose proof (sum_between 100 150 _ B) as S.
  pose proof (sum_between mn mx (lengths rs)) as S'.
  rewrite Ll in S, S'.
  assert (S2 : 100 * mn <= sum (lengths rs) <= 100 * mx).
  { apply S'. rewrite Forall_forall in *. intros l Hl.
    split; [now apply Fmn|now apply Fmx]. }
  rewrite Forall_forall in B.
  eexists. split; [exact E|].
  cbn [Gui.a_total_sequences Gui.a_total_length Gui.min_length
         Gui.mean_length Gui.max_length].
  rewrite L.
  destruct (quotient_between mn mx (sum (lengths rs)) 100) as [Q1 Q2];
    [lia|exact S2|].
  split; [reflexivity|]. split; [lia|].
  split; [apply (B mn Imn)|]. split; [exact Q1|]. split; [exact Q2|].
  apply (B mx Imx).
Qed.

Lemma stand_in_reader_summary_witness :
  exists an,
    Gui.run_analysis (uniform_stream "A" 30) = Ok (Some an) /\
    Gui.a_total_sequences an = 100.
Proof.
  destruct (stand_in_reader_summary (uniform_stream "A" 30))
    as [an [H1 [H2 _]]]; [vm_compute; reflexivity|].
  exists an. split; [exact H1|exact H2].
Defined.

(** X23.  On every stream that the stand-in reader can yield both plots
    of [run_analysis] are drawn over the same positions 0, 1, ...,
    max_length - 1.  Every mean quality lies between 20 and 40; no symbol
    is left out of the shares, whose denominator at a position is the
    number of reads that reach it; and each of the first 100 positions is
    reached by all 100 reads. *)
Theorem stand_in_reader_plots :
  forall (rs : list FastqRecord),
    FastqReader.read rs = true ->
    exists an m means,
      Gui.run_analysis rs = Ok (Some an) /\
      Z.of_nat m = Gui.max_length an /\
      Gui.quality_plot an = Some (seq 0 m, means) /\
      Forall (fun v => (inject_Z 20 <= v <= inject_Z 40)%Q) means /\
      Gui.content_plot an
      = Some (seq 0 m,
              map (fun b =>
                     (b, map (fun p => percent (occ b (bcolumn p rs))
                                         (len (bcolumn p rs)))
                           (seq 0 m)))
                ["A"; "T"; "G"; "C"]%char) /\
      (forall p, (p < 100)%nat ->
                 len (qcolumn p rs) = 100 /\ len (bcolumn p rs) = 100).
Proof.
  intros rs H. destruct (read_spec rs H) as [L [Hrs _]].
  destruct (run_analysis_spec rs Hrs) as [mn [mx [Hmn [Hmx E]]]].
  pose proof (longest_sequence_max rs mx Hrs Hmx) as M.
  pose proof (read_lengths rs H) as B. rewrite Forall_forall in B.
  destruct (max_ok_spec _ _ Hmx) as [Imx _].
  pose proof (B mx Imx) as Bmx.
  rewrite (read_longest rs H) in E.
  set (m := longest_sequence rs) in *.
  assert (Hm : Nat.eqb m 0 = false) by (apply Nat.eqb_neq; lia).
  rewrite Hm in E.
  exists (Gui.mkAnalysis (len rs) (sum (lengths rs))
            (inject_Z (sum (lengths rs)) / inject_Z (len rs))%Q mn mx
            (Gui.draw_length_dist (lengths rs))
            (Some (seq 0 m, map (column_mean rs) (seq 0 m)))
            (Some (seq 0 m,
                   map (fun b =>
                          (b, map (fun p => share_of b (bcolumn p rs))
                                (seq 0 m)))
                     Gui.colors))).
  exists m, (map (column_mean rs) (seq 0 m)).
  split; [exact E|]. split; [exact M|]. split; [reflexivity|].
  cbn [Gui.content_plot].
  assert (C : forall p, (p < m)%nat -> bcolumn p rs <> []).
  { intros p Hp.
    apply (column_nonempty (fun r => list_ascii_of_string (sequence r))).
    exact Hp. }
  assert (Cq : forall p, (p < m)%nat -> qcolumn p rs <> []).
  { intros p Hp. apply (column_nonempty quality).
    change (p < longest_quality rs)%nat.
    rewrite (read_longest rs H). exact Hp. }
  split; [|split].
  - apply Forall_map. apply Forall_forall. intros p Hp.
    apply in_seq in Hp. unfold column_mean.
    destruct (read_columns rs p H) as [Q _].
    apply quotient_between; [apply len_pos, Cq; lia|].
    pose proof (sum_between 20 40 _ Q). lia.
  - f_equal. f_equal. apply map_ext. intros b. f_equal.
    apply map_ext_in. intros p Hp. apply in_seq in Hp.
    destruct (read_columns rs p H) as [_ [A _]].
    unfold share_of. rewrite A.
    rewrite (len_nonzero _ (C p ltac:(lia))). reflexivity.
  - intros p Hp. now apply (read_columns rs p H).
Qed.

Lemma stand_in_reader_plots_witness :
  exists an m means,
    Gui.run_analysis (uniform_stream "G" 25) = Ok (Some an) /\
    Z.of_nat m = Gui.max_length an /\
    Gui.quality_plot an = Some (seq 0 m, means) /\
    Forall (fun v => (inject_Z 20 <= v <= inject_Z 40)%Q) means.
Proof.
  destruct (stand_in_reader_plots (uniform_stream "G" 25))
    as [an [m [means [H1 [H2 [H3 [H4 _]]]]]]]; [vm_compute; reflexivity|].
  exists an, m, means. auto.
Defined.
